(** * Auto-Organize orchestration of the FileSorter desktop agent

    A shallow embedding of the organize workflow of [Dashboard.tsx]
    ([handleStartOrganize], [handleExecuteOrganize], [handleGenerateRules],
    [resetOrganize]) together with the properties its specification states.

    The component keeps its session in React state cells; the handlers are
    [async] functions that read the cells through the closure of the render
    in which they were created and write them through the setters.  Every
    [await] is a point at which the handler is suspended and another event
    (here: the cancel button, [resetOrganize]) may run.  The handlers are
    therefore embedded as resumption trees ([proc]) whose nodes are state
    writes and awaited calls, and an interpreter ([run]) answers the calls
    from an environment and interleaves cancellations. *)

From Stdlib Require Import String Ascii List ZArith NArith Bool Lia DecimalString.
From Stdlib.Strings Require Import Byte.
From Corelib Require Import PrimFloat.
From stdpp Require Import base list strings.
Import ListNotations.

Set Warnings "-inexact-float".
Open Scope string_scope.
Open Scope list_scope.

(** ** JavaScript values *)

(** Truthiness of a string: only the empty string is falsy. *)
Definition truthy (s : string) : bool := negb (s =? "").

(** Truthiness of [string | null]. *)
Definition truthy_opt (s : option string) : bool :=
  match s with
  | Some s => truthy s
  | None => false
  end.

(** [s || ''] for [s : string | null]. *)
Definition or_empty (s : option string) : string :=
  match s with
  | Some s => s
  | None => ""
  end.

(** Truthiness of a number: [0], [-0] and [NaN] are falsy. *)
Definition truthy_num (x : float) : bool :=
  negb (PrimFloat.eqb x 0%float || negb (PrimFloat.eqb x x)).

(** Template-literal rendering of integral numbers. *)
Definition string_of_nat (n : nat) : string :=
  NilEmpty.string_of_uint (Nat.to_uint n).

Definition string_of_Z (z : Z) : string :=
  NilZero.string_of_int (Z.to_int z).

(** A thrown value: an [Error] object carrying a message, or any other value
    (the Tauri bridge rejects with plain strings), kept as its string form. *)
Inductive js_error : Type :=
| ErrorObj (message : string)
| Thrown (text : string).

(** [`${error.message || error}`] *)
Definition error_text (e : js_error) : string :=
  match e with
  | ErrorObj m => if truthy m then m else "Error"
  | Thrown s => s
  end.

(** The settlement of a promise. *)
Inductive result (X : Type) : Type :=
| Rejected (e : js_error)
| Fulfilled (x : X).
Arguments Rejected {X} e.
Arguments Fulfilled {X} x.

(** [btoa(String.fromCharCode(...new Uint8Array(content)))] *)
Definition b64_alphabet : string :=
  "ABCDEFGHIJKLMNOPQRSTUVWXYZabcdefghijklmnopqrstuvwxyz0123456789+/".

Definition b64_digit (n : N) : ascii :=
  match String.get (N.to_nat n) b64_alphabet with
  | Some c => c
  | None => "="%char
  end.

Fixpoint btoa (bytes : list byte) : string :=
  match bytes with
  | [] => ""
  | [a] =>
      let x := Byte.to_N a in
      String (b64_digit (x / 4))
        (String (b64_digit ((x mod 4) * 16)) "==")
  | [a; b] =>
      let x := Byte.to_N a in
      let y := Byte.to_N b in
      String (b64_digit (x / 4))
        (String (b64_digit ((x mod 4) * 16 + y / 16))
           (String (b64_digit ((y mod 16) * 4)) "="))
  | a :: b :: c :: rest =>
      let x := Byte.to_N a in
      let y := Byte.to_N b in
      let z := Byte.to_N c in
      String (b64_digit (x / 4))
        (String (b64_digit ((x mod 4) * 16 + y / 16))
           (String (b64_digit ((y mod 16) * 4 + z / 64))
              (String (b64_digit (z mod 64)) (btoa rest))))
  end.

(** ** Data model *)

Module ScannedFile.
Record t : Type := mk {
  filename : string;
  extension : string;
  size_bytes : Z;
  path : string;
  modified : option string
}.
End ScannedFile.

Module FolderSuggestion.
(** [confidence] is typed [number], but the value comes from the service's
    JSON and the code guards against its absence ([folder.confidence || 0.9]). *)
Record t : Type := mk {
  folder_path : string;
  folder_name : string;
  files : list string;
  reason : string;
  confidence : option float;
  file_count : Z
}.
End FolderSuggestion.

Module OrganizeResult.
Record t : Type := mk {
  folders : list FolderSuggestion.t;
  total_files : Z;
  total_folders : Z;
  clustering_method : string;
  naming_method : string
}.
End OrganizeResult.

Module ExistingFolder.
Record t : Type := mk {
  folder_name : string;
  folder_path : string;
  sample_files : list string;
  file_count : Z
}.
End ExistingFolder.

Module SuggestedRule.
Record t : Type := mk {
  rule_type : string;
  pattern : string;
  target_folder : string;
  file_count : Z;
  confidence : float;
  description : string;
  selected : option bool
}.
End SuggestedRule.

(** An element of [filesForApi]. *)
Module ApiFile.
Record t : Type := mk {
  filename : string;
  extension : string;
  size_bytes : Z;
  content_preview : string;
  path : string
}.
End ApiFile.

Module MoveOperation.
Record t : Type := mk {
  source_path : string;
  dest_folder : string;
  filename : string
}.
End MoveOperation.

(** What [execute_file_moves] answers. *)
Module MoveResult.
Record t : Type := mk {
  success : bool;
  moved_count : Z;
  errors : list string
}.
End MoveResult.

(** Request bodies of the remote endpoints. *)
Module ExtractRequest.
Record t : Type := mk {
  content_base64 : string;
  extension : string;
  filename : string
}.
End ExtractRequest.

Module ExtractData.
Record t : Type := mk {
  content_preview : string
}.
End ExtractData.

Module AnalyzeRequest.
Record t : Type := mk {
  files : list ApiFile.t;
  existing_folders : list ExistingFolder.t;
  use_existing_folders : bool;
  use_gemini_naming : bool;
  use_gemini_full : bool;
  custom_prompt : string;
  min_clusters : Z;
  max_clusters : Z
}.
End AnalyzeRequest.

Module LogRequest.
Record t : Type := mk {
  filename : string;
  source_path : string;
  dest_path : string;
  confidence : float
}.
End LogRequest.

Module RulesRequest.
Record t : Type := mk {
  folders : list FolderSuggestion.t;
  source_folder : string
}.
End RulesRequest.

Module RulesData.
Record t : Type := mk {
  rules : list SuggestedRule.t;
  total_rules : Z
}.
End RulesData.

(** The response of [httpFetch]. *)
Module Response.
Record t (T : Type) : Type := mk {
  ok : bool;
  status : Z;
  data : T
}.
Arguments mk {T} ok status data.
Arguments ok {T} _.
Arguments status {T} _.
Arguments data {T} _.
End Response.

(** ** The session: the component's state cells

    The cells that belong to the organize workflow.  [recentActions],
    [loading], [userFolders] and [stats] belong to other cards of the
    dashboard and are written by none of the handlers below. *)

Inductive OrganizeStep : Type :=
| idle | scanning | analyzing | preview | executing | done.

Record State : Type := mkState {
  showAutoOrganize : bool;
  selectedFolder : string;
  organizeStep : OrganizeStep;
  organizeStatus : string;
  scannedFiles : list ScannedFile.t;
  organizeResult : option OrganizeResult.t;
  useGeminiNaming : bool;
  useGeminiFull : bool;
  useExistingFolders : bool;
  useContentExtraction : bool;
  customPrompt : string;
  suggestedRules : list SuggestedRule.t;
  showRulesModal : bool
}.

(** [useState]'s initial values. *)
Definition initialState : State :=
  {| showAutoOrganize := false; selectedFolder := ""; organizeStep := idle;
     organizeStatus := ""; scannedFiles := []; organizeResult := None;
     useGeminiNaming := true; useGeminiFull := false;
     useExistingFolders := true; useContentExtraction := false;
     customPrompt := ""; suggestedRules := []; showRulesModal := false |}.

Definition setShowAutoOrganize (v : bool) (st : State) : State :=
  mkState v (selectedFolder st) (organizeStep st) (organizeStatus st)
    (scannedFiles st) (organizeResult st) (useGeminiNaming st)
    (useGeminiFull st) (useExistingFolders st) (useContentExtraction st)
    (customPrompt st) (suggestedRules st) (showRulesModal st).

Definition setSelectedFolder (v : string) (st : State) : State :=
  mkState (showAutoOrganize st) v (organizeStep st) (organizeStatus st)
    (scannedFiles st) (organizeResult st) (useGeminiNaming st)
    (useGeminiFull st) (useExistingFolders st) (useContentExtraction st)
    (customPrompt st) (suggestedRules st) (showRulesModal st).

Definition setOrganizeStep (v : OrganizeStep) (st : State) : State :=
  mkState (showAutoOrganize st) (selectedFolder st) v (organizeStatus st)
    (scannedFiles st) (organizeResult st) (useGeminiNaming st)
    (useGeminiFull st) (useExistingFolders st) (useContentExtraction st)
    (customPrompt st) (suggestedRules st) (showRulesModal st).

Definition setOrganizeStatus (v : string) (st : State) : State :=
  mkState (showAutoOrganize st) (selectedFolder st) (organizeStep st) v
    (scannedFiles st) (organizeResult st) (useGeminiNaming st)
    (useGeminiFull st) (useExistingFolders st) (useContentExtraction st)
    (customPrompt st) (suggestedRules st) (showRulesModal st).

Definition setScannedFiles (v : list ScannedFile.t) (st : State) : State :=
  mkState (showAutoOrganize st) (selectedFolder st) (organizeStep st)
    (organizeStatus st) v (organizeResult st) (useGeminiNaming st)
    (useGeminiFull st) (useExistingFolders st) (useContentExtraction st)
    (customPrompt st) (suggestedRules st) (showRulesModal st).

Definition setOrganizeResult (v : option OrganizeResult.t) (st : State) : State :=
  mkState (showAutoOrganize st) (selectedFolder st) (organizeStep st)
    (organizeStatus st) (scannedFiles st) v (useGeminiNaming st)
    (useGeminiFull st) (useExistingFolders st) (useContentExtraction st)
    (customPrompt st) (suggestedRules st) (showRulesModal st).

Definition setSuggestedRules (v : list SuggestedRule.t) (st : State) : State :=
  mkState (showAutoOrganize st) (selectedFolder st) (organizeStep st)
    (organizeStatus st) (scannedFiles st) (organizeResult st)
    (useGeminiNaming st) (useGeminiFull st) (useExistingFolders st)
    (useContentExtraction st) (customPrompt st) v (showRulesModal st).

Definition setShowRulesModal (v : bool) (st : State) : State :=
  mkState (showAutoOrganize st) (selectedFolder st) (organizeStep st)
    (organizeStatus st) (scannedFiles st) (organizeResult st)
    (useGeminiNaming st) (useGeminiFull st) (useExistingFolders st)
    (useContentExtraction st) (customPrompt st) (suggestedRules st) v.

(** [resetOrganize]: the cancel and the done button. *)
Definition resetOrganize (st : State) : State :=
  setShowRulesModal false
    (setSuggestedRules []
       (setOrganizeResult None
          (setScannedFiles []
             (setOrganizeStatus ""
                (setOrganizeStep idle
                   (setSelectedFolder ""
                      (setShowAutoOrganize false st))))))).

(** ** Calls that leave the component

    [invoke] reaches the local Tauri commands, [httpFetch] the remote
    service.  Calls issued inside a loop carry the position of the iteration
    that issues them ([fileIdx] in the source, the folder and file positions
    for the history log), so that the environment is free to answer two
    calls with equal arguments differently. *)

Inductive call : Type :=
| scan_folder_for_organize (folderPath : string)
| get_access_token
| scan_existing_folders (folderPath : string)
| read_file_content (fileIdx : nat) (filePath : string) (maxBytes : Z)
| execute_file_moves (baseFolder : string) (moves : list MoveOperation.t)
    (createFolders : bool)
| get_recent_actions
| post_extract_content (fileIdx : nat) (authorization : string)
    (body : ExtractRequest.t)
| post_analyze (authorization : string) (body : AnalyzeRequest.t)
| post_actions_log (pos : nat * nat) (authorization : string)
    (body : LogRequest.t)
| post_generate_rules (authorization : string) (body : RulesRequest.t).

(** The type of the value a call is fulfilled with. *)
Definition resp (c : call) : Type :=
  match c with
  | scan_folder_for_organize _ => list ScannedFile.t
  | get_access_token => option string
  | scan_existing_folders _ => list ExistingFolder.t
  | read_file_content _ _ _ => list byte
  | execute_file_moves _ _ _ => MoveResult.t
  | get_recent_actions => unit
  | post_extract_content _ _ _ => Response.t ExtractData.t
  | post_analyze _ _ => Response.t OrganizeResult.t
  | post_actions_log _ _ _ => Response.t unit
  | post_generate_rules _ _ => Response.t RulesData.t
  end.

(** Remote (network) calls are the [httpFetch] ones. *)
Definition is_remote (c : call) : bool :=
  match c with
  | post_extract_content _ _ _ | post_analyze _ _
  | post_actions_log _ _ _ | post_generate_rules _ _ => true
  | _ => false
  end.

(** The environment: how every call settles. *)
Definition World : Type := forall c : call, result (resp c).

(** ** Handlers as resumption trees *)

(** [console.warn] and [console.error]. *)
Inductive level : Type := warn | error.

(** A handler that still has to run: it returns, writes a state cell through
    its setter, awaits a call (the continuation receives the settlement, so
    that a [try]/[catch] around the [await] is the case analysis on it),
    issues a call without awaiting it, or writes to the console. *)
Inductive proc (A : Type) : Type :=
| Ret (a : A)
| SetState (f : State -> State) (k : proc A)
| Await (c : call) (k : result (resp c) -> proc A)
| Spawn (c : call) (k : proc A)
| Console (l : level) (k : proc A).
Arguments Ret {A} a.
Arguments SetState {A} f k.
Arguments Await {A} c k.
Arguments Spawn {A} c k.
Arguments Console {A} l k.

Fixpoint bind {A B : Type} (p : proc A) (f : A -> proc B) : proc B :=
  match p with
  | Ret a => f a
  | SetState g k => SetState g (bind k f)
  | Await c k => Await c (fun r => bind (k r) f)
  | Spawn c k => Spawn c (bind k f)
  | Console l k => Console l (bind k f)
  end.

(** What an observer of a run sees. *)
Inductive event : Type :=
| EvCall (c : call)
| EvSpawn (c : call)
| EvConsole (l : level)
| EvCancel (pending : call).

(** [run W cancel_at p n st] runs [p] from state [st].  [n] counts the
    suspension points passed so far; while the handler is suspended at the
    [n]-th one, [resetOrganize] runs when [cancel_at n] holds (the event
    names the call that is pending at that moment), and then the awaited call
    settles as [W] says.  The result is the handler's value, the
    number of suspension points passed, the final state and the events in
    the order they happened. *)
Fixpoint run {A : Type} (W : World) (cancel_at : nat -> bool) (p : proc A)
    (n : nat) (st : State) : A * nat * State * list event :=
  match p with
  | Ret a => (a, n, st, [])
  | SetState f k => run W cancel_at k n (f st)
  | Await c k =>
      let st' := if cancel_at n then resetOrganize st else st in
      let evs := if cancel_at n then [EvCall c; EvCancel c] else [EvCall c] in
      let '(a, n', fin, tr) := run W cancel_at (k (W c)) (S n) st' in
      (a, n', fin, evs ++ tr)
  | Spawn c k =>
      let '(a, n', fin, tr) := run W cancel_at k n st in
      (a, n', fin, EvSpawn c :: tr)
  | Console l k =>
      let '(a, n', fin, tr) := run W cancel_at k n st in
      (a, n', fin, EvConsole l :: tr)
  end.

(** A run in which the user does not cancel. *)
Definition never : nat -> bool := fun _ => false.

Definition final {A : Type} (r : A * nat * State * list event) : State :=
  snd (fst r).

Definition trace {A : Type} (r : A * nat * State * list event) : list event :=
  snd r.

Definition value {A : Type} (r : A * nat * State * list event) : A :=
  fst (fst (fst r)).

(** [files.length] as the number the comparisons see. *)
Definition len {A : Type} (l : list A) : Z := Z.of_nat (length l).

Definition bearer (token : string) : string := "Bearer " +:+ token.

(** ** [handleStartOrganize] *)

(** The handler's [catch] clause. *)
Definition start_failed (e : js_error) : proc unit :=
  SetState (setOrganizeStatus ("❌ Ошибка: " +:+ error_text e))
    (SetState (setOrganizeStep idle) (Ret tt)).

(** Step 2: the existing folders, when the option is on; a failure of the
    scan is logged and leaves the list empty. *)
Definition scan_existing (s : State) (files : list ScannedFile.t) :
    proc (list ExistingFolder.t) :=
  if useExistingFolders s then
    Await (scan_existing_folders (selectedFolder s)) (fun r =>
      match r with
      | Rejected _ => Console warn (Ret [])
      | Fulfilled existingFolders =>
          SetState
            (setOrganizeStatus
               ("Найдено " +:+ string_of_nat (length files) +:+ " файлов, "
                +:+ string_of_nat (length existingFolders)
                +:+ " папок. AI анализ..."))
            (Ret existingFolders)
      end)
  else Ret [].

(** [files.map(f => ({ ..., content_preview: '', ... }))] *)
Definition to_api (f : ScannedFile.t) : ApiFile.t :=
  ApiFile.mk (ScannedFile.filename f) (ScannedFile.extension f)
    (ScannedFile.size_bytes f) "" (ScannedFile.path f).

(** [filesForApi[fileIdx].content_preview = v] on the element. *)
Definition set_content_preview (v : string) (a : ApiFile.t) : ApiFile.t :=
  ApiFile.mk (ApiFile.filename a) (ApiFile.extension a)
    (ApiFile.size_bytes a) v (ApiFile.path a).

Definition batchSize : nat := 5.

(** The callback given to [batch.map]: read at most 50000 bytes, have the
    service extract a preview, store it.  Everything thrown is caught and
    logged. *)
Definition extract_one (accessToken : option string) (fileIdx : nat)
    (file : ScannedFile.t) (filesForApi : list ApiFile.t) :
    proc (list ApiFile.t) :=
  Await (read_file_content fileIdx (ScannedFile.path file) 50000) (fun r =>
    match r with
    | Rejected _ => Console warn (Ret filesForApi)
    | Fulfilled content =>
        if (0 <? len content)%Z then
          Await
            (post_extract_content fileIdx (bearer (or_empty accessToken))
               (ExtractRequest.mk (btoa content) (ScannedFile.extension file)
                  (ScannedFile.filename file)))
            (fun r =>
               match r with
               | Rejected _ => Console warn (Ret filesForApi)
               | Fulfilled extractResponse =>
                   let preview :=
                     ExtractData.content_preview (Response.data extractResponse) in
                   if Response.ok extractResponse && truthy preview then
                     Ret (alter (set_content_preview preview) fileIdx filesForApi)
                   else Ret filesForApi
               end)
        else Ret filesForApi
    end).

(** [batch.map(async (file, batchIdx) => ...)]: one callback per file of the
    window, for the cell [fileIdx = i + batchIdx]. *)
Definition window_tasks (i : nat) (batch : list ScannedFile.t) :
    list (nat * ScannedFile.t) :=
  imap (fun batchIdx file => (i + batchIdx, file)) batch.

(** [await Promise.all(...)] over callbacks that never reject: the window
    settles when every callback has finished.  A callback touches
    [filesForApi] once, as its last step, so the order in which the
    callbacks finish is the order of their writes.  They are taken here in
    the order of the list; [window_order] shows that any other order of the
    same callbacks yields the same list. *)
Fixpoint extract_tasks (accessToken : option string)
    (tasks : list (nat * ScannedFile.t)) (filesForApi : list ApiFile.t) :
    proc (list ApiFile.t) :=
  match tasks with
  | [] => Ret filesForApi
  | (fileIdx, file) :: rest =>
      bind (extract_one accessToken fileIdx file filesForApi)
        (fun filesForApi' => extract_tasks accessToken rest filesForApi')
  end.

(** [for (let i = 0; i < files.length; i += batchSize)], with the number of
    iterations still allowed as [fuel]. *)
Fixpoint extract_loop (fuel : nat) (accessToken : option string)
    (files : list ScannedFile.t) (i : nat) (filesForApi : list ApiFile.t) :
    proc (list ApiFile.t) :=
  match fuel with
  | O => Ret filesForApi
  | S fuel' =>
      if (i <? length files)%nat then
        bind
          (extract_tasks accessToken
             (window_tasks i (take batchSize (drop i files))) filesForApi)
          (fun filesForApi' =>
             SetState
               (setOrganizeStatus
                  ("Извлечение содержимого ("
                   +:+ string_of_nat (Nat.min (i + batchSize) (length files))
                   +:+ "/" +:+ string_of_nat (length files) +:+ ")..."))
               (extract_loop fuel' accessToken files (i + batchSize)
                  filesForApi'))
      else Ret filesForApi
  end.

(** Step 3: the content extraction stage.  The loop is given [length files]
    iterations, which it never exhausts ([extract_loop_fuel]). *)
Definition extract_content (s : State) (accessToken : option string)
    (files : list ScannedFile.t) : proc (list ApiFile.t) :=
  let filesForApi := map to_api files in
  if useContentExtraction s then
    SetState
      (setOrganizeStatus
         ("Извлечение содержимого (0/" +:+ string_of_nat (length files)
          +:+ ")..."))
      (bind (extract_loop (length files) accessToken files 0 filesForApi)
         (fun filesForApi' =>
            SetState
              (setOrganizeStatus
                 ("Анализ " +:+ string_of_nat (length files) +:+ " файлов..."))
              (Ret filesForApi')))
  else Ret filesForApi.

Definition analyze_request (s : State) (filesForApi : list ApiFile.t)
    (existingFolders : list ExistingFolder.t) : AnalyzeRequest.t :=
  AnalyzeRequest.mk filesForApi
    (map (fun f =>
            ExistingFolder.mk (ExistingFolder.folder_name f)
              (ExistingFolder.folder_path f) (ExistingFolder.sample_files f)
              (ExistingFolder.file_count f))
       existingFolders)
    (useExistingFolders s) (useGeminiNaming s) (useGeminiFull s)
    (customPrompt s) 3 15.

(** The status lines of the pre-flight checks. *)
Definition folder_empty : string := "❌ Папка пуста".

Definition too_many_files (n : nat) : string :=
  "❌ Слишком много файлов (" +:+ string_of_nat n +:+ "). Максимум 5000.".

Definition auth_required : string :=
  "❌ Требуется авторизация. Перезайдите в приложение.".

Definition session_expired : string :=
  "Сессия истекла. Перезайдите в Настройках → Выйти.".

(** What is done with the settled analysis request. *)
Definition analyzed (r : result (Response.t OrganizeResult.t)) : proc unit :=
  match r with
  | Rejected e => start_failed e
  | Fulfilled response =>
      if negb (Response.ok response) then
        if (Response.status response =? 401)%Z then
          start_failed (ErrorObj session_expired)
        else
          start_failed
            (ErrorObj ("API error: " +:+ string_of_Z (Response.status response)))
      else
        let result := Response.data response in
        SetState (setOrganizeResult (Some result))
          (SetState (setOrganizeStep preview)
             (SetState
                (setOrganizeStatus
                   ("Готово: "
                    +:+ string_of_Z (OrganizeResult.total_folders result)
                    +:+ " папок"))
                (Ret tt)))
  end.

(** The analysis request. *)
Definition analyze (s : State) (accessToken : option string)
    (filesForApi : list ApiFile.t) (existingFolders : list ExistingFolder.t) :
    proc unit :=
  Await
    (post_analyze (bearer (or_empty accessToken))
       (analyze_request s filesForApi existingFolders))
    analyzed.

(** What follows the token lookup. *)
Definition after_token (s : State) (files : list ScannedFile.t)
    (accessToken : option string) : proc unit :=
  if negb (truthy_opt accessToken) then
    SetState (setOrganizeStatus auth_required)
      (SetState (setOrganizeStep idle) (Ret tt))
  else
    bind (scan_existing s files) (fun existingFolders =>
    bind (extract_content s accessToken files) (fun filesForApi =>
    analyze s accessToken filesForApi existingFolders)).

(** What follows the scan of the folder. *)
Definition after_scan (s : State) (files : list ScannedFile.t) : proc unit :=
  if (len files =? 0)%Z then
    SetState (setOrganizeStatus folder_empty)
      (SetState (setOrganizeStep idle) (Ret tt))
  else if (len files >? 5000)%Z then
    SetState (setOrganizeStatus (too_many_files (length files)))
      (SetState (setOrganizeStep idle) (Ret tt))
  else
    SetState (setScannedFiles files)
      (SetState
         (setOrganizeStatus
            ("Найдено " +:+ string_of_nat (length files)
             +:+ " файлов. AI анализ..."))
         (SetState (setOrganizeStep analyzing)
            (Await get_access_token (fun r =>
               match r with
               | Rejected e => start_failed e
               | Fulfilled accessToken => after_token s files accessToken
               end)))).

(** The handler, in the render whose state is [s]. *)
Definition handleStartOrganize (s : State) : proc unit :=
  if negb (truthy (selectedFolder s)) then Ret tt
  else
    SetState (setOrganizeStep scanning)
      (SetState (setOrganizeStatus "Сканирование папки...")
         (Await (scan_folder_for_organize (selectedFolder s)) (fun r =>
            match r with
            | Rejected e => start_failed e
            | Fulfilled files => after_scan s files
            end))).

(** ** [handleExecuteOrganize] *)

(** [scannedFiles.find(f => f.filename === filename)] *)
Definition find_scanned (scannedFiles : list ScannedFile.t) (filename : string) :
    option ScannedFile.t :=
  List.find (fun f => ScannedFile.filename f =? filename) scannedFiles.

(** [file?.path || ''] *)
Definition source_of (file : option ScannedFile.t) : string :=
  match file with
  | Some file => ScannedFile.path file
  | None => ""
  end.

(** The move actions: one candidate per file name of every folder, kept when
    its source path is truthy. *)
Definition build_moves (organizeResult : OrganizeResult.t)
    (scannedFiles : list ScannedFile.t) : list MoveOperation.t :=
  flat_map
    (fun folder =>
       List.filter (fun m => truthy (MoveOperation.source_path m))
         (map
            (fun filename =>
               MoveOperation.mk
                 (source_of (find_scanned scannedFiles filename))
                 (FolderSuggestion.folder_path folder) filename)
            (FolderSuggestion.files folder)))
    (OrganizeResult.folders organizeResult).

(** [folder.confidence || 0.9] *)
Definition confidence_or_default (confidence : option float) : float :=
  match confidence with
  | Some c => if truthy_num c then c else 0.9%float
  | None => 0.9%float
  end.

(** The handler's [catch] clause. *)
Definition execute_failed (e : js_error) : proc unit :=
  SetState (setOrganizeStatus ("❌ Ошибка: " +:+ error_text e))
    (SetState (setOrganizeStep preview) (Ret tt)).

(** The body of the inner logging loop for one file name; [selectedFolder]
    and [scannedFiles] are the values the handler's closure holds. *)
Definition log_one (selectedFolder : string)
    (scannedFiles : list ScannedFile.t) (accessToken : string)
    (folder : FolderSuggestion.t) (pos : nat * nat) (filename : string) :
    proc unit :=
  match find_scanned scannedFiles filename with
  | Some file =>
      Await
        (post_actions_log pos (bearer accessToken)
           (LogRequest.mk (ScannedFile.filename file) (ScannedFile.path file)
              (selectedFolder +:+ "\"
               +:+ FolderSuggestion.folder_path folder +:+ "\" +:+ filename)
              (confidence_or_default (FolderSuggestion.confidence folder))))
        (fun r =>
           match r with
           | Rejected _ => Console warn (Ret tt)
           | Fulfilled _ => Ret tt
           end)
  | None => Ret tt
  end.

(** [for (const filename of folder.files)] *)
Fixpoint log_files (selectedFolder : string)
    (scannedFiles : list ScannedFile.t) (accessToken : string)
    (folder : FolderSuggestion.t) (folderIdx fileIdx : nat)
    (filenames : list string) : proc unit :=
  match filenames with
  | [] => Ret tt
  | filename :: rest =>
      bind
        (log_one selectedFolder scannedFiles accessToken folder
           (folderIdx, fileIdx) filename)
        (fun _ =>
           log_files selectedFolder scannedFiles accessToken folder folderIdx
             (S fileIdx) rest)
  end.

(** [for (const folder of organizeResult.folders)] *)
Fixpoint log_folders (selectedFolder : string)
    (scannedFiles : list ScannedFile.t) (accessToken : string)
    (folderIdx : nat) (folders : list FolderSuggestion.t) : proc unit :=
  match folders with
  | [] => Ret tt
  | folder :: rest =>
      bind
        (log_files selectedFolder scannedFiles accessToken folder folderIdx 0
           (FolderSuggestion.files folder))
        (fun _ =>
           log_folders selectedFolder scannedFiles accessToken (S folderIdx)
             rest)
  end.

(** The two summaries shown in the done step. *)
Definition moved_summary (result : MoveResult.t) : string :=
  "✅ Перемещено " +:+ string_of_Z (MoveResult.moved_count result)
  +:+ " файлов!".

Definition failed_summary (result : MoveResult.t) : string :=
  "⚠️ Перемещено " +:+ string_of_Z (MoveResult.moved_count result)
  +:+ ", ошибок: " +:+ string_of_nat (length (MoveResult.errors result)).

(** What follows the answer of [execute_file_moves].  [loadRecentActions()]
    is called without [await]: its request leaves now, its answer only
    touches [recentActions] and [loading]. *)
Definition after_moves (selectedFolder : string)
    (scannedFiles : list ScannedFile.t) (organizeResult : OrganizeResult.t)
    (result : MoveResult.t) : proc unit :=
  if MoveResult.success result || (MoveResult.moved_count result >? 0)%Z then
    Await get_access_token (fun r =>
      match r with
      | Rejected e => execute_failed e
      | Fulfilled accessToken =>
          bind
            (if truthy_opt accessToken then
               bind
                 (log_folders selectedFolder scannedFiles
                    (or_empty accessToken) 0
                    (OrganizeResult.folders organizeResult))
                 (fun _ => Spawn get_recent_actions (Ret tt))
             else Ret tt)
            (fun _ =>
               SetState (setOrganizeStatus (moved_summary result))
                 (SetState (setOrganizeStep done) (Ret tt)))
      end)
  else
    SetState (setOrganizeStatus (failed_summary result))
      (SetState (setOrganizeStep done) (Ret tt)).

(** The handler, in the render whose state is [s]. *)
Definition handleExecuteOrganize (s : State) : proc unit :=
  match organizeResult s with
  | None => Ret tt
  | Some result =>
      if negb (truthy (selectedFolder s)) then Ret tt
      else
        SetState (setOrganizeStep executing)
          (SetState (setOrganizeStatus "Перемещение файлов...")
             (Await
                (execute_file_moves (selectedFolder s)
                   (build_moves result (scannedFiles s)) true)
                (fun r =>
                   match r with
                   | Rejected e => execute_failed e
                   | Fulfilled moved =>
                       after_moves (selectedFolder s) (scannedFiles s) result
                         moved
                   end)))
  end.

(** ** [handleGenerateRules] *)

(** [{ ...r, selected: true }] *)
Definition select (r : SuggestedRule.t) : SuggestedRule.t :=
  SuggestedRule.mk (SuggestedRule.rule_type r) (SuggestedRule.pattern r)
    (SuggestedRule.target_folder r) (SuggestedRule.file_count r)
    (SuggestedRule.confidence r) (SuggestedRule.description r) (Some true).

Definition no_pattern_found : string := "Не удалось найти паттерны для правил".

Definition rules_request (s : State) (organizeResult : OrganizeResult.t) :
    RulesRequest.t :=
  RulesRequest.mk
    (map
       (fun f =>
          FolderSuggestion.mk (FolderSuggestion.folder_path f)
            (FolderSuggestion.folder_name f) (FolderSuggestion.files f)
            (FolderSuggestion.reason f) (FolderSuggestion.confidence f)
            (FolderSuggestion.file_count f))
       (OrganizeResult.folders organizeResult))
    (selectedFolder s).

Definition handleGenerateRules (s : State) : proc unit :=
  match organizeResult s with
  | None => Ret tt
  | Some result =>
      Await get_access_token (fun r =>
        match r with
        | Rejected _ => Console error (Ret tt)
        | Fulfilled accessToken =>
            Await
              (post_generate_rules (bearer (or_empty accessToken))
                 (rules_request s result))
              (fun r =>
                 match r with
                 | Rejected _ => Console error (Ret tt)
                 | Fulfilled response =>
                     let rules := RulesData.rules (Response.data response) in
                     if Response.ok response && (len rules >? 0)%Z then
                       SetState (setSuggestedRules (map select rules))
                         (SetState (setShowRulesModal true) (Ret tt))
                     else SetState (setOrganizeStatus no_pattern_found) (Ret tt)
                 end)
        end)
  end.

(** ** Concrete sessions

    A folder with [a.pdf], [b.jpg] and [c.txt], a clustering into [Docs] and
    [Images], and environments assembled from one answer per operation. *)

Module Sample.

Record Answers : Type := mkAnswers {
  scan : result (list ScannedFile.t);
  token : result (option string);
  existing : result (list ExistingFolder.t);
  read : nat -> result (list byte);
  extract : nat -> result (Response.t ExtractData.t);
  analysis : result (Response.t OrganizeResult.t);
  moving : list MoveOperation.t -> result MoveResult.t;
  logging : nat * nat -> result (Response.t unit);
  rules : result (Response.t RulesData.t)
}.

Definition world (a : Answers) : World :=
  fun c =>
    match c as c0 return result (resp c0) with
    | scan_folder_for_organize _ => scan a
    | get_access_token => token a
    | scan_existing_folders _ => existing a
    | read_file_content fileIdx _ _ => read a fileIdx
    | execute_file_moves _ moves _ => moving a moves
    | get_recent_actions => Fulfilled tt
    | post_extract_content fileIdx _ _ => extract a fileIdx
    | post_analyze _ _ => analysis a
    | post_actions_log pos _ _ => logging a pos
    | post_generate_rules _ _ => rules a
    end.

Definition a_pdf : ScannedFile.t :=
  ScannedFile.mk "a.pdf" "pdf" 1200 "C:\in\a.pdf" None.
Definition b_jpg : ScannedFile.t :=
  ScannedFile.mk "b.jpg" "jpg" 52000 "C:\in\b.jpg" None.
Definition c_txt : ScannedFile.t :=
  ScannedFile.mk "c.txt" "txt" 12 "C:\in\c.txt" None.

Definition files : list ScannedFile.t := [a_pdf; b_jpg; c_txt].

Definition docs : FolderSuggestion.t :=
  FolderSuggestion.mk "Docs" "Docs" ["a.pdf"; "c.txt"] "documents"
    (Some 0.75%float) 2.
Definition images : FolderSuggestion.t :=
  FolderSuggestion.mk "Images" "Images" ["b.jpg"] "pictures" None 1.

Definition clustering : OrganizeResult.t :=
  OrganizeResult.mk [docs; images] 3 2 "kmeans" "gemini".

(** A clustering that also names [d.txt], which was never scanned. *)
Definition docs_d : FolderSuggestion.t :=
  FolderSuggestion.mk "Docs" "Docs" ["a.pdf"; "d.txt"; "c.txt"] "documents"
    (Some 0.75%float) 3.
Definition clustering_d : OrganizeResult.t :=
  OrganizeResult.mk [docs_d; images] 4 2 "kmeans" "gemini".

(** A suggestion whose confidence is the number zero. *)
Definition docs_zero : FolderSuggestion.t :=
  FolderSuggestion.mk "Docs" "Docs" ["a.pdf"] "documents" (Some 0%float) 1.
Definition clustering_zero : OrganizeResult.t :=
  OrganizeResult.mk [docs_zero] 1 1 "kmeans" "gemini".

(** The same beside the [Images] suggestion, which has none. *)
Definition clustering_zero_images : OrganizeResult.t :=
  OrganizeResult.mk [docs_zero; images] 2 2 "kmeans" "gemini".

Definition all_moved (moves : list MoveOperation.t) : result MoveResult.t :=
  Fulfilled (MoveResult.mk true (len moves) []).

Definition rule_pdf : SuggestedRule.t :=
  SuggestedRule.mk "extension" "*.pdf" "Docs" 1 0.5%float "PDF files" None.

(** Everything answers and succeeds; the second file cannot be read and the
    preview of the third is refused by the service. *)
Definition fine : Answers :=
  {| scan := Fulfilled files;
     token := Fulfilled (Some "tok");
     existing := Fulfilled [];
     read := fun i =>
       match i with
       | 1 => Rejected (Thrown "access denied")
       | _ => Fulfilled ["h"%byte; "i"%byte]
       end;
     extract := fun i =>
       match i with
       | 2 => Fulfilled (Response.mk false 500 (ExtractData.mk "oops"))
       | _ => Fulfilled (Response.mk true 200 (ExtractData.mk "invoice"))
       end;
     analysis := Fulfilled (Response.mk true 200 clustering);
     moving := all_moved;
     logging := fun _ => Fulfilled (Response.mk true 200 tt);
     rules := Fulfilled (Response.mk true 200 (RulesData.mk [rule_pdf] 1)) |}.

Definition with_scan (v : result (list ScannedFile.t)) (a : Answers) : Answers :=
  mkAnswers v (token a) (existing a) (read a) (extract a) (analysis a)
    (moving a) (logging a) (rules a).

Definition with_token (v : result (option string)) (a : Answers) : Answers :=
  mkAnswers (scan a) v (existing a) (read a) (extract a) (analysis a)
    (moving a) (logging a) (rules a).

Definition with_analysis (v : result (Response.t OrganizeResult.t))
    (a : Answers) : Answers :=
  mkAnswers (scan a) (token a) (existing a) (read a) (extract a) v
    (moving a) (logging a) (rules a).

Definition with_moving (v : list MoveOperation.t -> result MoveResult.t)
    (a : Answers) : Answers :=
  mkAnswers (scan a) (token a) (existing a) (read a) (extract a) (analysis a)
    v (logging a) (rules a).

Definition with_logging (v : nat * nat -> result (Response.t unit))
    (a : Answers) : Answers :=
  mkAnswers (scan a) (token a) (existing a) (read a) (extract a) (analysis a)
    (moving a) v (rules a).

Definition with_rules (v : result (Response.t RulesData.t)) (a : Answers) :
    Answers :=
  mkAnswers (scan a) (token a) (existing a) (read a) (extract a) (analysis a)
    (moving a) (logging a) v.

(** The user has opened the card and picked the folder. *)
Definition picked : State :=
  setSelectedFolder "C:\in" (setShowAutoOrganize true initialState).

(** The same with content extraction switched on. *)
Definition picked_extracting : State :=
  mkState true "C:\in" idle "" [] None true false true true "" [] false.

(** The session as the preview shows it. *)
Definition previewing (r : OrganizeResult.t) : State :=
  setOrganizeStep preview
    (setOrganizeResult (Some r) (setScannedFiles files picked)).

(** The session after a completed execution. *)
Definition finished (r : OrganizeResult.t) : State :=
  setOrganizeStep done (previewing r).

End Sample.

(** ** Observations on runs *)

(** The calls that left the component, in order. *)
Fixpoint calls (tr : list event) : list call :=
  match tr with
  | [] => []
  | EvCall c :: tr' => c :: calls tr'
  | EvSpawn c :: tr' => c :: calls tr'
  | _ :: tr' => calls tr'
  end.

Definition remote_calls (tr : list event) : list call :=
  List.filter is_remote (calls tr).

Definition is_cancel (ev : event) : bool :=
  match ev with
  | EvCancel _ => true
  | _ => false
  end.

(** Did the user cancel during the run? *)
Definition cancelled (tr : list event) : bool := existsb is_cancel tr.

(** The calls of the extraction and analysis stages of [handleStartOrganize]:
    the reads and extraction requests of the batches and the analysis
    request. *)
Definition in_flight_stage (c : call) : bool :=
  match c with
  | read_file_content _ _ _ | post_extract_content _ _ _ | post_analyze _ _ =>
      true
  | _ => false
  end.

Definition is_scan (c : call) : bool :=
  match c with
  | scan_folder_for_organize _ => true
  | _ => false
  end.

Definition is_analyze (c : call) : bool :=
  match c with
  | post_analyze _ _ => true
  | _ => false
  end.

Definition is_move (c : call) : bool :=
  match c with
  | execute_file_moves _ _ _ => true
  | _ => false
  end.

Definition is_log (c : call) : bool :=
  match c with
  | post_actions_log _ _ _ => true
  | _ => false
  end.

(** The session without its status line. *)
Definition but_status (st : State) : State := setOrganizeStatus "" st.

(** A bound on what a handler fragment does: every cell write satisfies [P],
    every call satisfies [Q]. *)
Inductive within {A : Type} (P : (State -> State) -> Prop) (Q : call -> Prop) :
    proc A -> Prop :=
| within_Ret (a : A) : within P Q (Ret a)
| within_SetState (f : State -> State) (k : proc A) :
    P f -> within P Q k -> within P Q (SetState f k)
| within_Await (c : call) (k : result (resp c) -> proc A) :
    Q c -> (forall r, within P Q (k r)) -> within P Q (Await c k)
| within_Spawn (c : call) (k : proc A) :
    Q c -> within P Q k -> within P Q (Spawn c k)
| within_Console (l : level) (k : proc A) :
    within P Q k -> within P Q (Console l k).

(** The only cell written is the status line. *)
Definition status_write (f : State -> State) : Prop :=
  exists v, forall st, f st = setOrganizeStatus v st.

Definition event_call (Q : call -> Prop) (ev : event) : Prop :=
  match ev with
  | EvCall c | EvSpawn c | EvCancel c => Q c
  | EvConsole _ => True
  end.

(** ** The extraction stage, file by file *)

(** The iteration a call belongs to. *)
Definition task_of (c : call) : option nat :=
  match c with
  | read_file_content i _ _ | post_extract_content i _ _ => Some i
  | _ => None
  end.

(** The extraction of the file at position [fileIdx] succeeds with [preview]:
    the read is fulfilled with some bytes, and the service answers the
    request for them with success and a non-empty preview. *)
Definition extraction_succeeds (W : World) (accessToken : option string)
    (fileIdx : nat) (file : ScannedFile.t) (preview : string) : Prop :=
  exists content response,
    W (read_file_content fileIdx (ScannedFile.path file) 50000)
    = Fulfilled content /\
    content <> [] /\
    W (post_extract_content fileIdx (bearer (or_empty accessToken))
         (ExtractRequest.mk (btoa content) (ScannedFile.extension file)
            (ScannedFile.filename file)))
    = Fulfilled response /\
    Response.ok response = true /\
    ExtractData.content_preview (Response.data response) = preview /\
    preview <> "".

(** The preview the environment has for a file, empty when its extraction
    fails at any point. *)
Definition extracted (W : World) (accessToken : option string) (fileIdx : nat)
    (file : ScannedFile.t) : string :=
  match W (read_file_content fileIdx (ScannedFile.path file) 50000) with
  | Rejected _ => ""
  | Fulfilled content =>
      if (0 <? len content)%Z then
        match
          W (post_extract_content fileIdx (bearer (or_empty accessToken))
               (ExtractRequest.mk (btoa content) (ScannedFile.extension file)
                  (ScannedFile.filename file)))
        with
        | Rejected _ => ""
        | Fulfilled response =>
            if Response.ok response
               && truthy (ExtractData.content_preview (Response.data response))
            then ExtractData.content_preview (Response.data response)
            else ""
        end
      else ""
  end.

(** What a finished callback leaves in [filesForApi]. *)
Definition store (W : World) (accessToken : option string)
    (filesForApi : list ApiFile.t) (task : nat * ScannedFile.t) :
    list ApiFile.t :=
  if truthy (extracted W accessToken task.1 task.2) then
    alter (set_content_preview (extracted W accessToken task.1 task.2)) task.1
      filesForApi
  else filesForApi.

(** [filesForApi] when the files before position [m] have been processed. *)
Definition upto (W : World) (accessToken : option string)
    (files : list ScannedFile.t) (m : nat) : list ApiFile.t :=
  imap
    (fun j f =>
       if (j <? m)%nat then
         set_content_preview (extracted W accessToken j f) (to_api f)
       else to_api f)
    files.

(** ** The move construction, pair by pair *)

(** A file name resolves when a scanned file carries it and the path of the
    first such file is not empty. *)
Definition resolve (scannedFiles : list ScannedFile.t) (filename : string) :
    option string :=
  match find_scanned scannedFiles filename with
  | Some file =>
      if truthy (ScannedFile.path file) then Some (ScannedFile.path file)
      else None
  | None => None
  end.

(** One operation for every (folder, file name) pair that resolves. *)
Definition resolved_moves (organizeResult : OrganizeResult.t)
    (scannedFiles : list ScannedFile.t) : list MoveOperation.t :=
  flat_map
    (fun folder =>
       flat_map
         (fun filename =>
            match resolve scannedFiles filename with
            | Some source =>
                [MoveOperation.mk source (FolderSuggestion.folder_path folder)
                   filename]
            | None => []
            end)
         (FolderSuggestion.files folder))
    (OrganizeResult.folders organizeResult).

(** The clustering with the pairs that do not resolve taken out. *)
Definition prune (scannedFiles : list ScannedFile.t)
    (organizeResult : OrganizeResult.t) : OrganizeResult.t :=
  OrganizeResult.mk
    (map
       (fun folder =>
          FolderSuggestion.mk (FolderSuggestion.folder_path folder)
            (FolderSuggestion.folder_name folder)
            (List.filter
               (fun filename =>
                  match resolve scannedFiles filename with
                  | Some _ => true
                  | None => false
                  end)
               (FolderSuggestion.files folder))
            (FolderSuggestion.reason folder)
            (FolderSuggestion.confidence folder)
            (FolderSuggestion.file_count folder))
       (OrganizeResult.folders organizeResult))
    (OrganizeResult.total_files organizeResult)
    (OrganizeResult.total_folders organizeResult)
    (OrganizeResult.clustering_method organizeResult)
    (OrganizeResult.naming_method organizeResult).

(** ** The history log, as the specification words it *)

(** The confidence of a suggestion, [0.9] when the suggestion omits it. *)
Definition declared_confidence (confidence : option float) : float :=
  match confidence with
  | Some c => c
  | None => 0.9%float
  end.

(** A confidence the two readings agree on: omitted, or a number that is
    neither zero nor [NaN]. *)
Definition plain_confidence (folder : FolderSuggestion.t) : Prop :=
  match FolderSuggestion.confidence folder with
  | Some c => truthy_num c = true
  | None => True
  end.

(** The record of one (folder, file name) pair: file name, source path,
    destination path and confidence, when a scanned file carries the name.
    [sent] is the rule that gives the confidence field from what the
    suggestion carries. *)
Definition history_record (selectedFolder : string)
    (scannedFiles : list ScannedFile.t) (accessToken : string)
    (sent : option float -> float) (folder : FolderSuggestion.t)
    (pos : nat * nat) (filename : string) : list call :=
  match find_scanned scannedFiles filename with
  | Some file =>
      [post_actions_log pos (bearer accessToken)
         (LogRequest.mk (ScannedFile.filename file) (ScannedFile.path file)
            (selectedFolder +:+ "\"
             +:+ FolderSuggestion.folder_path folder +:+ "\" +:+ filename)
            (sent (FolderSuggestion.confidence folder)))]
  | None => []
  end.

(** One record for every file name of every folder for which a scanned file
    exists. *)
Definition history_records (selectedFolder : string)
    (scannedFiles : list ScannedFile.t) (accessToken : string)
    (sent : option float -> float) (organizeResult : OrganizeResult.t) :
    list call :=
  concat
    (imap
       (fun folderIdx folder =>
          concat
            (imap
               (fun fileIdx filename =>
                  history_record selectedFolder scannedFiles accessToken sent
                    folder (folderIdx, fileIdx) filename)
               (FolderSuggestion.files folder)))
       (OrganizeResult.folders organizeResult)).

(** The calls [after_moves] may issue. *)
Definition after_moves_call (c : call) : Prop :=
  c = get_access_token \/ is_log c = true \/ c = get_recent_actions.

Definition no_write (f : State -> State) : Prop := False.

Definition logs_only (c : call) : Prop := is_log c = true.

Definition not_analyze (c : call) : Prop := is_analyze c = false.

Definition log_calls (tr : list event) : list call :=
  List.filter is_log (calls tr).

(** ** Statements of the specification that the code does not meet *)

(** Without a token: idle, authentication required, neither a scan nor an
    analysis call. *)
Definition tokenless_start_is_silent (W : World) (s : State) : Prop :=
  let r := run W never (handleStartOrganize s) 0 s in
  (exists t, W get_access_token = Fulfilled t /\ truthy_opt t = false) ->
  organizeStep (final r) = idle /\
  organizeStatus (final r) = auth_required /\
  List.filter is_scan (calls (trace r)) = [] /\
  List.filter is_analyze (calls (trace r)) = [].

(** After a 401 from the analysis: idle, session expired, scanned files
    emptied. *)
Definition unauthorized_discards_files (W : World) (s : State) : Prop :=
  let r := run W never (handleStartOrganize s) 0 s in
  forall authorization body response,
    In (EvCall (post_analyze authorization body)) (trace r) ->
    W (post_analyze authorization body) = Fulfilled response ->
    Response.ok response = false ->
    Response.status response = 401%Z ->
    organizeStep (final r) = idle /\
    organizeStatus (final r) = "❌ Ошибка: " +:+ session_expired /\
    scannedFiles (final r) = [].

(** One history record for every suggested file name that was scanned. *)
Definition logs_every_scanned_file (W : World) (s : State) : Prop :=
  let r := run W never (handleExecuteOrganize s) 0 s in
  forall plan folder filename file,
    organizeResult s = Some plan ->
    In folder (OrganizeResult.folders plan) ->
    In filename (FolderSuggestion.files folder) ->
    find_scanned (scannedFiles s) filename = Some file ->
    exists pos authorization body,
      In (post_actions_log pos authorization body) (log_calls (trace r)) /\
      LogRequest.filename body = filename.

(** ** Further observations of the handlers *)

(** The bearer header of a remote call. *)
Definition authorization (c : call) : option string :=
  match c with
  | post_extract_content _ a _ | post_analyze a _ | post_actions_log _ a _
  | post_generate_rules a _ => Some a
  | _ => None
  end.

(** The existing folders the analysis request carries. *)
Definition existing_hint (W : World) (s : State) : list ExistingFolder.t :=
  if useExistingFolders s then
    match W (scan_existing_folders (selectedFolder s)) with
    | Fulfilled folders => folders
    | Rejected _ => []
    end
  else [].

(** The calls of the two stages between the token and the analysis. *)
Definition preparing_call (s : State) (t : option string) (c : call) : Prop :=
  match c with
  | scan_existing_folders p => p = selectedFolder s
  | read_file_content _ _ m => m = 50000%Z
  | post_extract_content _ a _ => a = bearer (or_empty t)
  | _ => False
  end.

(** The calls one extraction callback issues: the read, capped at 50000
    bytes, and the extraction request when the read returned some bytes. *)
Definition task_calls (W : World) (accessToken : option string)
    (fileIdx : nat) (file : ScannedFile.t) : list call :=
  read_file_content fileIdx (ScannedFile.path file) 50000
  :: match W (read_file_content fileIdx (ScannedFile.path file) 50000) with
     | Fulfilled content =>
         if (0 <? len content)%Z then
           [post_extract_content fileIdx (bearer (or_empty accessToken))
              (ExtractRequest.mk (btoa content) (ScannedFile.extension file)
                 (ScannedFile.filename file))]
         else []
     | Rejected _ => []
     end.

Definition is_read (c : call) : bool :=
  match c with
  | read_file_content _ _ _ => true
  | _ => false
  end.

(** The first scanned file carrying a name. *)
Definition first_named (scanned : list ScannedFile.t) (filename : string)
    (file : ScannedFile.t) : Prop :=
  exists before after,
    scanned = before ++ file :: after /\
    ScannedFile.filename file = filename /\
    Forall (fun f => ScannedFile.filename f <> filename) before.

(** The option cells of the card. *)
Definition options (st : State) : bool * bool * bool * bool * string :=
  (useGeminiNaming st, useGeminiFull st, useExistingFolders st,
   useContentExtraction st, customPrompt st).

(** The cells of the card that only the user and [resetOrganize] write
    while a session runs. *)
Definition surroundings (st : State) :
    bool * string * list SuggestedRule.t * bool :=
  (showAutoOrganize st, selectedFolder st, suggestedRules st,
   showRulesModal st).

(** The cells of the session. *)
Definition session (st : State) :
    bool * string * OrganizeStep * list ScannedFile.t
    * option OrganizeResult.t :=
  (showAutoOrganize st, selectedFolder st, organizeStep st, scannedFiles st,
   organizeResult st).

(** A write that leaves an observation of the state as it is. *)
Definition keeps {B : Type} (proj : State -> B) (f : State -> State) : Prop :=
  forall st, proj (f st) = proj st.

(** ** The rules dialog *)

(** Truthiness of [r.selected], which may be absent. *)
Definition is_selected (r : SuggestedRule.t) : bool :=
  match SuggestedRule.selected r with
  | Some b => b
  | None => false
  end.

(** [{ ...r, selected: !r.selected }] *)
Definition toggle (r : SuggestedRule.t) : SuggestedRule.t :=
  SuggestedRule.mk (SuggestedRule.rule_type r) (SuggestedRule.pattern r)
    (SuggestedRule.target_folder r) (SuggestedRule.file_count r)
    (SuggestedRule.confidence r) (SuggestedRule.description r)
    (Some (negb (is_selected r))).

(** The checkbox of rule [idx]:
    [setSuggestedRules(prev => prev.map((r, i) => i === idx ? ... : r))]. *)
Definition toggleRule (idx : nat) (st : State) : State :=
  setSuggestedRules
    (imap (fun i r => if (i =? idx)%nat then toggle r else r)
       (suggestedRules st))
    st.

(** The dialog's cancel button. *)
Definition closeRules (st : State) : State := setShowRulesModal false st.

(** [suggestedRules.filter(r => r.selected)] *)
Definition selectedRules (st : State) : list SuggestedRule.t :=
  List.filter is_selected (suggestedRules st).

(** The dialog's save button (the selected rules are only written to the
    console). *)
Definition saveRules (st : State) : State :=
  setOrganizeStatus
    ("✅ Готово! Выбрано " +:+ string_of_nat (length (selectedRules st))
     +:+ " правил")
    (setShowRulesModal false st).

(** ** What the card renders *)

Inductive card : Type :=
| card_closed | card_preview | card_done | card_selection.

(** The branch of the card's conditional rendering. *)
Definition view (st : State) : card :=
  if negb (showAutoOrganize st) then card_closed
  else
    match organizeStep st, organizeResult st with
    | preview, Some _ => card_preview
    | done, _ => card_done
    | _, _ => card_selection
    end.

(** The buttons wired to the handlers of the workflow: cancel and done call
    [resetOrganize]. *)
Inductive button : Type :=
| btn_cancel | btn_analyze | btn_apply | btn_rules | btn_done.

Definition is_idle (step : OrganizeStep) : bool :=
  match step with
  | idle => true
  | _ => false
  end.

Definition rendered (st : State) (b : button) : bool :=
  match view st, b with
  | card_preview, (btn_cancel | btn_apply) => true
  | card_done, (btn_rules | btn_done) => true
  | card_selection, (btn_cancel | btn_analyze) => is_idle (organizeStep st)
  | _, _ => false
  end.

(** The analyze button is disabled without a folder. *)
Definition clickable (st : State) (b : button) : bool :=
  rendered st b
  && match b with
     | btn_analyze => truthy (selectedFolder st)
     | _ => true
     end.

(** The states in which a handler is suspended, with the call it awaits,
    when the user does not interfere. *)
Fixpoint pending {A : Type} (W : World) (p : proc A) (st : State) :
    list (call * State) :=
  match p with
  | Ret _ => []
  | SetState f k => pending W k (f st)
  | Await c k => (c, st) :: pending W (k (W c)) st
  | Spawn _ k => pending W k st
  | Console _ k => pending W k st
  end.

(** ** Cancellation, as the card offers it *)

(** [resetOrganize] is wired to the cancel and done buttons only, so the
    user can cancel at a suspension only when the card, as rendered from the
    cells of that moment, shows one of them.  [offered] tells whether a
    schedule cancels at such suspensions only. *)
Fixpoint offered {A : Type} (W : World) (cancel_at : nat -> bool) (p : proc A)
    (n : nat) (st : State) : bool :=
  match p with
  | Ret _ => true
  | SetState f k => offered W cancel_at k n (f st)
  | Await c k =>
      implb (cancel_at n) (rendered st btn_cancel || rendered st btn_done)
      && offered W cancel_at (k (W c)) (S n)
           (if cancel_at n then resetOrganize st else st)
  | Spawn _ k => offered W cancel_at k n st
  | Console _ k => offered W cancel_at k n st
  end.



(** The stale-result guard over the start handler alone, under any
    schedule, offered or not: a cancellation while a call of the analysis or
    extraction stage is pending leaves step, result and scanned files as
    [resetOrganize] set them. *)
Definition stale_result_guard (W : World) (cancel_at : nat -> bool) (s : State) :
    Prop :=
  let r := run W cancel_at (handleStartOrganize s) 0 s in
  forall c,
    in_flight_stage c = true ->
    In (EvCancel c) (trace r) ->
    organizeStep (final r) = organizeStep (resetOrganize s) /\
    organizeResult (final r) = organizeResult (resetOrganize s) /\
    scannedFiles (final r) = scannedFiles (resetOrganize s).

(** * The shell around the dashboard: [App.tsx], [Login.tsx], [Settings.tsx]

    The three components keep their own cells; [App] hands its handlers to
    the other two as callbacks, so their handlers run over the cells of all
    three.  Unlike the organize handlers, these let a rejected call escape
    ([handleLogin], [handleLogout]) or catch it ([try]/[catch]/[finally]),
    so a handler settles with a [result].  [App] shows one screen at a time
    ([screen_of]); the writes of [Login]'s handler are dropped once the
    login screen is gone ([in_login]), which its own chain brings about
    whenever the login succeeds. *)

Module Shell.

Module AppStatus.
Record t : Type := mk {
  is_paused : bool;
  files_today : Z;
  is_logged_in : bool;
  watched_folders : list string
}.
End AppStatus.

Module Config.
Record t : Type := mk {
  api_url : string;
  dashboard_url : string;
  watched_folders : list string;
  show_notifications : bool;
  start_on_boot : bool;
  processing_delay_seconds : Z
}.

(** [{ ...config, watched_folders: newFolders }] *)
Definition with_watched_folders (newFolders : list string) (config : t) : t :=
  mk (api_url config) (dashboard_url config) newFolders
    (show_notifications config) (start_on_boot config)
    (processing_delay_seconds config).

(** [{ ...config, show_notifications: v }] *)
Definition with_show_notifications (v : bool) (config : t) : t :=
  mk (api_url config) (dashboard_url config) (watched_folders config) v
    (start_on_boot config) (processing_delay_seconds config).

(** [{ ...config, start_on_boot: v }] *)
Definition with_start_on_boot (v : bool) (config : t) : t :=
  mk (api_url config) (dashboard_url config) (watched_folders config)
    (show_notifications config) v (processing_delay_seconds config).
End Config.

Inductive Tab : Type := dashboard | settings.

(** The cells of [App]. *)
Module App.
Record t : Type := mk {
  status : option AppStatus.t;
  activeTab : Tab;
  loading : bool
}.
Definition setStatus (v : option AppStatus.t) (a : t) : t :=
  mk v (activeTab a) (loading a).
Definition setLoading (v : bool) (a : t) : t :=
  mk (status a) (activeTab a) v.
End App.

(** The cells of [Login]. *)
Module Login.
Record t : Type := mk {
  email : string;
  password : string;
  error : string;
  loading : bool
}.
Definition setError (v : string) (l : t) : t :=
  mk (email l) (password l) v (loading l).
Definition setLoading (v : bool) (l : t) : t :=
  mk (email l) (password l) (error l) v.
End Login.

(** The cells of [Settings]. *)
Module Settings.
Record t : Type := mk {
  config : option Config.t;
  loading : bool;
  saving : bool
}.
Definition setConfig (v : option Config.t) (c : t) : t :=
  mk v (loading c) (saving c).
Definition setLoading (v : bool) (c : t) : t :=
  mk (config c) v (saving c).
Definition setSaving (v : bool) (c : t) : t :=
  mk (config c) (loading c) v.
End Settings.

Record Cells : Type := mkCells {
  app : App.t;
  login_form : Login.t;
  settings_tab : Settings.t
}.

(** What [App] renders. *)
Inductive screen : Type :=
| spinner
| login_screen
| main_screen (t : Tab).

(** [!status?.is_logged_in] *)
Definition logged_in (status : option AppStatus.t) : bool :=
  match status with
  | Some s => AppStatus.is_logged_in s
  | None => false
  end.

Definition screen_of (st : Cells) : screen :=
  if App.loading (app st) then spinner
  else if negb (logged_in (App.status (app st))) then login_screen
  else main_screen (App.activeTab (app st)).

Definition in_app (f : App.t -> App.t) (st : Cells) : Cells :=
  mkCells (f (app st)) (login_form st) (settings_tab st).

(** [App] mounts [Login] only while it shows the login screen, and a write
    to a cell of an unmounted component is dropped: a write of [Login]'s
    handler reaches its cell only while the login screen is shown. *)
Definition in_login (f : Login.t -> Login.t) (st : Cells) : Cells :=
  match screen_of st with
  | login_screen => mkCells (app st) (f (login_form st)) (settings_tab st)
  | _ => st
  end.

Definition in_settings (f : Settings.t -> Settings.t) (st : Cells) : Cells :=
  mkCells (app st) (login_form st) (f (settings_tab st)).

(** The commands of the backend ([invoke]), the browser ([open] of the
    shell API) and the folder dialog ([open] of the dialog API). *)
Inductive cmd : Type :=
| get_status
| login (email password : string)
| start_watching
| stop_watching
| logout
| toggle_pause
| open_dashboard
| shell_open (url : string)
| get_config
| save_config (config : Config.t)
| dialog_open.

(** The dialog answers with a path, or [null] when it is dismissed. *)
Definition reply (c : cmd) : Type :=
  match c with
  | get_status => AppStatus.t
  | open_dashboard => string
  | get_config => Config.t
  | dialog_open => option string
  | _ => unit
  end.

Definition Backend : Type := forall c : cmd, result (reply c).

(** An [async] function: it settles, writes a cell, awaits a command or
    writes to the console. *)
Inductive flow (A : Type) : Type :=
| Settle (r : result A)
| Write (f : Cells -> Cells) (k : flow A)
| Invoke (c : cmd) (k : result (reply c) -> flow A)
| ConsoleError (k : flow A).
Arguments Settle {A} r.
Arguments Write {A} f k.
Arguments Invoke {A} c k.
Arguments ConsoleError {A} k.

Definition ret {A : Type} (a : A) : flow A := Settle (Fulfilled a).

(** [await invoke(c)] *)
Definition invoke (c : cmd) : flow (reply c) := Invoke c Settle.

(** [const a = await p; f a]: a rejection of [p] escapes. *)
Fixpoint andThen {A B : Type} (p : flow A) (f : A -> flow B) : flow B :=
  match p with
  | Settle (Fulfilled a) => f a
  | Settle (Rejected e) => Settle (Rejected e)
  | Write g k => Write g (andThen k f)
  | Invoke c k => Invoke c (fun r => andThen (k r) f)
  | ConsoleError k => ConsoleError (andThen k f)
  end.

(** [try { p } catch (e) { h e }] *)
Fixpoint catch {A : Type} (p : flow A) (h : js_error -> flow A) : flow A :=
  match p with
  | Settle (Fulfilled a) => Settle (Fulfilled a)
  | Settle (Rejected e) => h e
  | Write g k => Write g (catch k h)
  | Invoke c k => Invoke c (fun r => catch (k r) h)
  | ConsoleError k => ConsoleError (catch k h)
  end.

(** [try { p } finally { q }] *)
Fixpoint finally {A : Type} (p : flow A) (q : flow unit) : flow A :=
  match p with
  | Settle r => andThen q (fun _ => Settle r)
  | Write g k => Write g (finally k q)
  | Invoke c k => Invoke c (fun r => finally (k r) q)
  | ConsoleError k => ConsoleError (finally k q)
  end.

(** A handler run to its end: how it settles, the cells, the commands. *)
Fixpoint perform {A : Type} (W : Backend) (p : flow A) (st : Cells) :
    result A * Cells * list cmd :=
  match p with
  | Settle r => (r, st, [])
  | Write f k => perform W k (f st)
  | Invoke c k =>
      let '(r, fin, tr) := perform W (k (W c)) st in
      (r, fin, c :: tr)
  | ConsoleError k => perform W k st
  end.

Definition outcome {A : Type} (r : result A * Cells * list cmd) : result A :=
  fst (fst r).
Definition after {A : Type} (r : result A * Cells * list cmd) : Cells :=
  snd (fst r).
Definition commands {A : Type} (r : result A * Cells * list cmd) : list cmd :=
  snd r.

(** ** [App] *)

Definition loadStatus : flow unit :=
  finally
    (catch
       (andThen (invoke get_status) (fun result =>
          Write (in_app (App.setStatus (Some result))) (ret tt)))
       (fun _ => ConsoleError (ret tt)))
    (Write (in_app (App.setLoading false)) (ret tt)).

Definition handleLogin (email password : string) : flow unit :=
  andThen (invoke (login email password)) (fun _ =>
  andThen loadStatus (fun _ =>
  invoke start_watching)).

Definition handleLogout : flow unit :=
  andThen (invoke stop_watching) (fun _ =>
  andThen (invoke logout) (fun _ =>
  loadStatus)).

Definition handleTogglePause : flow unit :=
  andThen (invoke toggle_pause) (fun _ => loadStatus).

Definition handleOpenDashboard : flow unit :=
  andThen (invoke open_dashboard) (fun url => invoke (shell_open url)).

(** ** [Login] *)

(** [err instanceof Error ? err.message : 'Ошибка входа'] *)
Definition login_error (err : js_error) : string :=
  match err with
  | ErrorObj message => message
  | Thrown _ => "Ошибка входа"
  end.

(** [handleSubmit], with [onLogin] bound to [handleLogin], in the render
    whose cells are [s]. *)
Definition handleSubmit (s : Cells) : flow unit :=
  Write (in_login (Login.setError ""))
    (Write (in_login (Login.setLoading true))
       (finally
          (catch
             (handleLogin (Login.email (login_form s))
                (Login.password (login_form s)))
             (fun err =>
                Write (in_login (Login.setError (login_error err))) (ret tt)))
          (Write (in_login (Login.setLoading false)) (ret tt)))).

(** ** [Settings] *)

Definition loadConfig : flow unit :=
  finally
    (catch
       (andThen (invoke get_config) (fun result =>
          Write (in_settings (Settings.setConfig (Some result))) (ret tt)))
       (fun _ => ConsoleError (ret tt)))
    (Write (in_settings (Settings.setLoading false)) (ret tt)).

(** [saveConfig], with [onRefresh] bound to [loadStatus]. *)
Definition saveConfig (newConfig : Config.t) : flow unit :=
  Write (in_settings (Settings.setSaving true))
    (finally
       (catch
          (andThen (invoke (save_config newConfig)) (fun _ =>
             Write (in_settings (Settings.setConfig (Some newConfig)))
               loadStatus))
          (fun _ => ConsoleError (ret tt)))
       (Write (in_settings (Settings.setSaving false)) (ret tt))).

Definition handleAddFolder (s : Cells) : flow unit :=
  catch
    (andThen (invoke dialog_open) (fun selected =>
       if truthy_opt selected then
         match Settings.config (settings_tab s) with
         | Some config =>
             saveConfig
               (Config.with_watched_folders
                  (Config.watched_folders config ++ [or_empty selected])
                  config)
         | None => ret tt
         end
       else ret tt))
    (fun _ => ConsoleError (ret tt)).

(** [config.watched_folders.filter((f) => f !== folder)] *)
Definition without (folder : string) (folders : list string) : list string :=
  List.filter (fun f => negb (String.eqb f folder)) folders.

Definition handleRemoveFolder (s : Cells) (folder : string) : flow unit :=
  match Settings.config (settings_tab s) with
  | Some config =>
      saveConfig
        (Config.with_watched_folders
           (without folder (Config.watched_folders config)) config)
  | None => ret tt
  end.

Definition handleToggleNotifications (s : Cells) : flow unit :=
  match Settings.config (settings_tab s) with
  | Some config =>
      saveConfig
        (Config.with_show_notifications
           (negb (Config.show_notifications config)) config)
  | None => ret tt
  end.

Definition handleToggleStartOnBoot (s : Cells) : flow unit :=
  match Settings.config (settings_tab s) with
  | Some config =>
      saveConfig
        (Config.with_start_on_boot (negb (Config.start_on_boot config)) config)
  | None => ret tt
  end.

(** Backends and cells for examples. *)
Module Example.

Definition status_in : AppStatus.t := AppStatus.mk false 3 true ["C:\watch"].

Definition config : Config.t :=
  Config.mk "https://api.example" "https://app.example" ["C:\watch"] true
    false 5.

(** Every command succeeds; the dialog answers with a new folder. *)
Definition friendly : Backend :=
  fun c =>
    match c as c0 return result (reply c0) with
    | get_status => Fulfilled status_in
    | open_dashboard => Fulfilled "https://app.example"
    | get_config => Fulfilled config
    | dialog_open => Fulfilled (Some "C:\new")
    | login _ _ | start_watching | stop_watching | logout | toggle_pause
    | shell_open _ | save_config _ => Fulfilled tt
    end.

(** Every command is rejected. *)
Definition refusing : Backend := fun c => Rejected (Thrown "offline").

Definition logged_out : Cells :=
  mkCells (App.mk None dashboard false)
    (Login.mk "user@example.org" "secret" "" false)
    (Settings.mk None true false).

Definition configured : Cells :=
  mkCells (App.mk (Some status_in) settings false) (Login.mk "" "" "" false)
    (Settings.mk (Some config) false false).

End Example.

End Shell.

(** * Properties *)

(** ** The interpreter *)

Lemma run_bind {A B : Type} (W : World) (cancel_at : nat -> bool) (p : proc A)
    (f : A -> proc B) (n : nat) (st : State) :
  run W cancel_at (bind p f) n st =
  let '(a, n1, st1, tr1) := run W cancel_at p n st in
  let '(b, n2, st2, tr2) := run W cancel_at (f a) n1 st1 in
  (b, n2, st2, tr1 ++ tr2).
Proof.
  revert n st.
  induction p as [a | g k IH | c k IH | c k IH | l k IH]; intros n st; simpl.
  - destruct (run W cancel_at (f a) n st) as [[[b n2] st2] tr2]. reflexivity.
  - apply IH.
  - rewrite IH.
    destruct (run W cancel_at (k (W c)) (S n) _) as [[[a n1] st1] tr1].
    destruct (run W cancel_at (f a) n1 st1) as [[[b n2] st2] tr2].
    rewrite app_assoc. reflexivity.
  - rewrite IH.
    destruct (run W cancel_at k n st) as [[[a n1] st1] tr1].
    destruct (run W cancel_at (f a) n1 st1) as [[[b n2] st2] tr2].
    reflexivity.
  - rewrite IH.
    destruct (run W cancel_at k n st) as [[[a n1] st1] tr1].
    destruct (run W cancel_at (f a) n1 st1) as [[[b n2] st2] tr2].
    reflexivity.
Qed.

Lemma within_bind {A B : Type} (P : (State -> State) -> Prop)
    (Q : call -> Prop) (p : proc A) (f : A -> proc B) :
  within P Q p -> (forall a, within P Q (f a)) -> within P Q (bind p f).
Proof.
  intros Hp Hf.
  induction Hp; simpl; try constructor; auto.
Qed.

Lemma within_weaken {A : Type} (P P' : (State -> State) -> Prop)
    (Q Q' : call -> Prop) (p : proc A) :
  (forall f, P f -> P' f) -> (forall c, Q c -> Q' c) ->
  within P Q p -> within P' Q' p.
Proof.
  intros HP HQ Hp. induction Hp; constructor; auto.
Qed.

(** Every event of a run of a bounded fragment is about a call the bound
    allows. *)
Lemma within_trace {A : Type} (P : (State -> State) -> Prop) (Q : call -> Prop)
    (W : World) (cancel_at : nat -> bool) (p : proc A) :
  within P Q p ->
  forall n st, Forall (event_call Q) (trace (run W cancel_at p n st)).
Proof.
  intros Hp.
  induction Hp as [a | f k Hf Hk IH | c k Hc Hk IH | c k Hc Hk IH | l k Hk IH];
    intros n st; simpl.
  - constructor.
  - apply IH.
  - specialize (IH (W c) (S n) (if cancel_at n then resetOrganize st else st)).
    destruct (run W cancel_at (k (W c)) (S n) _) as [[[a n1] st1] tr1].
    unfold trace in *; simpl in *.
    destruct (cancel_at n); simpl; repeat constructor; auto.
  - specialize (IH n st).
    destruct (run W cancel_at k n st) as [[[a n1] st1] tr1].
    unfold trace in *; simpl in *. constructor; auto.
  - specialize (IH n st).
    destruct (run W cancel_at k n st) as [[[a n1] st1] tr1].
    unfold trace in *; simpl in *. constructor; simpl; auto.
Qed.

(** Without a cancellation the run records none. *)
Lemma never_cancelled {A : Type} (W : World) (p : proc A) (n : nat) (st : State) :
  cancelled (trace (run W never p n st)) = false.
Proof.
  revert n st.
  induction p as [a | g k IH | c k IH | c k IH | l k IH]; intros n st; simpl.
  - reflexivity.
  - apply IH.
  - specialize (IH (W c) (S n) st).
    destruct (run W never (k (W c)) (S n) st) as [[[a n1] st1] tr1].
    exact IH.
  - specialize (IH n st).
    destruct (run W never k n st) as [[[a n1] st1] tr1]. exact IH.
  - specialize (IH n st).
    destruct (run W never k n st) as [[[a n1] st1] tr1]. exact IH.
Qed.

Lemma cancelled_app (tr1 tr2 : list event) :
  cancelled (tr1 ++ tr2) = cancelled tr1 || cancelled tr2.
Proof. apply existsb_app. Qed.


Lemma reset_idempotent (st : State) :
  resetOrganize (resetOrganize st) = resetOrganize st.
Proof. reflexivity. Qed.

(** A fragment that writes the status line only leaves the rest of the
    session as it found it, or as [resetOrganize] made it when the user
    cancelled meanwhile. *)
Lemma status_frame {A : Type} (Q : call -> Prop) (W : World)
    (cancel_at : nat -> bool) (p : proc A) :
  within status_write Q p ->
  forall n st,
    but_status (final (run W cancel_at p n st))
    = but_status
        (if cancelled (trace (run W cancel_at p n st)) then resetOrganize st
         else st).
Proof.
  intros Hp.
  induction Hp as [a | f k Hf Hk IH | c k Hc Hk IH | c k Hc Hk IH | l k Hk IH];
    intros n st; cbn [run].
  - reflexivity.
  - destruct Hf as [v Hv]. rewrite (IH n (f st)), Hv.
    destruct (cancelled _); reflexivity.
  - specialize (IH (W c) (S n) (if cancel_at n then resetOrganize st else st)).
    destruct (run W cancel_at (k (W c)) (S n) _) as [[[a n1] st1] tr1].
    unfold final, trace in *; cbn [fst snd] in *.
    rewrite IH. unfold cancelled.
    destruct (cancel_at n), (existsb is_cancel tr1) eqn:E;
      cbn [app existsb is_cancel orb]; rewrite ?E; reflexivity.
  - specialize (IH n st).
    destruct (run W cancel_at k n st) as [[[a n1] st1] tr1].
    unfold final, trace in *; cbn [fst snd] in *. exact IH.
  - specialize (IH n st).
    destruct (run W cancel_at k n st) as [[[a n1] st1] tr1].
    unfold final, trace in *; cbn [fst snd] in *. exact IH.
Qed.

(** ** Pre-flight checks of [handleStartOrganize] *)

(** C4. When the scan of the chosen folder answers with no file or with more
    than 5000 files, the session is back in the idle step with the
    corresponding validation message (folder empty, too many files), and no
    remote call has been issued; this holds whether or not the user cancels
    while the scan is pending. *)
Theorem start_rejects_empty_and_oversized (W : World) (cancel_at : nat -> bool)
    (s : State) (files : list ScannedFile.t) :
  truthy (selectedFolder s) = true ->
  W (scan_folder_for_organize (selectedFolder s)) = Fulfilled files ->
  (len files = 0 \/ len files > 5000)%Z ->
  organizeStep (final (run W cancel_at (handleStartOrganize s) 0 s)) = idle /\
  organizeStatus (final (run W cancel_at (handleStartOrganize s) 0 s))
  = (if (len files =? 0)%Z then folder_empty
     else too_many_files (length files)) /\
  remote_calls (trace (run W cancel_at (handleStartOrganize s) 0 s)) = [].
Proof.
  intros Hsel Hscan Hlen.
  unfold handleStartOrganize. rewrite Hsel. cbn [negb run].
  rewrite Hscan. unfold after_scan.
  destruct (len files =? 0)%Z eqn:E0.
  - destruct (cancel_at 0); repeat split; reflexivity.
  - assert (Hbig : (len files >? 5000)%Z = true) by (apply Z.eqb_neq in E0; lia).
    rewrite Hbig. destruct (cancel_at 0); repeat split; reflexivity.
Qed.

Lemma start_rejects_empty_and_oversized_witness :
  let W := Sample.world (Sample.with_scan (Fulfilled []) Sample.fine) in
  organizeStep (final (run W never (handleStartOrganize Sample.picked) 0
                         Sample.picked)) = idle /\
  organizeStatus (final (run W never (handleStartOrganize Sample.picked) 0
                           Sample.picked)) = folder_empty /\
  remote_calls (trace (run W never (handleStartOrganize Sample.picked) 0
                         Sample.picked)) = [].
Proof.
  exact (start_rejects_empty_and_oversized
           (Sample.world (Sample.with_scan (Fulfilled []) Sample.fine)) never
           Sample.picked [] eq_refl eq_refl (or_introl eq_refl)).
Defined.

(** The same check on a folder of 5001 files. *)
#[warnings="-abstract-large-number"]
Example start_5001_files :
  let W :=
    Sample.world
      (Sample.with_scan (Fulfilled (replicate 5001 Sample.a_pdf)) Sample.fine) in
  let r := run W never (handleStartOrganize Sample.picked) 0 Sample.picked in
  organizeStep (final r) = idle /\
  organizeStatus (final r) = "❌ Слишком много файлов (5001). Максимум 5000." /\
  calls (trace r) = [scan_folder_for_organize "C:\in"].
Proof. vm_compute. repeat split; reflexivity. Qed.

(** C2, as stated, fails: the token is looked up only after the folder has
    been scanned, so a start without a token does perform the scan call. *)
Lemma tokenless_start_scans :
  ~ tokenless_start_is_silent
      (Sample.world (Sample.with_token (Fulfilled None) Sample.fine))
      Sample.picked.
Proof.
  intros H.
  destruct H as (_ & _ & Hscan & _).
  - exists None. split; reflexivity.
  - vm_compute in Hscan. discriminate Hscan.
Qed.

(** C2, amended. A start on a chosen folder whose scan answers with between
    1 and 5000 files, when no access token is available, ends in the idle
    step with the authentication-required message; the calls it has issued
    are the scan and the token lookup, so no analysis call and no other
    remote call. *)
Theorem start_without_token (W : World) (s : State)
    (files : list ScannedFile.t) (t : option string) :
  truthy (selectedFolder s) = true ->
  W (scan_folder_for_organize (selectedFolder s)) = Fulfilled files ->
  (0 < len files <= 5000)%Z ->
  W get_access_token = Fulfilled t ->
  truthy_opt t = false ->
  organizeStep (final (run W never (handleStartOrganize s) 0 s)) = idle /\
  organizeStatus (final (run W never (handleStartOrganize s) 0 s))
  = auth_required /\
  calls (trace (run W never (handleStartOrganize s) 0 s))
  = [scan_folder_for_organize (selectedFolder s); get_access_token].
Proof.
  intros Hsel Hscan Hlen Htok Hfalsy.
  unfold handleStartOrganize. rewrite Hsel. cbn [negb run never].
  rewrite Hscan. unfold after_scan.
  replace (len files =? 0)%Z with false by (symmetry; apply Z.eqb_neq; lia).
  replace (len files >? 5000)%Z with false by (symmetry; lia).
  cbn [run never]. rewrite Htok. unfold after_token. rewrite Hfalsy.
  repeat split; reflexivity.
Qed.

Lemma start_without_token_witness :
  let W := Sample.world (Sample.with_token (Fulfilled None) Sample.fine) in
  organizeStep (final (run W never (handleStartOrganize Sample.picked) 0
                         Sample.picked)) = idle /\
  organizeStatus (final (run W never (handleStartOrganize Sample.picked) 0
                           Sample.picked)) = auth_required /\
  calls (trace (run W never (handleStartOrganize Sample.picked) 0
                  Sample.picked))
  = [scan_folder_for_organize "C:\in"; get_access_token].
Proof.
  apply (start_without_token
           (Sample.world (Sample.with_token (Fulfilled None) Sample.fine))
           Sample.picked Sample.files None); try reflexivity.
  vm_compute. split; [reflexivity | discriminate].
Defined.

(** ** [handleExecuteOrganize] without a plan *)

(** C10. When the stored result is absent or the selected folder is the empty
    string, [handleExecuteOrganize] returns at once: whatever the session is,
    it is left exactly as it was (step, status, scanned files, result and
    every other cell), and no call at all is issued, so neither a move nor a
    log call. *)
Theorem execute_without_plan_is_noop (W : World) (cancel_at : nat -> bool)
    (s st : State) (n : nat) :
  organizeResult s = None \/ selectedFolder s = "" ->
  run W cancel_at (handleExecuteOrganize s) n st = (tt, n, st, []).
Proof.
  intros [H | H]; unfold handleExecuteOrganize; rewrite H.
  - reflexivity.
  - destruct (organizeResult s); reflexivity.
Qed.

Lemma execute_without_plan_is_noop_witness :
  run (Sample.world Sample.fine) never
    (handleExecuteOrganize (setOrganizeResult None Sample.picked)) 0
    (setOrganizeResult None Sample.picked)
  = (tt, 0, setOrganizeResult None Sample.picked, []).
Proof.
  apply execute_without_plan_is_noop. left. reflexivity.
Defined.

(** The other half of the guard: a plan but no folder. *)
Example execute_without_folder :
  let s := setSelectedFolder "" (Sample.previewing Sample.clustering) in
  run (Sample.world Sample.fine) never (handleExecuteOrganize s) 0 s
  = (tt, 0, s, []).
Proof. reflexivity. Qed.

(** ** [handleGenerateRules] *)



(** No rules: the neutral message, not an error. *)
Example rules_none_found :
  let W :=
    Sample.world
      (Sample.with_rules (Fulfilled (Response.mk true 200 (RulesData.mk [] 0)))
         Sample.fine) in
  let r :=
    run W never (handleGenerateRules (Sample.finished Sample.clustering)) 0
      (Sample.finished Sample.clustering) in
  organizeStatus (final r) = no_pattern_found /\
  organizeStep (final r) = done /\
  suggestedRules (final r) = [].
Proof. vm_compute. repeat split; reflexivity. Qed.

(** ** The content extraction stage *)

Lemma value_bind {A B : Type} (W : World) (cancel_at : nat -> bool) (p : proc A)
    (f : A -> proc B) (n : nat) (st : State) :
  exists n1 st1,
    value (run W cancel_at (bind p f) n st)
    = value (run W cancel_at (f (value (run W cancel_at p n st))) n1 st1).
Proof.
  rewrite run_bind.
  destruct (run W cancel_at p n st) as [[[a n1] st1] tr1].
  exists n1, st1. cbn [value fst].
  destruct (run W cancel_at (f a) n1 st1) as [[[b n2] st2] tr2]. reflexivity.
Qed.

Lemma value_await {A : Type} (W : World) (cancel_at : nat -> bool) (c : call)
    (k : result (resp c) -> proc A) (n : nat) (st : State) :
  value (run W cancel_at (Await c k) n st)
  = value (run W cancel_at (k (W c)) (S n)
             (if cancel_at n then resetOrganize st else st)).
Proof.
  cbn [run].
  destruct (run W cancel_at (k (W c)) (S n) _) as [[[a n1] st1] tr1].
  reflexivity.
Qed.

Lemma value_console {A : Type} (W : World) (cancel_at : nat -> bool) (l : level)
    (k : proc A) (n : nat) (st : State) :
  value (run W cancel_at (Console l k) n st) = value (run W cancel_at k n st).
Proof.
  cbn [run]. destruct (run W cancel_at k n st) as [[[a n1] st1] tr1].
  reflexivity.
Qed.

Lemma extract_one_value (W : World) (cancel_at : nat -> bool)
    (accessToken : option string) (j : nat) (file : ScannedFile.t)
    (fs : list ApiFile.t) (n : nat) (st : State) :
  value (run W cancel_at (extract_one accessToken j file fs) n st)
  = if truthy (extracted W accessToken j file)
    then alter (set_content_preview (extracted W accessToken j file)) j fs
    else fs.
Proof.
  unfold extract_one, extracted. rewrite value_await.
  destruct (W (read_file_content j (ScannedFile.path file) 50000)) as [e | content].
  - rewrite value_console. reflexivity.
  - destruct (0 <? len content)%Z; [| reflexivity].
    rewrite value_await.
    destruct (W (post_extract_content j _ _)) as [e | response].
    + rewrite value_console. reflexivity.
    + cbn zeta.
      destruct (Response.ok response); cbn [andb]; [| reflexivity].
      destruct (truthy (ExtractData.content_preview (Response.data response))) eqn:E.
      * rewrite E. reflexivity.
      * reflexivity.
Qed.

Lemma truthy_false (s : string) : truthy s = false -> s = "".
Proof.
  unfold truthy. intros H. apply negb_false_iff in H. apply String.eqb_eq in H. exact H.
Qed.

Lemma upto_lookup (W : World) (accessToken : option string)
    (files : list ScannedFile.t) (m j : nat) :
  upto W accessToken files m !! j
  = (fun f =>
       if (j <? m)%nat then
         set_content_preview (extracted W accessToken j f) (to_api f)
       else to_api f) <$> files !! j.
Proof. unfold upto. apply list_lookup_imap. Qed.

Lemma ltb_succ_cases (i j : nat) :
  (i <? S j)%nat = (i <? j)%nat || (i =? j)%nat.
Proof.
  destruct (Nat.ltb_spec i (S j)), (Nat.ltb_spec i j), (Nat.eqb_spec i j);
    cbn [orb]; try reflexivity; lia.
Qed.

Lemma upto_step (W : World) (accessToken : option string)
    (files : list ScannedFile.t) (j : nat) (file : ScannedFile.t) :
  files !! j = Some file ->
  (if truthy (extracted W accessToken j file)
   then alter (set_content_preview (extracted W accessToken j file)) j
          (upto W accessToken files j)
   else upto W accessToken files j)
  = upto W accessToken files (S j).
Proof.
  intros Hj. apply list_eq. intros i.
  rewrite (upto_lookup _ _ _ (S j)), ltb_succ_cases.
  destruct (truthy (extracted W accessToken j file)) eqn:E.
  - rewrite list_lookup_alter, !upto_lookup.
    destruct (decide (j = i)) as [<- | Hne].
    + rewrite Nat.ltb_irrefl, Nat.eqb_refl, Hj. reflexivity.
    + replace (i =? j)%nat with false by (symmetry; apply Nat.eqb_neq; lia).
      rewrite orb_false_r. reflexivity.
  - rewrite upto_lookup.
    destruct (decide (i = j)) as [-> | Hne].
    + rewrite Nat.ltb_irrefl, Nat.eqb_refl, Hj. cbn [orb fmap option_fmap option_map].
      rewrite (truthy_false _ E). reflexivity.
    + replace (i =? j)%nat with false by (symmetry; apply Nat.eqb_neq; lia).
      rewrite orb_false_r. reflexivity.
Qed.

Lemma upto_beyond (W : World) (accessToken : option string)
    (files : list ScannedFile.t) (m m' : nat) :
  length files <= m -> length files <= m' ->
  upto W accessToken files m = upto W accessToken files m'.
Proof.
  intros Hm Hm'. apply list_eq. intros i. rewrite !upto_lookup.
  destruct (files !! i) as [f |] eqn:Ei; [| reflexivity].
  apply lookup_lt_Some in Ei.
  replace (i <? m)%nat with true by (symmetry; apply Nat.ltb_lt; lia).
  replace (i <? m')%nat with true by (symmetry; apply Nat.ltb_lt; lia).
  reflexivity.
Qed.

Lemma extract_tasks_value (W : World) (cancel_at : nat -> bool)
    (accessToken : option string) (tasks : list (nat * ScannedFile.t)) :
  forall (fs : list ApiFile.t) (n : nat) (st : State),
    value (run W cancel_at (extract_tasks accessToken tasks fs) n st)
    = foldl (store W accessToken) fs tasks.
Proof.
  induction tasks as [| [j file] tasks IH]; intros fs n st.
  - reflexivity.
  - cbn [extract_tasks foldl].
    destruct (value_bind W cancel_at (extract_one accessToken j file fs)
                (fun fs' => extract_tasks accessToken tasks fs') n st)
      as (n1 & st1 & ->).
    rewrite extract_one_value, IH. reflexivity.
Qed.

(** Callbacks for different cells can finish in either order. *)
Lemma store_commute (W : World) (accessToken : option string)
    (fs : list ApiFile.t) (task task' : nat * ScannedFile.t) :
  task.1 <> task'.1 ->
  store W accessToken (store W accessToken fs task) task'
  = store W accessToken (store W accessToken fs task') task.
Proof.
  intros Hne. unfold store.
  destruct (truthy (extracted W accessToken task.1 task.2)),
    (truthy (extracted W accessToken task'.1 task'.2)); try reflexivity.
  apply list_alter_alter_ne. congruence.
Qed.

(** The callbacks of a window may finish in any order. *)
Lemma window_order (W : World) (accessToken : option string)
    (tasks tasks' : list (nat * ScannedFile.t)) :
  Permutation tasks tasks' ->
  NoDup (tasks.*1) ->
  forall fs,
    foldl (store W accessToken) fs tasks = foldl (store W accessToken) fs tasks'.
Proof.
  induction 1 as [| task l l' Hperm IH | task task' l | l l' l'' H1 IH1 H2 IH2];
    intros Hnodup fs.
  - reflexivity.
  - cbn [foldl]. apply IH. apply NoDup_cons in Hnodup. apply Hnodup.
  - cbn [foldl]. rewrite store_commute; [reflexivity |].
    cbn [fmap list_fmap] in Hnodup. apply NoDup_cons in Hnodup.
    destruct Hnodup as [Hnotin _]. intros Heq. apply Hnotin. rewrite Heq.
    apply list_elem_of_here.
  - rewrite IH1 by exact Hnodup. apply IH2.
    rewrite <- H1. exact Hnodup.
Qed.

Lemma window_tasks_positions (batch : list ScannedFile.t) :
  forall i, (window_tasks i batch).*1 = seq i (length batch).
Proof.
  unfold window_tasks.
  induction batch as [| file batch IH]; intros i; [reflexivity |].
  rewrite imap_cons. cbn [fmap list_fmap length seq fst]. f_equal; [lia |].
  rewrite <- (IH (S i)). f_equal. apply imap_ext. intros k f _. cbn.
  f_equal. lia.
Qed.

Lemma window_tasks_value (W : World) (accessToken : option string)
    (files : list ScannedFile.t) (batch : list ScannedFile.t) :
  forall i,
    (forall k file, batch !! k = Some file -> files !! (i + k) = Some file) ->
    foldl (store W accessToken) (upto W accessToken files i)
      (window_tasks i batch)
    = upto W accessToken files (i + length batch).
Proof.
  unfold window_tasks.
  induction batch as [| file batch IH]; intros i Hbatch.
  - cbn. rewrite Nat.add_0_r. reflexivity.
  - rewrite imap_cons. cbn [foldl].
    assert (Hfile : files !! i = Some file).
    { specialize (Hbatch 0 file eq_refl). rewrite Nat.add_0_r in Hbatch.
      exact Hbatch. }
    unfold store at 2. cbn [fst snd]. rewrite Nat.add_0_r.
    rewrite (upto_step W accessToken files i file Hfile).
    rewrite (imap_ext _ (fun k f => (S i + k, f))).
    + rewrite IH.
      * cbn [length]. f_equal. lia.
      * intros k f Hk. replace (S i + k) with (i + S k) by lia.
        apply Hbatch. exact Hk.
    + intros k f _. cbn. f_equal. lia.
Qed.

Lemma extract_loop_value (W : World) (cancel_at : nat -> bool)
    (accessToken : option string) (files : list ScannedFile.t) (fuel : nat) :
  forall (i : nat) (n : nat) (st : State),
    length files <= i + batchSize * fuel ->
    value (run W cancel_at
             (extract_loop fuel accessToken files i
                (upto W accessToken files i)) n st)
    = upto W accessToken files (length files).
Proof.
  induction fuel as [| fuel IH]; intros i n st Hfuel.
  - cbn. apply upto_beyond; lia.
  - cbn [extract_loop]. destruct (i <? length files)%nat eqn:Ei.
    + apply Nat.ltb_lt in Ei.
      destruct (value_bind W cancel_at
                  (extract_tasks accessToken
                     (window_tasks i (take batchSize (drop i files)))
                     (upto W accessToken files i))
                  (fun fs' =>
                     SetState
                       (setOrganizeStatus
                          ("Извлечение содержимого ("
                           +:+ string_of_nat (Nat.min (i + batchSize) (length files))
                           +:+ "/" +:+ string_of_nat (length files) +:+ ")..."))
                       (extract_loop fuel accessToken files (i + batchSize) fs'))
                  n st) as (n1 & st1 & ->).
      rewrite extract_tasks_value, window_tasks_value.
      * cbn [run].
        assert (Hnext :
                  upto W accessToken files
                    (i + length (take batchSize (drop i files)))
                  = upto W accessToken files (i + batchSize)).
        { rewrite length_take, length_drop.
          destruct (decide (batchSize <= length files - i)) as [Hle | Hgt].
          - f_equal. lia.
          - apply upto_beyond; lia. }
        rewrite Hnext. apply IH. unfold batchSize in *. lia.
      * intros k f Hk. apply lookup_take_Some in Hk. destruct Hk as [Hk _].
        rewrite lookup_drop in Hk. exact Hk.
    + apply Nat.ltb_ge in Ei. cbn. apply upto_beyond; lia.
Qed.

(** The loop is never stopped by its fuel: any two allowances that cover the
    remaining windows give the same run. *)
Lemma extract_loop_fuel (W : World) (cancel_at : nat -> bool)
    (accessToken : option string) (files : list ScannedFile.t) (fuel : nat) :
  forall (fuel' i : nat) (fs : list ApiFile.t) (n : nat) (st : State),
    length files <= i + batchSize * fuel ->
    length files <= i + batchSize * fuel' ->
    run W cancel_at (extract_loop fuel accessToken files i fs) n st
    = run W cancel_at (extract_loop fuel' accessToken files i fs) n st.
Proof.
  induction fuel as [| fuel IH]; intros fuel' i fs n st Hfuel Hfuel'.
  - destruct fuel' as [| fuel']; [reflexivity |].
    cbn [extract_loop].
    replace (i <? length files)%nat with false
      by (symmetry; apply Nat.ltb_ge; lia).
    reflexivity.
  - cbn [extract_loop]. destruct (i <? length files)%nat eqn:Ei.
    + apply Nat.ltb_lt in Ei.
      destruct fuel' as [| fuel']; [unfold batchSize in *; lia |].
      cbn [extract_loop].
      replace (i <? length files)%nat with true
        by (symmetry; apply Nat.ltb_lt; lia).
      rewrite !run_bind.
      destruct (run W cancel_at (extract_tasks accessToken _ fs) n st)
        as [[[fs1 n1] st1] tr1].
      cbn [run]. rewrite (IH fuel'); [reflexivity | |];
        unfold batchSize in *; lia.
    + destruct fuel' as [| fuel']; [reflexivity |].
      cbn [extract_loop]. rewrite Ei. reflexivity.
Qed.

Lemma upto_start (W : World) (accessToken : option string)
    (files : list ScannedFile.t) :
  upto W accessToken files 0 = map to_api files.
Proof.
  apply list_eq. intros i. rewrite upto_lookup.
  change (map to_api files) with (to_api <$> files).
  rewrite list_lookup_fmap. reflexivity.
Qed.

(** What the stage hands to the analysis request. *)
Lemma extract_content_value (W : World) (cancel_at : nat -> bool) (s : State)
    (accessToken : option string) (files : list ScannedFile.t) (n : nat)
    (st : State) :
  value (run W cancel_at (extract_content s accessToken files) n st)
  = if useContentExtraction s then upto W accessToken files (length files)
    else map to_api files.
Proof.
  unfold extract_content. destruct (useContentExtraction s); [| reflexivity].
  cbn [run]. rewrite <- (upto_start W accessToken files).
  destruct (value_bind W cancel_at
              (extract_loop (length files) accessToken files 0
                 (upto W accessToken files 0))
              (fun fs' =>
                 SetState
                   (setOrganizeStatus
                      ("Анализ " +:+ string_of_nat (length files) +:+ " файлов..."))
                   (Ret fs'))
              n (setOrganizeStatus
                   ("Извлечение содержимого (0/" +:+ string_of_nat (length files)
                    +:+ ")...") st)) as (n1 & st1 & ->).
  rewrite extract_loop_value; [reflexivity | unfold batchSize; lia].
Qed.

Lemma extracted_of_success (W : World) (accessToken : option string) (j : nat)
    (file : ScannedFile.t) (preview : string) :
  extraction_succeeds W accessToken j file preview ->
  extracted W accessToken j file = preview.
Proof.
  intros (content & response & Hread & Hne & Hpost & Hok & Hprev & Hnonempty).
  unfold extracted. rewrite Hread.
  assert (Hlen : (0 <? len content)%Z = true).
  { destruct content; [congruence |]. unfold len. cbn [length].
    apply Z.ltb_lt. lia. }
  rewrite Hlen, Hpost, Hok, Hprev. cbn [andb].
  unfold truthy. destruct (String.eqb_spec preview ""); [congruence | reflexivity].
Qed.

Lemma success_of_extracted (W : World) (accessToken : option string) (j : nat)
    (file : ScannedFile.t) :
  extracted W accessToken j file <> "" ->
  extraction_succeeds W accessToken j file (extracted W accessToken j file).
Proof.
  unfold extracted, extraction_succeeds.
  destruct (W (read_file_content j (ScannedFile.path file) 50000))
    as [e | content]; [congruence |].
  destruct (0 <? len content)%Z eqn:Hlen; [| congruence].
  destruct (W (post_extract_content j _ _)) as [e | response] eqn:Hpost;
    [congruence |].
  destruct (Response.ok response) eqn:Hok; cbn [andb]; [| congruence].
  destruct (truthy (ExtractData.content_preview (Response.data response)));
    [| congruence].
  intros Hne. exists content, response. repeat split; auto.
  intros ->. discriminate Hlen.
Qed.

Lemma extracted_local (W W' : World) (accessToken : option string) (j k : nat)
    (file : ScannedFile.t) :
  (forall c, task_of c <> Some j -> W' c = W c) ->
  k <> j ->
  extracted W' accessToken k file = extracted W accessToken k file.
Proof.
  intros Hagree Hne. unfold extracted.
  rewrite (Hagree (read_file_content k (ScannedFile.path file) 50000))
    by (cbn; congruence).
  destruct (W (read_file_content k (ScannedFile.path file) 50000))
    as [e | content]; [reflexivity |].
  destruct (0 <? len content)%Z; [| reflexivity].
  rewrite (Hagree (post_extract_content k _ _)) by (cbn; congruence).
  reflexivity.
Qed.

(** C5. Whatever the environment does and whenever the user cancels, the
    content extraction stage returns a list as long as the list of scanned
    files, whose [j]-th entry describes the [j]-th scanned file (same file
    name, extension, size and path).  The preview of an entry is the one its
    own extraction succeeded with; it is non-empty only if that extraction
    succeeded and empty when it failed.  A file's failure concerns nothing
    else: two environments that differ only on the calls of file [j] give
    every other entry the same value, in the same and in later windows.
    Nor does the order in which the callbacks of a window finish matter:
    running them in any other order leaves the same list. *)
Theorem extraction_keeps_length_and_order (W : World) (cancel_at : nat -> bool)
    (s : State) (accessToken : option string) (files : list ScannedFile.t)
    (n : nat) (st : State) :
  length (value (run W cancel_at (extract_content s accessToken files) n st))
  = length files /\
  (forall j file,
     files !! j = Some file ->
     exists o,
       value (run W cancel_at (extract_content s accessToken files) n st) !! j
       = Some o /\
       ApiFile.filename o = ScannedFile.filename file /\
       ApiFile.extension o = ScannedFile.extension file /\
       ApiFile.size_bytes o = ScannedFile.size_bytes file /\
       ApiFile.path o = ScannedFile.path file /\
       (forall preview,
          useContentExtraction s = true ->
          extraction_succeeds W accessToken j file preview ->
          ApiFile.content_preview o = preview) /\
       (ApiFile.content_preview o <> "" ->
        useContentExtraction s = true /\
        extraction_succeeds W accessToken j file (ApiFile.content_preview o)) /\
       (~ (exists preview, extraction_succeeds W accessToken j file preview) ->
        ApiFile.content_preview o = "")) /\
  (forall (W' : World) (j : nat),
     (forall c, task_of c <> Some j -> W' c = W c) ->
     forall k,
       k <> j ->
       value (run W' cancel_at (extract_content s accessToken files) n st) !! k
       = value (run W cancel_at (extract_content s accessToken files) n st) !! k) /\
  (forall (i : nat) (tasks : list (nat * ScannedFile.t)) (fs : list ApiFile.t)
          (n' : nat) (st' : State),
     Permutation (window_tasks i (take batchSize (drop i files))) tasks ->
     value (run W cancel_at (extract_tasks accessToken tasks fs) n' st')
     = value
         (run W cancel_at
            (extract_tasks accessToken
               (window_tasks i (take batchSize (drop i files))) fs) n' st')).
Proof.
  split; [| split; [| split]].
  - rewrite extract_content_value.
    destruct (useContentExtraction s).
    + unfold upto. apply length_imap.
    + apply length_map.
  - intros j file Hj. rewrite extract_content_value.
    destruct (useContentExtraction s).
    + exists (set_content_preview (extracted W accessToken j file) (to_api file)).
      split.
      { rewrite upto_lookup, Hj.
        replace (j <? length files)%nat with true
          by (symmetry; apply Nat.ltb_lt; eapply lookup_lt_Some; exact Hj).
        reflexivity. }
      cbn [set_content_preview to_api ApiFile.filename ApiFile.extension
             ApiFile.size_bytes ApiFile.path ApiFile.content_preview].
      do 4 (split; [reflexivity |]). split; [| split].
      * intros preview _ Hs. apply extracted_of_success. exact Hs.
      * intros Hfilled. split; [reflexivity |].
        apply success_of_extracted. exact Hfilled.
      * intros Hnone.
        destruct (string_dec (extracted W accessToken j file) "") as [E | E];
          [exact E |].
        exfalso. apply Hnone. eexists. apply success_of_extracted. exact E.
    + exists (to_api file). split.
      { change (map to_api files) with (to_api <$> files).
        rewrite list_lookup_fmap, Hj. reflexivity. }
      cbn [to_api ApiFile.filename ApiFile.extension ApiFile.size_bytes
             ApiFile.path ApiFile.content_preview].
      repeat split; try congruence.
  - intros W' j Hagree k Hne. rewrite !extract_content_value.
    destruct (useContentExtraction s); [| reflexivity].
    rewrite !upto_lookup. destruct (files !! k) as [f |]; [| reflexivity].
    cbn [fmap option_fmap option_map].
    rewrite (extracted_local W W' accessToken j k f Hagree Hne). reflexivity.
  - intros i tasks fs n' st' Hperm. rewrite !extract_tasks_value.
    symmetry. apply window_order; [exact Hperm |].
    rewrite window_tasks_positions. apply NoDup_seq.
Qed.

(** The sample folder: the first preview is stored, the file that cannot be
    read and the file the service refuses keep an empty one. *)
Example extraction_sample :
  map ApiFile.content_preview
    (value (run (Sample.world Sample.fine) never
              (extract_content Sample.picked_extracting (Some "tok")
                 Sample.files) 0 Sample.picked_extracting))
  = ["invoice"; ""; ""].
Proof. reflexivity. Qed.

(** Seven files take two windows; the failure in the first window does not
    keep the second from being processed. *)
Example extraction_two_windows :
  let files := Sample.files ++ Sample.files ++ [Sample.a_pdf] in
  map ApiFile.content_preview
    (value (run (Sample.world Sample.fine) never
              (extract_content Sample.picked_extracting (Some "tok") files) 0
              Sample.picked_extracting))
  = ["invoice"; ""; ""; "invoice"; "invoice"; "invoice"; "invoice"].
Proof. reflexivity. Qed.

(** ** The move construction *)

Lemma build_moves_resolved (plan : OrganizeResult.t)
    (scanned : list ScannedFile.t) :
  build_moves plan scanned = resolved_moves plan scanned.
Proof.
  unfold build_moves, resolved_moves.
  apply List.flat_map_ext. intros folder.
  induction (FolderSuggestion.files folder) as [| filename rest IH].
  - reflexivity.
  - cbn [map List.filter flat_map MoveOperation.source_path].
    rewrite IH. unfold resolve, source_of.
    destruct (find_scanned scanned filename) as [file |].
    + destruct (truthy (ScannedFile.path file)); reflexivity.
    + reflexivity.
Qed.

Lemma resolved_moves_In (plan : OrganizeResult.t)
    (scanned : list ScannedFile.t) (m : MoveOperation.t) :
  In m (resolved_moves plan scanned) <->
  exists folder,
    In folder (OrganizeResult.folders plan) /\
    In (MoveOperation.filename m) (FolderSuggestion.files folder) /\
    MoveOperation.dest_folder m = FolderSuggestion.folder_path folder /\
    resolve scanned (MoveOperation.filename m)
    = Some (MoveOperation.source_path m).
Proof.
  unfold resolved_moves. rewrite List.in_flat_map. split.
  - intros (folder & Hfolder & Hin). exists folder.
    apply List.in_flat_map in Hin. destruct Hin as (filename & Hfile & Hin).
    destruct (resolve scanned filename) as [source |] eqn:E; [| destruct Hin].
    destruct Hin as [<- | []]. cbn. auto.
  - intros (folder & Hfolder & Hfile & Hdest & Hres). exists folder.
    split; [exact Hfolder |]. apply List.in_flat_map.
    exists (MoveOperation.filename m). split; [exact Hfile |].
    rewrite Hres. left. destruct m; cbn in *. congruence.
Qed.

Lemma resolved_moves_prune (plan : OrganizeResult.t)
    (scanned : list ScannedFile.t) :
  resolved_moves (prune scanned plan) scanned = resolved_moves plan scanned.
Proof.
  unfold resolved_moves, prune. cbn [OrganizeResult.folders].
  induction (OrganizeResult.folders plan) as [| folder rest IH].
  - reflexivity.
  - cbn [map flat_map]. rewrite IH. f_equal.
    cbn [FolderSuggestion.files FolderSuggestion.folder_path].
    induction (FolderSuggestion.files folder) as [| filename names IHn].
    + reflexivity.
    + cbn [List.filter flat_map].
      destruct (resolve scanned filename) as [source |] eqn:E.
      * cbn [flat_map]. rewrite E, IHn. reflexivity.
      * exact IHn.
Qed.

(** ** Runs of [handleExecuteOrganize] *)

Lemma calls_app (tr1 tr2 : list event) :
  calls (tr1 ++ tr2) = calls tr1 ++ calls tr2.
Proof.
  induction tr1 as [| ev tr1 IH]; [reflexivity |].
  destruct ev; cbn; rewrite IH; reflexivity.
Qed.

Lemma no_write_never {A : Type} (Q : call -> Prop) (W : World) (p : proc A) :
  within no_write Q p ->
  forall n st, final (run W never p n st) = st.
Proof.
  intros Hp.
  induction Hp as [a | f k Hf Hk IH | c k Hc Hk IH | c k Hc Hk IH | l k Hk IH];
    intros n st; cbn [run never].
  - reflexivity.
  - destruct Hf.
  - specialize (IH (W c) (S n) st).
    destruct (run W never (k (W c)) (S n) st) as [[[a n1] st1] tr1]. exact IH.
  - specialize (IH n st).
    destruct (run W never k n st) as [[[a n1] st1] tr1]. exact IH.
  - specialize (IH n st).
    destruct (run W never k n st) as [[[a n1] st1] tr1]. exact IH.
Qed.

Lemma filter_calls_none (f : call -> bool) (tr : list event) :
  Forall (event_call (fun c => f c = false)) tr ->
  List.filter f (calls tr) = [].
Proof.
  induction 1 as [| ev tr Hev _ IH]; [reflexivity |].
  destruct ev; cbn in *; try rewrite Hev; exact IH.
Qed.

Lemma filter_calls_all (f : call -> bool) (tr : list event) :
  Forall (event_call (fun c => f c = true)) tr ->
  List.filter f (calls tr) = calls tr.
Proof.
  induction 1 as [| ev tr Hev _ IH]; [reflexivity |].
  destruct ev; cbn in *; try rewrite Hev; try rewrite IH; reflexivity.
Qed.

Lemma plain_confidence_default (folder : FolderSuggestion.t) :
  plain_confidence folder ->
  confidence_or_default (FolderSuggestion.confidence folder)
  = declared_confidence (FolderSuggestion.confidence folder).
Proof.
  unfold plain_confidence, confidence_or_default, declared_confidence.
  destruct (FolderSuggestion.confidence folder) as [c |]; [| reflexivity].
  intros ->. reflexivity.
Qed.

Lemma trace_bind {A B : Type} (W : World) (cancel_at : nat -> bool) (p : proc A)
    (f : A -> proc B) (n : nat) (st : State) :
  exists n1,
    trace (run W cancel_at (bind p f) n st)
    = trace (run W cancel_at p n st)
      ++ trace (run W cancel_at (f (value (run W cancel_at p n st))) n1
                  (final (run W cancel_at p n st))).
Proof.
  rewrite run_bind.
  destruct (run W cancel_at p n st) as [[[a n1] st1] tr1].
  exists n1. cbn [value final trace fst snd].
  destruct (run W cancel_at (f a) n1 st1) as [[[b n2] st2] tr2]. reflexivity.
Qed.

Section Logging.

Variable W : World.
Variable sel : string.
Variable scanned : list ScannedFile.t.
Variable tok : string.

Lemma log_one_within (folder : FolderSuggestion.t) (pos : nat * nat)
    (filename : string) :
  within no_write logs_only (log_one sel scanned tok folder pos filename).
Proof.
  unfold log_one. destruct (find_scanned scanned filename).
  - constructor; [reflexivity |]. intros [e | x]; repeat constructor.
  - constructor.
Qed.

Lemma log_files_within (folder : FolderSuggestion.t) (fi : nat)
    (filenames : list string) :
  forall j,
    within no_write logs_only (log_files sel scanned tok folder fi j filenames).
Proof.
  induction filenames as [| filename rest IH]; intros j; cbn [log_files].
  - constructor.
  - apply within_bind; [apply log_one_within | intros _; apply IH].
Qed.

Lemma log_folders_within (folders : list FolderSuggestion.t) :
  forall fi, within no_write logs_only (log_folders sel scanned tok fi folders).
Proof.
  induction folders as [| folder rest IH]; intros fi; cbn [log_folders].
  - constructor.
  - apply within_bind; [apply log_files_within | intros _; apply IH].
Qed.

Lemma log_one_calls (folder : FolderSuggestion.t) (pos : nat * nat)
    (filename : string) (n : nat) (st : State) :
  calls (trace (run W never (log_one sel scanned tok folder pos filename) n st))
  = history_record sel scanned tok confidence_or_default folder pos filename.
Proof.
  unfold log_one, history_record.
  destruct (find_scanned scanned filename) as [file |]; [| reflexivity].
  cbn [run never].
  destruct (W (post_actions_log pos _ _)); reflexivity.
Qed.

Lemma log_files_calls (folder : FolderSuggestion.t) (fi : nat)
    (filenames : list string) :
  forall j n st,
    calls
      (trace (run W never (log_files sel scanned tok folder fi j filenames) n st))
    = concat
        (imap
           (fun i filename =>
              history_record sel scanned tok confidence_or_default folder
                (fi, j + i) filename)
           filenames).
Proof.
  induction filenames as [| filename rest IH]; intros j n st; cbn [log_files].
  - reflexivity.
  - destruct (trace_bind W never
                (log_one sel scanned tok folder (fi, j) filename)
                (fun _ => log_files sel scanned tok folder fi (S j) rest) n st)
      as (n1 & ->).
    rewrite calls_app, log_one_calls, IH.
    rewrite imap_cons. cbn [concat]. rewrite Nat.add_0_r. f_equal. f_equal.
    apply imap_ext. intros i x _. cbn. f_equal. f_equal. lia.
Qed.

Lemma log_folders_calls (folders : list FolderSuggestion.t) :
  forall fi n st,
    calls (trace (run W never (log_folders sel scanned tok fi folders) n st))
    = concat
        (imap
           (fun i folder =>
              concat
                (imap
                   (fun j filename =>
                      history_record sel scanned tok confidence_or_default
                        folder (fi + i, j) filename)
                   (FolderSuggestion.files folder)))
           folders).
Proof.
  induction folders as [| folder rest IH]; intros fi n st; cbn [log_folders].
  - reflexivity.
  - destruct (trace_bind W never
                (log_files sel scanned tok folder fi 0
                   (FolderSuggestion.files folder))
                (fun _ => log_folders sel scanned tok (S fi) rest) n st)
      as (n1 & ->).
    rewrite calls_app, log_files_calls, IH.
    rewrite imap_cons. cbn [concat]. rewrite Nat.add_0_r. f_equal. f_equal.
    apply imap_ext. intros i x _. cbn. f_equal. apply imap_ext. intros j y _.
    f_equal. f_equal. lia.
Qed.

End Logging.

Lemma log_part_within (sel : string) (scanned : list ScannedFile.t)
    (plan : OrganizeResult.t) (t : option string) :
  within no_write after_moves_call
    (if truthy_opt t then
       bind
         (log_folders sel scanned (or_empty t) 0 (OrganizeResult.folders plan))
         (fun _ => Spawn get_recent_actions (Ret tt))
     else Ret tt).
Proof.
  destruct (truthy_opt t); [| constructor].
  apply within_bind.
  - apply (within_weaken no_write _ logs_only _); [auto | |].
    + intros c Hc. right. left. exact Hc.
    + apply log_folders_within.
  - intros _. constructor; [right; right; reflexivity | constructor].
Qed.

Lemma after_moves_within (sel : string) (scanned : list ScannedFile.t)
    (plan : OrganizeResult.t) (result : MoveResult.t) :
  within (fun _ => True) after_moves_call (after_moves sel scanned plan result).
Proof.
  unfold after_moves.
  destruct (MoveResult.success result || (MoveResult.moved_count result >? 0)%Z).
  - constructor; [left; reflexivity |].
    intros [e | t]; [repeat constructor |].
    apply within_bind; [| intros _; repeat constructor].
    apply (within_weaken no_write _ after_moves_call _); auto.
    apply log_part_within.
  - repeat constructor.
Qed.

Lemma after_moves_final (W : World) (sel : string)
    (scanned : list ScannedFile.t) (plan : OrganizeResult.t)
    (result : MoveResult.t) (n : nat) (st : State) :
  final (run W never (after_moves sel scanned plan result) n st)
  = if MoveResult.success result || (MoveResult.moved_count result >? 0)%Z then
      match W get_access_token with
      | Rejected e =>
          setOrganizeStep preview
            (setOrganizeStatus ("❌ Ошибка: " +:+ error_text e) st)
      | Fulfilled _ =>
          setOrganizeStep done (setOrganizeStatus (moved_summary result) st)
      end
    else setOrganizeStep done (setOrganizeStatus (failed_summary result) st).
Proof.
  unfold after_moves.
  destruct (MoveResult.success result || (MoveResult.moved_count result >? 0)%Z);
    [| reflexivity].
  cbn [run never].
  destruct (W get_access_token) as [e | t]; [reflexivity |].
  rewrite run_bind.
  pose proof (no_write_never after_moves_call W _
                (log_part_within sel scanned plan t) (S n) st) as Hlog.
  destruct (run W never (if truthy_opt t then _ else _) (S n) st)
    as [[[a n1] st1] tr1].
  unfold final in Hlog. cbn [fst snd] in Hlog. subst st1. reflexivity.
Qed.

Lemma after_moves_log_calls (W : World) (sel : string)
    (scanned : list ScannedFile.t) (plan : OrganizeResult.t)
    (result : MoveResult.t) (n : nat) (st : State) :
  log_calls (trace (run W never (after_moves sel scanned plan result) n st))
  = if MoveResult.success result || (MoveResult.moved_count result >? 0)%Z then
      match W get_access_token with
      | Rejected _ => []
      | Fulfilled t =>
          if truthy_opt t then
            history_records sel scanned (or_empty t) confidence_or_default plan
          else []
      end
    else [].
Proof.
  unfold after_moves.
  destruct (MoveResult.success result || (MoveResult.moved_count result >? 0)%Z);
    [| reflexivity].
  cbn [run never].
  destruct (W get_access_token) as [e | t]; [reflexivity |].
  rewrite run_bind.
  destruct (truthy_opt t).
  - rewrite run_bind.
    pose proof (log_folders_calls W sel scanned (or_empty t)
                  (OrganizeResult.folders plan) 0 (S n) st) as Hcalls.
    pose proof (within_trace no_write logs_only W never _
                  (log_folders_within sel scanned (or_empty t)
                     (OrganizeResult.folders plan) 0) (S n) st) as Hlogs.
    destruct (run W never (log_folders _ _ _ _ _) (S n) st)
      as [[[a n1] st1] tr1].
    unfold trace in *. cbn [fst snd run app] in *.
    unfold log_calls. cbn [calls List.filter is_log].
    rewrite !calls_app, !List.filter_app. cbn [calls List.filter is_log].
    rewrite !app_nil_r. rewrite (filter_calls_all is_log tr1 Hlogs).
    rewrite Hcalls. reflexivity.
  - reflexivity.
Qed.

Lemma after_moves_call_not (f : call -> bool) :
  f get_access_token = false ->
  f get_recent_actions = false ->
  (forall c, is_log c = true -> f c = false) ->
  forall c, after_moves_call c -> f c = false.
Proof.
  intros Ht Hr Hl c [-> | [Hc | ->]]; auto.
Qed.

Lemma execute_calls (W : World) (s : State) (plan : OrganizeResult.t)
    (f : call -> bool) :
  organizeResult s = Some plan ->
  truthy (selectedFolder s) = true ->
  f get_access_token = false ->
  f get_recent_actions = false ->
  (forall c, is_log c = true -> f c = false) ->
  List.filter f (calls (trace (run W never (handleExecuteOrganize s) 0 s)))
  = List.filter f
      [execute_file_moves (selectedFolder s)
         (build_moves plan (scannedFiles s)) true].
Proof.
  intros Hplan Hsel Ht Hr Hl.
  unfold handleExecuteOrganize. rewrite Hplan, Hsel. cbn [negb run never].
  destruct (W (execute_file_moves _ _ _)) as [e | moved].
  - reflexivity.
  - pose proof (within_trace _ _ W never _
                  (after_moves_within (selectedFolder s) (scannedFiles s) plan
                     moved) 1
                  (setOrganizeStatus "Перемещение файлов..."
                     (setOrganizeStep executing s))) as Hin.
    destruct (run W never (after_moves _ _ _ _) 1 _) as [[[a n1] st1] tr1].
    unfold trace in *. cbn [fst snd app calls] in *.
    cbn [List.filter].
    assert (Hnone : List.filter f (calls tr1) = []).
    { apply filter_calls_none. eapply Forall_impl; [exact Hin |].
      intros ev. destruct ev; cbn; auto using after_moves_call_not. }
    rewrite Hnone. destruct (f _); reflexivity.
Qed.

(** C6. With a stored result and a chosen folder, the move construction
    yields exactly one operation for every (folder, file name) pair whose
    file name resolves to the non-empty path of a scanned file, in the order
    of the result, carrying that path, the folder's path and the file name.
    A file name that does not resolve occurs in no operation.  The handler
    submits this list, and nothing else, in its single [execute_file_moves]
    call; the list is the one the result gives once the pairs that do not
    resolve are taken out of it, and the summary shown in the done step
    reports the count and the errors that the move primitive answered for
    this very list: a dropped pair is neither counted nor reported. *)
Theorem moves_only_for_resolved_pairs (W : World) (s : State)
    (plan : OrganizeResult.t) :
  organizeResult s = Some plan ->
  truthy (selectedFolder s) = true ->
  build_moves plan (scannedFiles s) = resolved_moves plan (scannedFiles s) /\
  (forall m,
     In m (build_moves plan (scannedFiles s)) ->
     resolve (scannedFiles s) (MoveOperation.filename m)
     = Some (MoveOperation.source_path m)) /\
  (forall filename,
     resolve (scannedFiles s) filename = None ->
     forall m,
       In m (build_moves plan (scannedFiles s)) ->
       MoveOperation.filename m <> filename) /\
  List.filter is_move (calls (trace (run W never (handleExecuteOrganize s) 0 s)))
  = [execute_file_moves (selectedFolder s)
       (build_moves plan (scannedFiles s)) true] /\
  build_moves (prune (scannedFiles s) plan) (scannedFiles s)
  = build_moves plan (scannedFiles s) /\
  (forall result,
     W (execute_file_moves (selectedFolder s)
          (build_moves plan (scannedFiles s)) true) = Fulfilled result ->
     organizeStep (final (run W never (handleExecuteOrganize s) 0 s)) = done ->
     organizeStatus (final (run W never (handleExecuteOrganize s) 0 s))
     = if MoveResult.success result || (MoveResult.moved_count result >? 0)%Z
       then moved_summary result
       else failed_summary result).
Proof.
  intros Hplan Hsel.
  assert (Hin : forall m,
             In m (build_moves plan (scannedFiles s)) ->
             resolve (scannedFiles s) (MoveOperation.filename m)
             = Some (MoveOperation.source_path m)).
  { intros m Hm. rewrite build_moves_resolved in Hm.
    apply resolved_moves_In in Hm. destruct Hm as (folder & _ & _ & _ & Hres).
    exact Hres. }
  split; [apply build_moves_resolved |].
  split; [exact Hin |].
  split.
  { intros filename Hnone m Hm Heq. apply Hin in Hm. congruence. }
  split.
  { rewrite (execute_calls W s plan is_move Hplan Hsel); auto.
    intros c Hc. destruct c; cbn in *; congruence. }
  split.
  { rewrite !build_moves_resolved. apply resolved_moves_prune. }
  intros result Hres.
  unfold handleExecuteOrganize. rewrite Hplan, Hsel. cbn [negb run never].
  rewrite Hres.
  pose proof (after_moves_final W (selectedFolder s) (scannedFiles s) plan result
                1 (setOrganizeStatus "Перемещение файлов..."
                     (setOrganizeStep executing s))) as Hfin.
  destruct (run W never (after_moves _ _ _ _) 1 _) as [[[a n1] st1] tr1].
  unfold final in *. cbn [fst snd] in *. subst st1.
  destruct (MoveResult.success result || (MoveResult.moved_count result >? 0)%Z).
  - destruct (W get_access_token); cbn; [discriminate | reflexivity].
  - reflexivity.
Qed.

Lemma execute_final (W : World) (s : State) (plan : OrganizeResult.t) :
  organizeResult s = Some plan ->
  truthy (selectedFolder s) = true ->
  final (run W never (handleExecuteOrganize s) 0 s)
  = match
      W (execute_file_moves (selectedFolder s)
           (build_moves plan (scannedFiles s)) true)
    with
    | Rejected e =>
        setOrganizeStep preview
          (setOrganizeStatus ("❌ Ошибка: " +:+ error_text e) s)
    | Fulfilled result =>
        if MoveResult.success result || (MoveResult.moved_count result >? 0)%Z
        then
          match W get_access_token with
          | Rejected e =>
              setOrganizeStep preview
                (setOrganizeStatus ("❌ Ошибка: " +:+ error_text e) s)
          | Fulfilled _ =>
              setOrganizeStep done (setOrganizeStatus (moved_summary result) s)
          end
        else setOrganizeStep done (setOrganizeStatus (failed_summary result) s)
    end.
Proof.
  intros Hplan Hsel.
  unfold handleExecuteOrganize. rewrite Hplan, Hsel. cbn [negb run never].
  destruct (W (execute_file_moves _ _ _)) as [e | result]; [reflexivity |].
  pose proof (after_moves_final W (selectedFolder s) (scannedFiles s) plan result
                1 (setOrganizeStatus "Перемещение файлов..."
                     (setOrganizeStep executing s))) as Hfin.
  destruct (run W never (after_moves _ _ _ _) 1 _) as [[[a n1] st1] tr1].
  unfold final in *. cbn [fst snd] in *. subst st1.
  destruct (MoveResult.success result || (MoveResult.moved_count result >? 0)%Z);
    [destruct (W get_access_token) |]; reflexivity.
Qed.

(** C7. When [execute_file_moves] throws, the session is in the preview step
    with the error as status message, and the stored result, the scanned
    files and the selected folder are what they were.  Executing again from
    that state is the same handler program as before: in any environment it
    submits the same batch of moves and issues no analysis call. *)
Theorem execution_failure_keeps_plan (W : World) (s : State)
    (plan : OrganizeResult.t) (e : js_error) :
  organizeResult s = Some plan ->
  truthy (selectedFolder s) = true ->
  W (execute_file_moves (selectedFolder s)
       (build_moves plan (scannedFiles s)) true) = Rejected e ->
  organizeStep (final (run W never (handleExecuteOrganize s) 0 s)) = preview /\
  organizeStatus (final (run W never (handleExecuteOrganize s) 0 s))
  = "❌ Ошибка: " +:+ error_text e /\
  organizeResult (final (run W never (handleExecuteOrganize s) 0 s))
  = Some plan /\
  scannedFiles (final (run W never (handleExecuteOrganize s) 0 s))
  = scannedFiles s /\
  selectedFolder (final (run W never (handleExecuteOrganize s) 0 s))
  = selectedFolder s /\
  handleExecuteOrganize (final (run W never (handleExecuteOrganize s) 0 s))
  = handleExecuteOrganize s /\
  (forall W' : World,
     List.filter is_move
       (calls
          (trace
             (run W' never
                (handleExecuteOrganize
                   (final (run W never (handleExecuteOrganize s) 0 s))) 0
                (final (run W never (handleExecuteOrganize s) 0 s)))))
     = [execute_file_moves (selectedFolder s)
          (build_moves plan (scannedFiles s)) true] /\
     List.filter is_analyze
       (calls
          (trace
             (run W' never
                (handleExecuteOrganize
                   (final (run W never (handleExecuteOrganize s) 0 s))) 0
                (final (run W never (handleExecuteOrganize s) 0 s)))))
     = []).
Proof.
  intros Hplan Hsel Hexec.
  rewrite (execute_final W s plan Hplan Hsel), Hexec.
  repeat split; try reflexivity; try exact Hplan.
  - rewrite (execute_calls W' _ plan is_move); auto.
    intros c Hc. destruct c; cbn in *; congruence.
  - rewrite (execute_calls W' _ plan is_analyze); auto.
    intros c Hc. destruct c; cbn in *; congruence.
Qed.

(** C8, amended. When the move primitive answers, the history calls issued
    are: when the answer reports success or a positive moved count and a
    token is available, one call for every file name of every suggested
    folder for which a scanned file exists, in the order of the plan,
    carrying file name, source path, destination path and a confidence; no
    call otherwise (also when the token lookup fails).  The confidence is
    the suggestion's own when that is a number other than zero, and [0.9]
    when the suggestion omits it.  However the environment settles the
    history calls, the session ends as the answer of the primitive and the
    token lookup decide, in the done step with the summary of the answer
    when the lookup answers, and is otherwise as it was: environments that
    differ only on history calls end in the same state. *)
Theorem history_is_best_effort (W : World) (s : State)
    (plan : OrganizeResult.t) (result : MoveResult.t) :
  organizeResult s = Some plan ->
  truthy (selectedFolder s) = true ->
  W (execute_file_moves (selectedFolder s)
       (build_moves plan (scannedFiles s)) true) = Fulfilled result ->
  log_calls (trace (run W never (handleExecuteOrganize s) 0 s))
  = (if MoveResult.success result || (MoveResult.moved_count result >? 0)%Z
     then
       match W get_access_token with
       | Fulfilled t =>
           if truthy_opt t then
             history_records (selectedFolder s) (scannedFiles s) (or_empty t)
               confidence_or_default plan
           else []
       | Rejected _ => []
       end
     else []) /\
  (forall folder,
     plain_confidence folder ->
     confidence_or_default (FolderSuggestion.confidence folder)
     = declared_confidence (FolderSuggestion.confidence folder)) /\
  final (run W never (handleExecuteOrganize s) 0 s)
  = (if MoveResult.success result || (MoveResult.moved_count result >? 0)%Z
     then
       match W get_access_token with
       | Fulfilled _ =>
           setOrganizeStep done (setOrganizeStatus (moved_summary result) s)
       | Rejected e =>
           setOrganizeStep preview
             (setOrganizeStatus ("❌ Ошибка: " +:+ error_text e) s)
       end
     else setOrganizeStep done (setOrganizeStatus (failed_summary result) s)) /\
  (forall W' : World,
     (forall c, is_log c = false -> W' c = W c) ->
     final (run W' never (handleExecuteOrganize s) 0 s)
     = final (run W never (handleExecuteOrganize s) 0 s)).
Proof.
  intros Hplan Hsel Hexec.
  split; [| split; [| split]].
  - unfold handleExecuteOrganize. rewrite Hplan, Hsel. cbn [negb run never].
    rewrite Hexec.
    pose proof (after_moves_log_calls W (selectedFolder s) (scannedFiles s) plan
                  result 1
                  (setOrganizeStatus "Перемещение файлов..."
                     (setOrganizeStep executing s))) as Hlog.
    destruct (run W never (after_moves _ _ _ _) 1 _) as [[[a n1] st1] tr1].
    unfold trace in *. cbn [fst snd] in *.
    unfold log_calls in *. cbn [app calls List.filter is_log].
    exact Hlog.
  - apply plain_confidence_default.
  - rewrite (execute_final W s plan Hplan Hsel), Hexec.
    destruct (MoveResult.success result || (MoveResult.moved_count result >? 0)%Z);
      [destruct (W get_access_token) |]; reflexivity.
  - intros W' Hagree.
    rewrite (execute_final W s plan Hplan Hsel),
      (execute_final W' s plan Hplan Hsel).
    rewrite (Hagree (execute_file_moves _ _ _)) by reflexivity.
    rewrite (Hagree get_access_token) by reflexivity.
    reflexivity.
Qed.

(** Scenario B: [d.txt] was never scanned; three operations are submitted
    and the summary counts three. *)
Lemma moves_only_for_resolved_pairs_witness :
  build_moves Sample.clustering_d Sample.files
  = [MoveOperation.mk "C:\in\a.pdf" "Docs" "a.pdf";
     MoveOperation.mk "C:\in\c.txt" "Docs" "c.txt";
     MoveOperation.mk "C:\in\b.jpg" "Images" "b.jpg"] /\
  List.filter is_move
    (calls
       (trace
          (run (Sample.world Sample.fine) never
             (handleExecuteOrganize (Sample.previewing Sample.clustering_d)) 0
             (Sample.previewing Sample.clustering_d))))
  = [execute_file_moves "C:\in"
       (build_moves Sample.clustering Sample.files) true].
Proof.
  destruct (moves_only_for_resolved_pairs (Sample.world Sample.fine)
              (Sample.previewing Sample.clustering_d) Sample.clustering_d
              eq_refl eq_refl) as (H1 & _ & _ & H2 & _).
  split; [exact H1 | exact H2].
Defined.

Example scenario_b_summary :
  let s := Sample.previewing Sample.clustering_d in
  let r := run (Sample.world Sample.fine) never (handleExecuteOrganize s) 0 s in
  resolve Sample.files "d.txt" = None /\
  organizeStep (final r) = done /\
  organizeStatus (final r) = "✅ Перемещено 3 файлов!".
Proof. vm_compute. repeat split; reflexivity. Qed.

(** Scenario A: every file is moved. *)
Example scenario_a :
  let s := Sample.previewing Sample.clustering in
  let r := run (Sample.world Sample.fine) never (handleExecuteOrganize s) 0 s in
  Sample.moving Sample.fine (build_moves Sample.clustering Sample.files)
  = Fulfilled (MoveResult.mk true 3 []) /\
  organizeStep (final r) = done.
Proof. vm_compute. split; reflexivity. Qed.

Lemma execution_failure_keeps_plan_witness :
  let W :=
    Sample.world
      (Sample.with_moving (fun _ => Rejected (Thrown "disk full")) Sample.fine) in
  let s := Sample.previewing Sample.clustering in
  organizeStep (final (run W never (handleExecuteOrganize s) 0 s)) = preview /\
  organizeStatus (final (run W never (handleExecuteOrganize s) 0 s))
  = "❌ Ошибка: disk full" /\
  organizeResult (final (run W never (handleExecuteOrganize s) 0 s))
  = Some Sample.clustering /\
  scannedFiles (final (run W never (handleExecuteOrganize s) 0 s))
  = Sample.files.
Proof.
  destruct (execution_failure_keeps_plan
              (Sample.world
                 (Sample.with_moving (fun _ => Rejected (Thrown "disk full"))
                    Sample.fine))
              (Sample.previewing Sample.clustering) Sample.clustering
              (Thrown "disk full") eq_refl eq_refl eq_refl)
    as (H1 & H2 & H3 & H4 & _).
  split; [exact H1 | split; [exact H2 | split; [exact H3 | exact H4]]].
Defined.

(** C8, as stated, fails: the history calls are issued only when an access
    token is available; without one the moves are done and reported, and no
    record is written although every suggested file was scanned. *)
Lemma tokenless_execution_logs_nothing :
  ~ logs_every_scanned_file
      (Sample.world (Sample.with_token (Fulfilled None) Sample.fine))
      (Sample.previewing Sample.clustering).
Proof.
  intros H.
  destruct (H Sample.clustering Sample.docs "a.pdf" Sample.a_pdf eq_refl
              (or_introl eq_refl) (or_introl eq_refl) eq_refl)
    as (pos & authorization & body & Hin & _).
  vm_compute in Hin. exact Hin.
Qed.

Lemma history_is_best_effort_witness :
  let s := Sample.previewing Sample.clustering_zero_images in
  let r := run (Sample.world Sample.fine) never (handleExecuteOrganize s) 0 s in
  log_calls (trace r)
  = history_records "C:\in" Sample.files "tok" confidence_or_default
      Sample.clustering_zero_images /\
  length (log_calls (trace r)) = 2 /\
  organizeStep (final r) = done.
Proof.
  destruct (history_is_best_effort (Sample.world Sample.fine)
              (Sample.previewing Sample.clustering_zero_images)
              Sample.clustering_zero_images (MoveResult.mk true 2 []) eq_refl
              eq_refl eq_refl)
    as (H1 & _ & H3 & _).
  split; [exact H1 | split; [rewrite H1; reflexivity | rewrite H3; reflexivity]].
Defined.

(** The records of the sample: the confidence of [Docs] as given, the
    default for [Images], which has none. *)
Example history_sample :
  map
    (fun c =>
       match c with
       | post_actions_log _ _ body =>
           (LogRequest.dest_path body, LogRequest.confidence body)
       | _ => ("", 0%float)
       end)
    (history_records "C:\in" Sample.files "tok" declared_confidence
       Sample.clustering)
  = [("C:\in\Docs\a.pdf", 0.75%float); ("C:\in\Docs\c.txt", 0.75%float);
     ("C:\in\Images\b.jpg", 0.9%float)].
Proof. reflexivity. Qed.

(** Records are written even when every one of them is refused. *)
Example history_all_refused :
  let W :=
    Sample.world
      (Sample.with_logging (fun _ => Rejected (Thrown "offline")) Sample.fine) in
  let s := Sample.previewing Sample.clustering in
  final (run W never (handleExecuteOrganize s) 0 s)
  = final (run (Sample.world Sample.fine) never (handleExecuteOrganize s) 0 s)
  /\ length (log_calls (trace (run W never (handleExecuteOrganize s) 0 s))) = 3.
Proof. vm_compute. split; reflexivity. Qed.

(** A confidence of zero is falsy for [||], so the record carries the
    default instead of the suggestion's value. *)
Example history_zero_confidence :
  let s := Sample.previewing Sample.clustering_zero in
  map
    (fun c =>
       match c with
       | post_actions_log _ _ body => LogRequest.confidence body
       | _ => 0%float
       end)
    (log_calls
       (trace
          (run (Sample.world Sample.fine) never (handleExecuteOrganize s) 0 s)))
  = [0.9%float].
Proof. reflexivity. Qed.

(** ** The analysis stage of [handleStartOrganize] *)

Lemma status_write_set (v : string) : status_write (setOrganizeStatus v).
Proof. exists v. reflexivity. Qed.

Lemma scan_existing_within (s : State) (files : list ScannedFile.t) :
  within status_write not_analyze (scan_existing s files).
Proof.
  unfold scan_existing. destruct (useExistingFolders s); [| constructor].
  constructor; [reflexivity |].
  intros [e | existingFolders]; repeat constructor. apply status_write_set.
Qed.

Lemma extract_one_within (t : option string) (j : nat) (file : ScannedFile.t)
    (fs : list ApiFile.t) :
  within status_write not_analyze (extract_one t j file fs).
Proof.
  unfold extract_one. constructor; [reflexivity |].
  intros [e | content]; [repeat constructor |].
  destruct (0 <? len content)%Z; [| constructor].
  constructor; [reflexivity |].
  intros [e | response]; [repeat constructor |].
  cbn zeta. destruct (_ && _); constructor.
Qed.

Lemma extract_tasks_within (t : option string)
    (tasks : list (nat * ScannedFile.t)) :
  forall fs, within status_write not_analyze (extract_tasks t tasks fs).
Proof.
  induction tasks as [| [j file] tasks IH]; intros fs; cbn [extract_tasks].
  - constructor.
  - apply within_bind; [apply extract_one_within | intros fs'; apply IH].
Qed.

Lemma extract_loop_within (t : option string) (files : list ScannedFile.t)
    (fuel : nat) :
  forall i fs, within status_write not_analyze (extract_loop fuel t files i fs).
Proof.
  induction fuel as [| fuel IH]; intros i fs; cbn [extract_loop].
  - constructor.
  - destruct (i <? length files)%nat; [| constructor].
    apply within_bind; [apply extract_tasks_within |].
    intros fs'. constructor; [apply status_write_set | apply IH].
Qed.

Lemma extract_content_within (s : State) (t : option string)
    (files : list ScannedFile.t) :
  within status_write not_analyze (extract_content s t files).
Proof.
  unfold extract_content. destruct (useContentExtraction s); [| constructor].
  constructor; [apply status_write_set |].
  apply within_bind; [apply extract_loop_within |].
  intros fs'. constructor; [apply status_write_set | constructor].
Qed.

Lemma reset_congr (a b : State) :
  but_status a = but_status b -> resetOrganize a = resetOrganize b.
Proof.
  intros H. change (resetOrganize (but_status a) = resetOrganize (but_status b)).
  rewrite H. reflexivity.
Qed.

(** The run of what follows a present token: the two preparatory stages,
    which only touch the status line and issue no analysis call, and then
    the analysis. *)
Lemma after_token_run (W : World) (cancel_at : nat -> bool) (s : State)
    (files : list ScannedFile.t) (t : option string) (n : nat) (st : State) :
  truthy_opt t = true ->
  exists existing fs n2 st2 tr12,
    run W cancel_at (after_token s files t) n st
    = (let '(a, n3, fin, tr3) :=
         run W cancel_at (analyze s t fs existing) n2 st2 in
       (a, n3, fin, tr12 ++ tr3)) /\
    Forall (event_call not_analyze) tr12 /\
    but_status st2
    = but_status (if cancelled tr12 then resetOrganize st else st).
Proof.
  intros Ht. unfold after_token. rewrite Ht. cbn [negb].
  rewrite run_bind.
  pose proof (within_trace _ _ W cancel_at _ (scan_existing_within s files) n st)
    as Htr1.
  pose proof (status_frame _ W cancel_at _ (scan_existing_within s files) n st)
    as Hst1.
  destruct (run W cancel_at (scan_existing s files) n st)
    as [[[existing n1] st1] tr1].
  unfold trace, final in Htr1, Hst1. cbn [fst snd] in Htr1, Hst1.
  rewrite run_bind.
  pose proof (within_trace _ _ W cancel_at _ (extract_content_within s t files)
                n1 st1) as Htr2.
  pose proof (status_frame _ W cancel_at _ (extract_content_within s t files)
                n1 st1) as Hst2.
  destruct (run W cancel_at (extract_content s t files) n1 st1)
    as [[[fs n2] st2] tr2].
  unfold trace, final in Htr2, Hst2. cbn [fst snd] in Htr2, Hst2.
  exists existing, fs, n2, st2, (tr1 ++ tr2).
  split; [| split].
  - destruct (run W cancel_at (analyze s t fs existing) n2 st2)
      as [[[a n3] fin] tr3].
    rewrite app_assoc. reflexivity.
  - apply Forall_app. split; assumption.
  - rewrite Hst2, cancelled_app.
    destruct (cancelled tr1), (cancelled tr2); cbn [orb];
      rewrite ?(reset_congr _ _ Hst1), ?reset_idempotent; auto.
Qed.

(** What the settled analysis leaves behind. *)
Lemma analyzed_run (W : World) (cancel_at : nat -> bool)
    (r : result (Response.t OrganizeResult.t)) (n : nat) (st : State) :
  exists fin,
    run W cancel_at (analyzed r) n st = (tt, n, fin, []) /\
    scannedFiles fin = scannedFiles st /\
    selectedFolder fin = selectedFolder st /\
    match r with
    | Fulfilled response =>
        if Response.ok response then
          organizeStep fin = preview /\
          organizeResult fin = Some (Response.data response)
        else
          organizeStep fin = idle /\
          organizeResult fin = organizeResult st /\
          ((Response.status response = 401)%Z ->
           organizeStatus fin = "❌ Ошибка: " +:+ session_expired)
    | Rejected e =>
        organizeStep fin = idle /\
        organizeResult fin = organizeResult st /\
        organizeStatus fin = "❌ Ошибка: " +:+ error_text e
    end.
Proof.
  unfold analyzed. destruct r as [e | response].
  - eexists. split; [reflexivity |]. repeat split.
  - destruct (Response.ok response); cbn [negb].
    + eexists. split; [reflexivity |]. repeat split.
    + destruct (Response.status response =? 401)%Z eqn:E.
      * eexists. split; [reflexivity |]. repeat split.
      * eexists. split; [reflexivity |]. repeat split.
        intros E'. rewrite E' in E. discriminate E.
Qed.

Ltac not_reached Hin :=
  exfalso; cbn in Hin; intuition discriminate.

(** C3, amended. In a session in which the analysis call is answered with
    status 401, the handler ends in the idle step with the session-expired
    message; the scanned-file list is kept: it still is the non-empty list
    the scan returned. *)
Theorem analysis_unauthorized (W : World) (s : State) (authorization : string)
    (body : AnalyzeRequest.t) (response : Response.t OrganizeResult.t) :
  In (EvCall (post_analyze authorization body))
    (trace (run W never (handleStartOrganize s) 0 s)) ->
  W (post_analyze authorization body) = Fulfilled response ->
  Response.ok response = false ->
  Response.status response = 401%Z ->
  organizeStep (final (run W never (handleStartOrganize s) 0 s)) = idle /\
  organizeStatus (final (run W never (handleStartOrganize s) 0 s))
  = "❌ Ошибка: " +:+ session_expired /\
  exists files,
    W (scan_folder_for_organize (selectedFolder s)) = Fulfilled files /\
    files <> [] /\
    scannedFiles (final (run W never (handleStartOrganize s) 0 s)) = files.
Proof.
  unfold handleStartOrganize.
  destruct (truthy (selectedFolder s)); cbn [negb]; [| intros []].
  cbn [run never].
  destruct (W (scan_folder_for_organize (selectedFolder s))) as [e | files];
    [intros Hin; not_reached Hin |].
  unfold after_scan.
  destruct (len files =? 0)%Z eqn:Hempty; [intros Hin; not_reached Hin |].
  destruct (len files >? 5000)%Z; [intros Hin; not_reached Hin |].
  cbn [run never].
  destruct (W get_access_token) as [e | t]; [intros Hin; not_reached Hin |].
  destruct (truthy_opt t) eqn:Ht;
    [| unfold after_token; rewrite Ht; intros Hin; not_reached Hin].
  match goal with
  | |- context [run W never (after_token s files t) 2 ?st] =>
      destruct (after_token_run W never s files t 2 st Ht)
        as (existing & fs & n2 & st2 & tr12 & Hrun & Hcalls & Hframe);
      pose proof (never_cancelled W (after_token s files t) 2 st) as Hnever;
      rewrite Hrun in *
  end.
  unfold analyze in *. cbn [run never] in *.
  destruct (analyzed_run W never
              (W (post_analyze (bearer (or_empty t))
                    (analyze_request s fs existing))) (S n2) st2)
    as (fin & Hfin & Hscanned & _ & Hresult).
  rewrite Hfin in *.
  unfold trace, final in *. cbn [fst snd] in *.
  rewrite cancelled_app in Hnever. apply orb_false_elim in Hnever.
  destruct Hnever as [Hnever _]. rewrite Hnever in Hframe.
  intros Hin Hresp Hok Hstatus.
  assert (Hrequest :
            bearer (or_empty t) = authorization /\
            analyze_request s fs existing = body).
  { cbn in Hin. destruct Hin as [Hin | [Hin | Hin]]; try discriminate Hin.
    apply in_app_or in Hin. destruct Hin as [Hin | Hin].
    - exfalso. rewrite List.Forall_forall in Hcalls.
      specialize (Hcalls _ Hin). cbn in Hcalls. discriminate Hcalls.
    - cbn in Hin. destruct Hin as [Hin | []]. injection Hin as H1 H2.
      split; assumption. }
  destruct Hrequest as [<- <-].
  rewrite Hresp, Hok in Hresult.
  destruct Hresult as (Hstep & _ & Hmsg).
  split; [exact Hstep |]. split; [exact (Hmsg Hstatus) |].
  exists files. split; [reflexivity |]. split.
  - intros ->. discriminate Hempty.
  - rewrite Hscanned. exact (f_equal scannedFiles Hframe).
Qed.

(** C3, as stated, fails: the [catch] clause sets the status and the step
    and leaves the scanned files in place. *)
Lemma unauthorized_keeps_files :
  ~ unauthorized_discards_files
      (Sample.world
         (Sample.with_analysis
            (Fulfilled (Response.mk false 401 Sample.clustering)) Sample.fine))
      Sample.picked.
Proof.
  intros H.
  destruct (H "Bearer tok"
              (analyze_request Sample.picked (map to_api Sample.files) [])
              (Response.mk false 401 Sample.clustering))
    as (_ & _ & Hfiles); try reflexivity.
  - do 3 right. left. reflexivity.
  - vm_compute in Hfiles. discriminate Hfiles.
Qed.

Lemma analysis_unauthorized_witness :
  let W :=
    Sample.world
      (Sample.with_analysis
         (Fulfilled (Response.mk false 401 Sample.clustering)) Sample.fine) in
  let r := run W never (handleStartOrganize Sample.picked) 0 Sample.picked in
  organizeStep (final r) = idle /\
  organizeStatus (final r)
  = "❌ Ошибка: Сессия истекла. Перезайдите в Настройках → Выйти.".
Proof.
  destruct (analysis_unauthorized
              (Sample.world
                 (Sample.with_analysis
                    (Fulfilled (Response.mk false 401 Sample.clustering))
                    Sample.fine))
              Sample.picked "Bearer tok"
              (analyze_request Sample.picked (map to_api Sample.files) [])
              (Response.mk false 401 Sample.clustering)
              (or_intror (or_intror (or_intror (or_introl eq_refl))))
              eq_refl eq_refl eq_refl)
    as (H1 & H2 & _).
  split; [exact H1 | exact H2].
Defined.

Example unauthorized_sample :
  let W :=
    Sample.world
      (Sample.with_analysis
         (Fulfilled (Response.mk false 401 Sample.clustering)) Sample.fine) in
  scannedFiles
    (final (run W never (handleStartOrganize Sample.picked) 0 Sample.picked))
  = Sample.files.
Proof. reflexivity. Qed.

(** * Further properties *)

(** ** The handlers at their edges *)

(** X1. [resetOrganize] disarms the three handlers: started from the cells it
    leaves (no folder, no plan), each of them returns at once, with no call
    and no write. *)
Theorem reset_disarms_handlers (W : World) (cancel_at : nat -> bool)
    (st : State) (n : nat) :
  run W cancel_at (handleStartOrganize (resetOrganize st)) n (resetOrganize st)
  = (tt, n, resetOrganize st, []) /\
  run W cancel_at (handleExecuteOrganize (resetOrganize st)) n (resetOrganize st)
  = (tt, n, resetOrganize st, []) /\
  run W cancel_at (handleGenerateRules (resetOrganize st)) n (resetOrganize st)
  = (tt, n, resetOrganize st, []).
Proof. repeat split. Qed.

(** X2. When the scan of the folder is rejected, the start handler reports
    the error in the status line, goes back to [idle], touches no other cell
    and makes no further call. *)
Theorem start_scan_failure (W : World) (s : State) (e : js_error) :
  truthy (selectedFolder s) = true ->
  W (scan_folder_for_organize (selectedFolder s)) = Rejected e ->
  final (run W never (handleStartOrganize s) 0 s)
  = setOrganizeStep idle (setOrganizeStatus ("❌ Ошибка: " +:+ error_text e) s) /\
  calls (trace (run W never (handleStartOrganize s) 0 s))
  = [scan_folder_for_organize (selectedFolder s)].
Proof.
  intros Hsel Hscan. unfold handleStartOrganize. rewrite Hsel.
  cbn [negb run never]. rewrite Hscan. split; reflexivity.
Qed.

(** X3. Whatever the calls answer and whenever the user cancels, a started
    analysis never ends in a busy step: it ends in [idle], or in [preview]
    with a plan in place. *)
Theorem start_never_stays_busy (W : World) (cancel_at : nat -> bool) (s : State) :
  truthy (selectedFolder s) = true ->
  (organizeStep (final (run W cancel_at (handleStartOrganize s) 0 s)) = idle \/
   organizeStep (final (run W cancel_at (handleStartOrganize s) 0 s)) = preview /\
   exists plan,
     organizeResult (final (run W cancel_at (handleStartOrganize s) 0 s))
     = Some plan).
Proof.
  intros Hsel. unfold handleStartOrganize. rewrite Hsel. cbn [negb run].
  destruct (W (scan_folder_for_organize (selectedFolder s))) as [e | files];
    [left; reflexivity |].
  unfold after_scan.
  destruct (len files =? 0)%Z; [left; reflexivity |].
  destruct (len files >? 5000)%Z; [left; reflexivity |].
  cbn [run].
  destruct (W get_access_token) as [e | t]; [left; reflexivity |].
  destruct (truthy_opt t) eqn:Ht;
    [| unfold after_token; rewrite Ht; left; reflexivity].
  match goal with
  | |- context [run W cancel_at (after_token s files t) 2 ?st] =>
      destruct (after_token_run W cancel_at s files t 2 st Ht)
        as (existing & fs & n2 & st2 & tr12 & -> & _ & _)
  end.
  unfold analyze. cbn [run].
  match goal with
  | |- context [run W cancel_at (analyzed ?r) ?m ?st] =>
      destruct (analyzed_run W cancel_at r m st) as (fin & -> & _ & _ & Hres);
      destruct r as [e | response]
  end.
  - left. apply Hres.
  - unfold final. cbn [fst snd]. destruct (Response.ok response).
    + right. destruct Hres as [Hstep Hplan]. split; [exact Hstep | eauto].
    + left. apply Hres.
Qed.

Lemma after_moves_ends (W : World) (cancel_at : nat -> bool) (sel : string)
    (scanned : list ScannedFile.t) (plan : OrganizeResult.t)
    (result : MoveResult.t) (n : nat) (st : State) :
  organizeStep (final (run W cancel_at (after_moves sel scanned plan result) n st))
  = done \/
  organizeStep (final (run W cancel_at (after_moves sel scanned plan result) n st))
  = preview.
Proof.
  unfold after_moves.
  destruct (MoveResult.success result || (MoveResult.moved_count result >? 0)%Z);
    [| left; reflexivity].
  cbn [run].
  destruct (W get_access_token) as [e | t]; [right; reflexivity |].
  rewrite run_bind.
  destruct (run W cancel_at (if truthy_opt t then _ else _) _ _)
    as [[[a n1] st1] tr1].
  left. reflexivity.
Qed.

(** X4. Whatever the calls answer and whenever the user cancels, an
    execution that got past its guards ends in [done] or in [preview]. *)
Theorem execute_never_stays_busy (W : World) (cancel_at : nat -> bool)
    (s : State) (plan : OrganizeResult.t) :
  organizeResult s = Some plan ->
  truthy (selectedFolder s) = true ->
  organizeStep (final (run W cancel_at (handleExecuteOrganize s) 0 s)) = done \/
  organizeStep (final (run W cancel_at (handleExecuteOrganize s) 0 s)) = preview.
Proof.
  intros Hplan Hsel. unfold handleExecuteOrganize. rewrite Hplan, Hsel.
  cbn [negb run].
  destruct (W (execute_file_moves _ _ _)) as [e | moved]; [right; reflexivity |].
  match goal with
  | |- context [run W cancel_at (after_moves ?a ?b ?c ?d) ?m ?st] =>
      pose proof (after_moves_ends W cancel_at a b c d m st) as Hends;
      destruct (run W cancel_at (after_moves a b c d) m st) as [[[x n1] st1] tr1]
  end.
  exact Hends.
Qed.

Lemma after_token_parts (W : World) (cancel_at : nat -> bool) (s : State)
    (files : list ScannedFile.t) (t : option string) (n : nat) (st : State) :
  truthy_opt t = true ->
  run W cancel_at (after_token s files t) n st
  = (let '(existing, n1, st1, tr1) := run W cancel_at (scan_existing s files) n st in
     let '(fs, n2, st2, tr2) :=
       run W cancel_at (extract_content s t files) n1 st1 in
     let '(a, n3, fin, tr3) := run W cancel_at (analyze s t fs existing) n2 st2 in
     (a, n3, fin, tr1 ++ tr2 ++ tr3)).
Proof.
  intros Ht. unfold after_token. rewrite Ht. cbn [negb]. rewrite run_bind.
  destruct (run W cancel_at (scan_existing s files) n st)
    as [[[existing n1] st1] tr1].
  rewrite run_bind.
  destruct (run W cancel_at (extract_content s t files) n1 st1)
    as [[[fs n2] st2] tr2].
  destruct (run W cancel_at (analyze s t fs existing) n2 st2)
    as [[[a n3] fin] tr3].
  rewrite app_assoc. reflexivity.
Qed.

Lemma scan_existing_value (W : World) (cancel_at : nat -> bool) (s : State)
    (files : list ScannedFile.t) (n : nat) (st : State) :
  value (run W cancel_at (scan_existing s files) n st) = existing_hint W s.
Proof.
  unfold scan_existing, existing_hint.
  destruct (useExistingFolders s); [| reflexivity].
  rewrite value_await.
  destruct (W (scan_existing_folders (selectedFolder s))); reflexivity.
Qed.

Lemma scan_existing_preparing (s : State) (t : option string)
    (files : list ScannedFile.t) :
  within status_write (preparing_call s t) (scan_existing s files).
Proof.
  unfold scan_existing. destruct (useExistingFolders s); [| constructor].
  constructor; [reflexivity |].
  intros [e | existingFolders]; repeat constructor. apply status_write_set.
Qed.

Lemma extract_one_preparing (s : State) (t : option string) (j : nat)
    (file : ScannedFile.t) (fs : list ApiFile.t) :
  within status_write (preparing_call s t) (extract_one t j file fs).
Proof.
  unfold extract_one. constructor; [reflexivity |].
  intros [e | content]; [repeat constructor |].
  destruct (0 <? len content)%Z; [| constructor].
  constructor; [reflexivity |].
  intros [e | response]; [repeat constructor |].
  cbn zeta. destruct (_ && _); constructor.
Qed.

Lemma extract_tasks_preparing (s : State) (t : option string)
    (tasks : list (nat * ScannedFile.t)) :
  forall fs, within status_write (preparing_call s t) (extract_tasks t tasks fs).
Proof.
  induction tasks as [| [j file] tasks IH]; intros fs; cbn [extract_tasks].
  - constructor.
  - apply within_bind; [apply extract_one_preparing | intros fs'; apply IH].
Qed.

Lemma extract_loop_preparing (s : State) (t : option string)
    (files : list ScannedFile.t) (fuel : nat) :
  forall i fs,
    within status_write (preparing_call s t) (extract_loop fuel t files i fs).
Proof.
  induction fuel as [| fuel IH]; intros i fs; cbn [extract_loop].
  - constructor.
  - destruct (i <? length files)%nat; [| constructor].
    apply within_bind; [apply extract_tasks_preparing |].
    intros fs'. constructor; [apply status_write_set | apply IH].
Qed.

Lemma extract_content_preparing (s : State) (t : option string)
    (files : list ScannedFile.t) :
  within status_write (preparing_call s t) (extract_content s t files).
Proof.
  unfold extract_content. destruct (useContentExtraction s); [| constructor].
  constructor; [apply status_write_set |].
  apply within_bind; [apply extract_loop_preparing |].
  intros fs'. constructor; [apply status_write_set | constructor].
Qed.

(** Every run of the handler that gets past the token, laid out. *)
Lemma start_layout (W : World) (cancel_at : nat -> bool) (s : State) :
  truthy (selectedFolder s) = true ->
  (Forall (event_call (fun c => is_remote c = false))
     (trace (run W cancel_at (handleStartOrganize s) 0 s))) \/
  (exists files t st2 n2 tr0 tr12,
     W (scan_folder_for_organize (selectedFolder s)) = Fulfilled files /\
     (0 < len files <= 5000)%Z /\
     W get_access_token = Fulfilled t /\
     truthy_opt t = true /\
     Forall (event_call (fun c => is_remote c = false)) tr0 /\
     cancelled tr0 = cancel_at 0 || cancel_at 1 /\
     Forall (event_call (preparing_call s t)) tr12 /\
     run W cancel_at (handleStartOrganize s) 0 s
     = (let '(a, n3, fin, tr3) :=
          run W cancel_at
            (analyze s t
               (if useContentExtraction s then upto W t files (length files)
                else map to_api files)
               (existing_hint W s)) n2 st2 in
        (a, n3, fin, tr0 ++ tr12 ++ tr3)) /\
     but_status st2
     = but_status
         (if cancelled tr12 || cancel_at 1 then
            resetOrganize s
          else
            setOrganizeStep analyzing
              (setScannedFiles files
                 (if cancel_at 0 then resetOrganize s else s)))).
Proof.
  intros Hsel. unfold handleStartOrganize. rewrite Hsel. cbn [negb run].
  destruct (W (scan_folder_for_organize (selectedFolder s))) as [e | files];
    [left; destruct (cancel_at 0); repeat constructor |].
  unfold after_scan.
  destruct (len files =? 0)%Z eqn:Hempty;
    [left; destruct (cancel_at 0); repeat constructor |].
  destruct (len files >? 5000)%Z eqn:Hmany;
    [left; destruct (cancel_at 0); repeat constructor |].
  cbn [run].
  destruct (W get_access_token) as [e | t];
    [left; destruct (cancel_at 0), (cancel_at 1); repeat constructor |].
  destruct (truthy_opt t) eqn:Ht;
    [| unfold after_token; rewrite Ht; left;
       destruct (cancel_at 0), (cancel_at 1); repeat constructor].
  right.
  match goal with
  | |- context [run W cancel_at (after_token s files t) 2 ?st] =>
      set (st1 := st); rewrite (after_token_parts W cancel_at s files t 2 st1 Ht)
  end.
  pose proof (scan_existing_value W cancel_at s files 2 st1) as Hex.
  pose proof (within_trace _ _ W cancel_at _
                (scan_existing_preparing s t files) 2 st1) as Htr1.
  pose proof (status_frame _ W cancel_at _
                (scan_existing_preparing s t files) 2 st1) as Hst1.
  destruct (run W cancel_at (scan_existing s files) 2 st1)
    as [[[existing n1] sta] tr1].
  unfold value, trace, final in Hex, Htr1, Hst1. cbn [fst snd] in Hex, Htr1, Hst1.
  subst existing.
  pose proof (extract_content_value W cancel_at s t files n1 sta) as Hfs.
  pose proof (within_trace _ _ W cancel_at _
                (extract_content_preparing s t files) n1 sta) as Htr2.
  pose proof (status_frame _ W cancel_at _
                (extract_content_preparing s t files) n1 sta) as Hst2.
  destruct (run W cancel_at (extract_content s t files) n1 sta)
    as [[[fs n2] st2] tr2].
  unfold value, trace, final in Hfs, Htr2, Hst2. cbn [fst snd] in Hfs, Htr2, Hst2.
  subst fs.
  exists files, t, st2, n2.
  exists ((if cancel_at 0
           then [EvCall (scan_folder_for_organize (selectedFolder s));
                 EvCancel (scan_folder_for_organize (selectedFolder s))]
           else [EvCall (scan_folder_for_organize (selectedFolder s))])
          ++ (if cancel_at 1
              then [EvCall get_access_token; EvCancel get_access_token]
              else [EvCall get_access_token])),
    (tr1 ++ tr2).
  split; [reflexivity |].
  split; [apply Z.eqb_neq in Hempty; unfold len in *; lia |].
  split; [reflexivity |]. split; [exact Ht |].
  split; [destruct (cancel_at 0), (cancel_at 1); repeat constructor |].
  split; [destruct (cancel_at 0), (cancel_at 1); reflexivity |].
  split; [apply Forall_app; split; assumption |].
  split.
  - destruct (run W cancel_at (analyze s t _ _) n2 st2) as [[[a n3] fin] tr3].
    rewrite <- !app_assoc. reflexivity.
  - rewrite Hst2, cancelled_app.
    destruct (cancelled tr2).
    + rewrite (reset_congr _ _ Hst1), orb_true_r. cbn [orb].
      subst st1.
      destruct (cancelled tr1), (cancel_at 1), (cancel_at 0); reflexivity.
    + rewrite Hst1, orb_false_r. subst st1.
      destruct (cancelled tr1), (cancel_at 1), (cancel_at 0); reflexivity.
Qed.

Lemma copy_existing (l : list ExistingFolder.t) :
  map
    (fun f =>
       ExistingFolder.mk (ExistingFolder.folder_name f)
         (ExistingFolder.folder_path f) (ExistingFolder.sample_files f)
         (ExistingFolder.file_count f)) l = l.
Proof.
  induction l as [| [a b c d] l IH]; [reflexivity |].
  cbn. f_equal. exact IH.
Qed.

(** The analysis request of a run, and the state it is answered in. *)
Lemma start_analysis_call (W : World) (cancel_at : nat -> bool) (s : State)
    (authorization : string) (body : AnalyzeRequest.t) :
  In (EvCall (post_analyze authorization body))
    (trace (run W cancel_at (handleStartOrganize s) 0 s)) ->
  exists files t st3 n3 tr,
    W (scan_folder_for_organize (selectedFolder s)) = Fulfilled files /\
    (0 < len files <= 5000)%Z /\
    W get_access_token = Fulfilled t /\
    truthy_opt t = true /\
    authorization = bearer (or_empty t) /\
    body
    = analyze_request s
        (if useContentExtraction s then upto W t files (length files)
         else map to_api files)
        (existing_hint W s) /\
    run W cancel_at (handleStartOrganize s) 0 s
    = (let '(a, n', fin, tr3) :=
         run W cancel_at (analyzed (W (post_analyze authorization body))) n3 st3
       in (a, n', fin, tr ++ tr3)) /\
    (cancelled tr = false ->
     but_status st3
     = but_status (setOrganizeStep analyzing (setScannedFiles files s))).
Proof.
  intros Hin.
  destruct (truthy (selectedFolder s)) eqn:Hsel;
    [| unfold handleStartOrganize in Hin; rewrite Hsel in Hin; destruct Hin].
  destruct (start_layout W cancel_at s Hsel)
    as [Hlocal
       | (files & t & st2 & n2 & tr0 & tr12 & Hscan & Hlen & Htok & Ht & Htr0
          & Hc0 & Htr12 & Hrun & Hst2)].
  { exfalso. rewrite List.Forall_forall in Hlocal. specialize (Hlocal _ Hin).
    discriminate Hlocal. }
  rewrite Hrun in *. unfold analyze in *. cbn [run] in *.
  match type of Hin with
  | context [run W cancel_at (analyzed ?r) ?m ?st] =>
      destruct (analyzed_run W cancel_at r m st) as (fin & Hfin & _)
  end.
  rewrite Hfin in Hin. unfold trace in Hin. cbn [fst snd] in Hin.
  assert (Hreq :
            authorization = bearer (or_empty t) /\
            body
            = analyze_request s
                (if useContentExtraction s then upto W t files (length files)
                 else map to_api files)
                (existing_hint W s)).
  { apply in_app_or in Hin. destruct Hin as [Hin | Hin].
    { exfalso. rewrite List.Forall_forall in Htr0. specialize (Htr0 _ Hin).
      discriminate Htr0. }
    apply in_app_or in Hin. destruct Hin as [Hin | Hin].
    { exfalso. rewrite List.Forall_forall in Htr12. specialize (Htr12 _ Hin).
      exact Htr12. }
    rewrite app_nil_r in Hin.
    destruct (cancel_at n2); cbn in Hin;
      intuition (try discriminate);
      match goal with
      | H : EvCall _ = EvCall _ |- _ => injection H as H1 H2; auto
      end. }
  destruct Hreq as [-> ->].
  set (request :=
         post_analyze (bearer (or_empty t))
           (analyze_request s
              (if useContentExtraction s then upto W t files (length files)
               else map to_api files) (existing_hint W s))) in *.
  exists files, t, (if cancel_at n2 then resetOrganize st2 else st2), (S n2).
  exists (tr0 ++ tr12
          ++ (if cancel_at n2 then [EvCall request; EvCancel request]
              else [EvCall request])).
  repeat (split; [assumption || reflexivity |]).
  split.
  - destruct (run W cancel_at (analyzed _) (S n2) _) as [[[a n3] fin'] tr3].
    rewrite <- !app_assoc. reflexivity.
  - rewrite !cancelled_app. intros Hnone.
    apply orb_false_elim in Hnone. destruct Hnone as [H0 Hnone].
    apply orb_false_elim in Hnone. destruct Hnone as [H12 Hn2].
    destruct (cancel_at n2); [discriminate Hn2 |].
    rewrite Hc0 in H0. apply orb_false_elim in H0. destruct H0 as [H0 H1].
    rewrite H12, H0, H1 in Hst2. exact Hst2.
Qed.

(** X5. When the analysis request of an undisturbed run is fulfilled with an
    accepted response, the session ends in [preview] with the response's
    plan, the status line counts its folders, and the scanned files are the
    ones the scan gave. *)
Theorem analysis_success (W : World) (s : State) (authorization : string)
    (body : AnalyzeRequest.t) (response : Response.t OrganizeResult.t) :
  In (EvCall (post_analyze authorization body))
    (trace (run W never (handleStartOrganize s) 0 s)) ->
  W (post_analyze authorization body) = Fulfilled response ->
  Response.ok response = true ->
  organizeStep (final (run W never (handleStartOrganize s) 0 s)) = preview /\
  organizeResult (final (run W never (handleStartOrganize s) 0 s))
  = Some (Response.data response) /\
  organizeStatus (final (run W never (handleStartOrganize s) 0 s))
  = "Готово: "
    +:+ string_of_Z (OrganizeResult.total_folders (Response.data response))
    +:+ " папок" /\
  exists files,
    W (scan_folder_for_organize (selectedFolder s)) = Fulfilled files /\
    scannedFiles (final (run W never (handleStartOrganize s) 0 s)) = files.
Proof.
  intros Hin Hresp Hok.
  destruct (start_analysis_call W never s authorization body Hin)
    as (files & t & st3 & n3 & tr & Hscan & _ & _ & _ & _ & _ & Hrun & Hst3).
  pose proof (never_cancelled W (handleStartOrganize s) 0 s) as Hnever.
  rewrite Hrun in *. rewrite Hresp in *. unfold analyzed in *.
  rewrite Hok in *. cbn [negb run] in *.
  unfold trace, final in *. cbn [fst snd] in *.
  rewrite cancelled_app in Hnever. apply orb_false_elim in Hnever.
  specialize (Hst3 (proj1 Hnever)).
  repeat split. exists files. split; [exact Hscan |].
  exact (f_equal scannedFiles Hst3).
Qed.

(** X6. When the analysis request of an undisturbed run is rejected or
    refused, the session goes back to [idle] with the plan it had, the
    status line carries the error (the session hint for 401, the status code
    otherwise), and the scanned files stay. *)
Theorem analysis_failure (W : World) (s : State) (authorization : string)
    (body : AnalyzeRequest.t) :
  In (EvCall (post_analyze authorization body))
    (trace (run W never (handleStartOrganize s) 0 s)) ->
  match W (post_analyze authorization body) with
  | Rejected _ => True
  | Fulfilled response => Response.ok response = false
  end ->
  organizeStep (final (run W never (handleStartOrganize s) 0 s)) = idle /\
  organizeResult (final (run W never (handleStartOrganize s) 0 s))
  = organizeResult s /\
  organizeStatus (final (run W never (handleStartOrganize s) 0 s))
  = "❌ Ошибка: "
    +:+ match W (post_analyze authorization body) with
        | Rejected e => error_text e
        | Fulfilled response =>
            if (Response.status response =? 401)%Z then session_expired
            else "API error: " +:+ string_of_Z (Response.status response)
        end /\
  exists files,
    W (scan_folder_for_organize (selectedFolder s)) = Fulfilled files /\
    scannedFiles (final (run W never (handleStartOrganize s) 0 s)) = files.
Proof.
  intros Hin Hfail.
  destruct (start_analysis_call W never s authorization body Hin)
    as (files & t & st3 & n3 & tr & Hscan & _ & _ & _ & _ & _ & Hrun & Hst3).
  pose proof (never_cancelled W (handleStartOrganize s) 0 s) as Hnever.
  rewrite Hrun in *. unfold analyzed in *.
  destruct (W (post_analyze authorization body)) as [e | response].
  - cbn [run start_failed] in *. unfold trace, final in *. cbn [fst snd] in *.
    rewrite cancelled_app in Hnever. apply orb_false_elim in Hnever.
    specialize (Hst3 (proj1 Hnever)).
    split; [reflexivity |]. split; [exact (f_equal organizeResult Hst3) |].
    split; [reflexivity |]. exists files. split; [exact Hscan |].
    exact (f_equal scannedFiles Hst3).
  - rewrite Hfail in *. cbn [negb] in *.
    destruct (Response.status response =? 401)%Z;
      cbn [run start_failed] in *; unfold trace, final in *;
      cbn [fst snd] in *; rewrite cancelled_app in Hnever;
      apply orb_false_elim in Hnever; specialize (Hst3 (proj1 Hnever));
      (split; [reflexivity |]; split; [exact (f_equal organizeResult Hst3) |];
       split; [reflexivity |]; exists files; split; [exact Hscan |];
       exact (f_equal scannedFiles Hst3)).
Qed.

(** X7. The body of every analysis request: one entry per scanned file, in
    order, with the file's name, extension, size and path; the existing
    folders found (none when the option is off or their scan failed); the
    option cells of the render; and the cluster bounds 3 and 15. *)
Theorem analysis_request_payload (W : World) (cancel_at : nat -> bool)
    (s : State) (authorization : string) (body : AnalyzeRequest.t) :
  In (EvCall (post_analyze authorization body))
    (trace (run W cancel_at (handleStartOrganize s) 0 s)) ->
  exists files,
    W (scan_folder_for_organize (selectedFolder s)) = Fulfilled files /\
    Forall2
      (fun entry file =>
         ApiFile.filename entry = ScannedFile.filename file /\
         ApiFile.extension entry = ScannedFile.extension file /\
         ApiFile.size_bytes entry = ScannedFile.size_bytes file /\
         ApiFile.path entry = ScannedFile.path file)
      (AnalyzeRequest.files body) files /\
    AnalyzeRequest.existing_folders body = existing_hint W s /\
    AnalyzeRequest.use_existing_folders body = useExistingFolders s /\
    AnalyzeRequest.use_gemini_naming body = useGeminiNaming s /\
    AnalyzeRequest.use_gemini_full body = useGeminiFull s /\
    AnalyzeRequest.custom_prompt body = customPrompt s /\
    AnalyzeRequest.min_clusters body = 3%Z /\
    AnalyzeRequest.max_clusters body = 15%Z.
Proof.
  intros Hin.
  destruct (start_analysis_call W cancel_at s authorization body Hin)
    as (files & t & st3 & n3 & tr & Hscan & _ & _ & _ & _ & -> & _ & _).
  exists files. split; [exact Hscan |].
  unfold analyze_request.
  cbn [AnalyzeRequest.files AnalyzeRequest.existing_folders
         AnalyzeRequest.use_existing_folders AnalyzeRequest.use_gemini_naming
         AnalyzeRequest.use_gemini_full AnalyzeRequest.custom_prompt
         AnalyzeRequest.min_clusters AnalyzeRequest.max_clusters].
  split; [| rewrite copy_existing; repeat split].
  destruct (useContentExtraction s).
  - apply Forall2_same_length_lookup_2.
    + unfold upto. apply length_imap.
    + intros i entry file Hentry Hfile. rewrite upto_lookup, Hfile in Hentry.
      injection Hentry as <-.
      destruct (i <? length files)%nat; repeat split.
  - apply Forall2_same_length_lookup_2.
    + apply length_map.
    + intros i entry file Hentry Hfile.
      change (map to_api files) with (to_api <$> files) in Hentry.
      rewrite list_lookup_fmap, Hfile in Hentry. injection Hentry as <-.
      repeat split.
Qed.

(** X8. Every remote call of the start handler carries the bearer header
    made of the token the lookup returned, and that token is not empty. *)
Theorem remote_calls_carry_token (W : World) (cancel_at : nat -> bool)
    (s : State) (c : call) :
  In (EvCall c) (trace (run W cancel_at (handleStartOrganize s) 0 s)) ->
  is_remote c = true ->
  exists t,
    W get_access_token = Fulfilled t /\
    truthy_opt t = true /\
    authorization c = Some (bearer (or_empty t)).
Proof.
  intros Hin Hremote.
  destruct (truthy (selectedFolder s)) eqn:Hsel;
    [| unfold handleStartOrganize in Hin; rewrite Hsel in Hin; destruct Hin].
  destruct (start_layout W cancel_at s Hsel)
    as [Hlocal
       | (files & t & st2 & n2 & tr0 & tr12 & Hscan & Hlen & Htok & Ht & Htr0
          & Hc0 & Htr12 & Hrun & Hst2)].
  { exfalso. rewrite List.Forall_forall in Hlocal. specialize (Hlocal _ Hin).
    cbn in Hlocal. congruence. }
  exists t. split; [exact Htok |]. split; [exact Ht |].
  rewrite Hrun in Hin. unfold analyze in Hin. cbn [run] in Hin.
  match type of Hin with
  | context [run W cancel_at (analyzed ?r) ?m ?st] =>
      destruct (analyzed_run W cancel_at r m st) as (fin & Hfin & _)
  end.
  rewrite Hfin in Hin. unfold trace in Hin. cbn [fst snd] in Hin.
  apply in_app_or in Hin. destruct Hin as [Hin | Hin].
  { exfalso. rewrite List.Forall_forall in Htr0. specialize (Htr0 _ Hin).
    cbn in Htr0. congruence. }
  apply in_app_or in Hin. destruct Hin as [Hin | Hin].
  { rewrite List.Forall_forall in Htr12. specialize (Htr12 _ Hin).
    destruct c; cbn in *; try contradiction; try discriminate. congruence. }
  rewrite app_nil_r in Hin.
  destruct (cancel_at n2); cbn in Hin; intuition (try discriminate);
    match goal with
    | H : EvCall _ = EvCall _ |- _ => injection H as <-; reflexivity
    end.
Qed.

Lemma start_scan_failure_witness :
  let W :=
    Sample.world
      (Sample.with_scan (Rejected (Thrown "denied")) Sample.fine) in
  let r := run W never (handleStartOrganize Sample.picked) 0 Sample.picked in
  organizeStep (final r) = idle /\
  organizeStatus (final r) = "❌ Ошибка: denied" /\
  calls (trace r) = [scan_folder_for_organize "C:\in"].
Proof.
  destruct (start_scan_failure
              (Sample.world
                 (Sample.with_scan (Rejected (Thrown "denied")) Sample.fine))
              Sample.picked (Thrown "denied") eq_refl eq_refl) as [H1 H2].
  split; [rewrite H1; reflexivity | split; [rewrite H1; reflexivity |]].
  exact H2.
Defined.

Lemma start_never_stays_busy_witness :
  let r :=
    run (Sample.world Sample.fine) never (handleStartOrganize Sample.picked) 0
      Sample.picked in
  organizeStep (final r) = idle \/
  organizeStep (final r) = preview /\
  exists plan, organizeResult (final r) = Some plan.
Proof.
  exact (start_never_stays_busy (Sample.world Sample.fine) never Sample.picked
           eq_refl).
Defined.

Lemma execute_never_stays_busy_witness :
  let s := Sample.previewing Sample.clustering in
  let r := run (Sample.world Sample.fine) never (handleExecuteOrganize s) 0 s in
  organizeStep (final r) = done \/ organizeStep (final r) = preview.
Proof.
  exact (execute_never_stays_busy (Sample.world Sample.fine) never
           (Sample.previewing Sample.clustering) Sample.clustering eq_refl
           eq_refl).
Defined.

Lemma analysis_success_witness :
  let r :=
    run (Sample.world Sample.fine) never (handleStartOrganize Sample.picked) 0
      Sample.picked in
  organizeStep (final r) = preview /\
  organizeResult (final r) = Some Sample.clustering /\
  organizeStatus (final r) = "Готово: 2 папок".
Proof.
  destruct (analysis_success (Sample.world Sample.fine) Sample.picked
              "Bearer tok"
              (analyze_request Sample.picked (map to_api Sample.files) [])
              (Response.mk true 200 Sample.clustering)
              (or_intror (or_intror (or_intror (or_introl eq_refl))))
              eq_refl eq_refl)
    as (H1 & H2 & H3 & _).
  split; [exact H1 | split; [exact H2 | exact H3]].
Defined.

Lemma analysis_failure_witness :
  let W :=
    Sample.world
      (Sample.with_analysis (Rejected (ErrorObj "timeout")) Sample.fine) in
  let r := run W never (handleStartOrganize Sample.picked) 0 Sample.picked in
  organizeStep (final r) = idle /\
  organizeResult (final r) = None /\
  organizeStatus (final r) = "❌ Ошибка: timeout".
Proof.
  destruct (analysis_failure
              (Sample.world
                 (Sample.with_analysis (Rejected (ErrorObj "timeout"))
                    Sample.fine))
              Sample.picked "Bearer tok"
              (analyze_request Sample.picked (map to_api Sample.files) [])
              (or_intror (or_intror (or_intror (or_introl eq_refl))))
              I)
    as (H1 & H2 & H3 & _).
  split; [exact H1 | split; [exact H2 | exact H3]].
Defined.

Lemma analysis_request_payload_witness :
  let body := analyze_request Sample.picked (map to_api Sample.files) [] in
  AnalyzeRequest.existing_folders body
  = existing_hint (Sample.world Sample.fine) Sample.picked /\
  AnalyzeRequest.max_clusters body = 15%Z.
Proof.
  destruct (analysis_request_payload (Sample.world Sample.fine) never
              Sample.picked "Bearer tok"
              (analyze_request Sample.picked (map to_api Sample.files) [])
              (or_intror (or_intror (or_intror (or_introl eq_refl)))))
    as (files & _ & _ & H1 & _ & _ & _ & _ & _ & H2).
  split; [exact H1 | exact H2].
Defined.

Lemma remote_calls_carry_token_witness :
  exists t,
    Sample.world Sample.fine get_access_token = Fulfilled t /\
    truthy_opt t = true /\
    authorization
      (post_analyze "Bearer tok"
         (analyze_request Sample.picked (map to_api Sample.files) []))
    = Some (bearer (or_empty t)).
Proof.
  exact (remote_calls_carry_token (Sample.world Sample.fine) never
           Sample.picked
           (post_analyze "Bearer tok"
              (analyze_request Sample.picked (map to_api Sample.files) []))
           (or_intror (or_intror (or_intror (or_introl eq_refl))))
           eq_refl).
Defined.

(** ** The calls of the extraction *)

Lemma extract_one_calls (W : World) (t : option string) (j : nat)
    (file : ScannedFile.t) (fs : list ApiFile.t) (n : nat) (st : State) :
  calls (trace (run W never (extract_one t j file fs) n st))
  = task_calls W t j file.
Proof.
  unfold extract_one, task_calls. cbn [run never].
  destruct (W (read_file_content j (ScannedFile.path file) 50000))
    as [e | content]; [reflexivity |].
  destruct (0 <? len content)%Z; [| reflexivity].
  cbn [run never].
  destruct (W (post_extract_content j _ _)) as [e | response]; [reflexivity |].
  cbn zeta. destruct (_ && _); reflexivity.
Qed.

Lemma extract_tasks_calls (W : World) (t : option string)
    (tasks : list (nat * ScannedFile.t)) :
  forall fs n st,
    calls (trace (run W never (extract_tasks t tasks fs) n st))
    = concat (map (fun task => task_calls W t task.1 task.2) tasks).
Proof.
  induction tasks as [| [j file] tasks IH]; intros fs n st; [reflexivity |].
  cbn [extract_tasks map concat fst snd].
  destruct (trace_bind W never (extract_one t j file fs)
              (fun fs' => extract_tasks t tasks fs') n st) as (n1 & ->).
  rewrite calls_app, extract_one_calls, IH. reflexivity.
Qed.

Lemma window_tasks_calls (W : World) (t : option string) (i : nat)
    (batch : list ScannedFile.t) :
  concat (map (fun task => task_calls W t task.1 task.2) (window_tasks i batch))
  = concat (imap (fun k file => task_calls W t (i + k) file) batch).
Proof.
  unfold window_tasks. f_equal.
  change (map ?f ?l) with (f <$> l). rewrite fmap_imap. reflexivity.
Qed.

Lemma extract_loop_calls (W : World) (t : option string)
    (files : list ScannedFile.t) (fuel : nat) :
  forall i fs n st,
    length files <= i + batchSize * fuel ->
    calls (trace (run W never (extract_loop fuel t files i fs) n st))
    = concat (imap (fun k file => task_calls W t (i + k) file) (drop i files)).
Proof.
  induction fuel as [| fuel IH]; intros i fs n st Hfuel.
  - rewrite drop_ge by lia. reflexivity.
  - cbn [extract_loop]. destruct (i <? length files)%nat eqn:Ei.
    + match goal with
      | |- context [run W never (bind ?p ?f) n st] =>
          destruct (trace_bind W never p f n st) as (n1 & ->)
      end.
      rewrite calls_app, extract_tasks_calls, window_tasks_calls.
      cbn [run]. rewrite IH by (unfold batchSize in *; lia).
      rewrite <- (take_drop batchSize (drop i files)) at 2.
      rewrite imap_app, concat_app, drop_drop. f_equal. f_equal.
      destruct (decide (batchSize <= length (drop i files))) as [Hle | Hgt].
      * rewrite length_take, Nat.min_l by exact Hle.
        apply imap_ext. intros k f _. cbn. f_equal. unfold batchSize. lia.
      * rewrite length_drop in Hgt. rewrite !drop_ge by lia. reflexivity.
    + apply Nat.ltb_ge in Ei. rewrite drop_ge by lia. reflexivity.
Qed.

Lemma extract_content_calls (W : World) (s : State) (t : option string)
    (files : list ScannedFile.t) (n : nat) (st : State) :
  calls (trace (run W never (extract_content s t files) n st))
  = if useContentExtraction s then concat (imap (task_calls W t) files) else [].
Proof.
  unfold extract_content. destruct (useContentExtraction s); [| reflexivity].
  cbn [run].
  match goal with
  | |- context [run W never (bind ?p ?f) ?m ?x] =>
      destruct (trace_bind W never p f m x) as (n1 & ->)
  end.
  rewrite calls_app, extract_loop_calls by (unfold batchSize; lia).
  cbn [run trace snd calls]. rewrite app_nil_r. reflexivity.
Qed.

(** X9. Content extraction reads every file exactly once, in the order of
    the scan and capped at 50000 bytes; an extraction request is sent only
    for a file whose read returned some bytes, with their base64 text and
    the file's extension and name; so there are at most two calls per file. *)
Theorem extraction_reads_each_file_once (W : World) (s : State)
    (t : option string) (files : list ScannedFile.t) (n : nat) (st : State) :
  useContentExtraction s = true ->
  List.filter is_read (calls (trace (run W never (extract_content s t files) n st)))
  = imap (fun j file => read_file_content j (ScannedFile.path file) 50000) files
  /\
  (forall j a body,
     In (post_extract_content j a body)
       (calls (trace (run W never (extract_content s t files) n st))) ->
     exists file content,
       files !! j = Some file /\
       W (read_file_content j (ScannedFile.path file) 50000) = Fulfilled content /\
       content <> [] /\
       a = bearer (or_empty t) /\
       body
       = ExtractRequest.mk (btoa content) (ScannedFile.extension file)
           (ScannedFile.filename file)) /\
  length (calls (trace (run W never (extract_content s t files) n st)))
  <= 2 * length files.
Proof.
  intros Hon. rewrite extract_content_calls, Hon.
  assert (Hgen : forall (l : list ScannedFile.t) (m : nat),
             List.filter is_read
               (concat (imap (fun k f => task_calls W t (m + k) f) l))
             = imap (fun k f => read_file_content (m + k) (ScannedFile.path f) 50000) l
             /\
             (forall j a body,
                In (post_extract_content j a body)
                  (concat (imap (fun k f => task_calls W t (m + k) f) l)) ->
                exists file content,
                  l !! (j - m) = Some file /\ m <= j /\
                  W (read_file_content j (ScannedFile.path file) 50000)
                  = Fulfilled content /\
                  content <> [] /\
                  a = bearer (or_empty t) /\
                  body
                  = ExtractRequest.mk (btoa content)
                      (ScannedFile.extension file) (ScannedFile.filename file))
             /\
             length (concat (imap (fun k f => task_calls W t (m + k) f) l))
             <= 2 * length l).
  { induction l as [| f l IH]; intros m.
    - cbn. split; [reflexivity |]. split; [intros j a body [] | lia].
    - rewrite !imap_cons. cbn [concat].
      rewrite List.filter_app, length_app.
      destruct (IH (S m)) as (IH1 & IH2 & IH3).
      assert (Hext : forall (g : nat -> ScannedFile.t -> list call),
                 (forall k x, g k x = task_calls W t (S m + k) x) ->
                 imap g l = imap (fun k x => task_calls W t (S m + k) x) l).
      { intros g Hg. apply imap_ext. intros k x _. apply Hg. }
      rewrite (Hext ((fun k x => task_calls W t (m + k) x) ∘ S))
        by (intros k x; cbn; f_equal; lia).
      rewrite IH1. rewrite Nat.add_0_r.
      split; [| split].
      + unfold task_calls at 1. cbn [List.filter is_read].
        assert (Hnone :
                  List.filter is_read
                    match W (read_file_content m (ScannedFile.path f) 50000) with
                    | Rejected _ => []
                    | Fulfilled content =>
                        if (0 <? len content)%Z
                        then
                          [post_extract_content m (bearer (or_empty t))
                             (ExtractRequest.mk (btoa content)
                                (ScannedFile.extension f) (ScannedFile.filename f))]
                        else []
                    end = []).
        { destruct (W (read_file_content m _ _)) as [e | content];
            [reflexivity |].
          destruct (0 <? len content)%Z; reflexivity. }
        rewrite Hnone. cbn [app]. f_equal.
        apply imap_ext. intros k x _. cbn. f_equal. lia.
      + intros j a body Hin. apply in_app_or in Hin.
        destruct Hin as [Hin | Hin].
        * unfold task_calls in Hin. destruct Hin as [Hin | Hin];
            [discriminate Hin |].
          destruct (W (read_file_content m (ScannedFile.path f) 50000))
            as [e | content] eqn:Hread; [destruct Hin |].
          destruct (0 <? len content)%Z eqn:Hlen; [| destruct Hin].
          destruct Hin as [Hin | []]. injection Hin as <- <- <-.
          exists f, content. rewrite Nat.sub_diag.
          repeat split; auto. intros ->. discriminate Hlen.
        * destruct (IH2 j a body Hin)
            as (file & content & Hl & Hle & Hread & Hne & Ha & Hb).
          exists file, content.
          replace (j - m) with (S (j - S m)) by lia.
          repeat split; auto. lia.
      + cbn [length].
        assert (Hone : length (task_calls W t m f) <= 2).
        { unfold task_calls.
          destruct (W (read_file_content m _ _)) as [e | content]; cbn; [lia |].
          destruct (0 <? len content)%Z; cbn; lia. }
        lia. }
  destruct (Hgen files 0) as (H1 & H2 & H3).
  split; [exact H1 |]. split; [| exact H3].
  intros j a body Hin. destruct (H2 j a body Hin)
    as (file & content & Hl & _ & Hrest).
  exists file, content. rewrite Nat.sub_0_r in Hl. split; [exact Hl | exact Hrest].
Qed.

Lemma extraction_reads_each_file_once_witness :
  let r :=
    run (Sample.world Sample.fine) never
      (extract_content Sample.picked_extracting (Some "tok") Sample.files) 0
      Sample.picked_extracting in
  List.filter is_read (calls (trace r))
  = [read_file_content 0 "C:\in\a.pdf" 50000;
     read_file_content 1 "C:\in\b.jpg" 50000;
     read_file_content 2 "C:\in\c.txt" 50000] /\
  length (calls (trace r)) <= 6.
Proof.
  destruct (extraction_reads_each_file_once (Sample.world Sample.fine)
              Sample.picked_extracting (Some "tok") Sample.files 0
              Sample.picked_extracting eq_refl) as (H1 & _ & H3).
  split; [exact H1 | exact H3].
Defined.

(** X10. When the files were moved but the token lookup that precedes the
    history is rejected, the execution reports the error and falls back to
    [preview], although the moves are done; nothing is logged. *)
Theorem execute_token_failure (W : World) (s : State)
    (plan : OrganizeResult.t) (result : MoveResult.t) (e : js_error) :
  organizeResult s = Some plan ->
  truthy (selectedFolder s) = true ->
  W (execute_file_moves (selectedFolder s)
       (build_moves plan (scannedFiles s)) true) = Fulfilled result ->
  MoveResult.success result || (MoveResult.moved_count result >? 0)%Z = true ->
  W get_access_token = Rejected e ->
  final (run W never (handleExecuteOrganize s) 0 s)
  = setOrganizeStep preview
      (setOrganizeStatus ("❌ Ошибка: " +:+ error_text e) s) /\
  calls (trace (run W never (handleExecuteOrganize s) 0 s))
  = [execute_file_moves (selectedFolder s)
       (build_moves plan (scannedFiles s)) true;
     get_access_token].
Proof.
  intros Hplan Hsel Hexec Hmoved Htok. split.
  - rewrite (execute_final W s plan Hplan Hsel), Hexec, Hmoved, Htok.
    reflexivity.
  - unfold handleExecuteOrganize. rewrite Hplan, Hsel. cbn [negb run never].
    rewrite Hexec. unfold after_moves. rewrite Hmoved. cbn [run never].
    rewrite Htok. reflexivity.
Qed.

(** X11. When the move reports failure and no moved file, the execution ends
    in [done] with the failure summary, without looking up the token and
    without logging. *)
Theorem execute_nothing_moved (W : World) (s : State)
    (plan : OrganizeResult.t) (result : MoveResult.t) :
  organizeResult s = Some plan ->
  truthy (selectedFolder s) = true ->
  W (execute_file_moves (selectedFolder s)
       (build_moves plan (scannedFiles s)) true) = Fulfilled result ->
  MoveResult.success result = false ->
  (MoveResult.moved_count result <= 0)%Z ->
  final (run W never (handleExecuteOrganize s) 0 s)
  = setOrganizeStep done (setOrganizeStatus (failed_summary result) s) /\
  calls (trace (run W never (handleExecuteOrganize s) 0 s))
  = [execute_file_moves (selectedFolder s)
       (build_moves plan (scannedFiles s)) true].
Proof.
  intros Hplan Hsel Hexec Hfail Hcount.
  assert (Hgate :
            MoveResult.success result || (MoveResult.moved_count result >? 0)%Z
            = false).
  { rewrite Hfail. cbn [orb]. rewrite Z.gtb_ltb. apply Z.ltb_ge. exact Hcount. }
  split.
  - rewrite (execute_final W s plan Hplan Hsel), Hexec, Hgate. reflexivity.
  - unfold handleExecuteOrganize. rewrite Hplan, Hsel. cbn [negb run never].
    rewrite Hexec. unfold after_moves. rewrite Hgate. reflexivity.
Qed.

(** X12. A rejected token lookup or rules request leaves every cell as it
    was: the failure only reaches the console. *)
Theorem rules_errors_are_swallowed (W : World) (s : State)
    (plan : OrganizeResult.t) :
  organizeResult s = Some plan ->
  match W get_access_token with
  | Rejected _ => True
  | Fulfilled t =>
      match
        W (post_generate_rules (bearer (or_empty t)) (rules_request s plan))
      with
      | Rejected _ => True
      | Fulfilled _ => False
      end
  end ->
  final (run W never (handleGenerateRules s) 0 s) = s /\
  List.In (EvConsole error) (trace (run W never (handleGenerateRules s) 0 s)).
Proof.
  intros Hplan Hfail. unfold handleGenerateRules. rewrite Hplan.
  cbn [run never].
  destruct (W get_access_token) as [e | t].
  - split; [reflexivity | right; left; reflexivity].
  - cbn [run never].
    destruct (W (post_generate_rules _ _)) as [e | response]; [| destruct Hfail].
    split; [reflexivity | do 2 right; left; reflexivity].
Qed.

(** X13. The rules request is sent whatever the token lookup returned: with
    no token its header is the bare [Bearer ] prefix; a refused response
    then only sets the status line. *)
Theorem rules_request_without_token (W : World) (s : State)
    (plan : OrganizeResult.t) (t : option string)
    (response : Response.t RulesData.t) :
  organizeResult s = Some plan ->
  W get_access_token = Fulfilled t ->
  W (post_generate_rules (bearer (or_empty t)) (rules_request s plan))
  = Fulfilled response ->
  calls (trace (run W never (handleGenerateRules s) 0 s))
  = [get_access_token;
     post_generate_rules
       (if truthy_opt t then "Bearer " +:+ or_empty t else "Bearer ")
       (rules_request s plan)] /\
  (Response.ok response = false ->
   final (run W never (handleGenerateRules s) 0 s)
   = setOrganizeStatus no_pattern_found s).
Proof.
  intros Hplan Htok Hresp. unfold handleGenerateRules. rewrite Hplan.
  cbn [run never]. rewrite Htok. cbn [run never]. rewrite Hresp.
  split.
  - assert (Hhdr :
              bearer (or_empty t)
              = if truthy_opt t then "Bearer " +:+ or_empty t else "Bearer ").
    { destruct t as [tok |]; [| reflexivity]. cbn [truthy_opt or_empty].
      destruct (truthy tok) eqn:E; [reflexivity |].
      unfold truthy in E. apply negb_false_iff in E.
      apply String.eqb_eq in E. subst tok. reflexivity. }
    rewrite <- Hhdr. cbn zeta. destruct (_ && _); reflexivity.
  - intros Hok. rewrite Hok. reflexivity.
Qed.

Lemma find_scanned_first (scanned : list ScannedFile.t) (filename : string)
    (file : ScannedFile.t) :
  find_scanned scanned filename = Some file -> first_named scanned filename file.
Proof.
  unfold find_scanned, first_named.
  induction scanned as [| f scanned IH]; cbn [List.find]; [discriminate |].
  destruct (String.eqb_spec (ScannedFile.filename f) filename) as [Heq | Hne].
  - intros [= <-]. exists [], scanned. repeat split; [exact Heq | constructor].
  - intros Hfind. destruct (IH Hfind) as (before & after & -> & Hname & Hbefore).
    exists (f :: before), after. repeat split; [exact Hname |].
    constructor; assumption.
Qed.

(** X14. Every move of the plan comes from a suggested folder that names the
    file, goes to that folder's path, and takes as its source the path of
    the first scanned file of that name, which is not empty; there are at
    most as many moves as suggested names, and none without scanned files. *)
Theorem moves_are_sound (plan : OrganizeResult.t)
    (scanned : list ScannedFile.t) :
  (forall m,
     In m (build_moves plan scanned) ->
     exists folder file,
       In folder (OrganizeResult.folders plan) /\
       In (MoveOperation.filename m) (FolderSuggestion.files folder) /\
       MoveOperation.dest_folder m = FolderSuggestion.folder_path folder /\
       first_named scanned (MoveOperation.filename m) file /\
       MoveOperation.source_path m = ScannedFile.path file /\
       MoveOperation.source_path m <> "") /\
  length (build_moves plan scanned)
  <= length (concat (map FolderSuggestion.files (OrganizeResult.folders plan))) /\
  build_moves plan [] = [].
Proof.
  split; [| split].
  - intros m Hm. rewrite build_moves_resolved in Hm.
    apply resolved_moves_In in Hm.
    destruct Hm as (folder & Hfolder & Hname & Hdest & Hres).
    unfold resolve in Hres.
    destruct (find_scanned scanned (MoveOperation.filename m)) as [file |] eqn:Hfind;
      [| discriminate Hres].
    destruct (truthy (ScannedFile.path file)) eqn:Hpath; [| discriminate Hres].
    injection Hres as Hres.
    exists folder, file. repeat split; auto using find_scanned_first.
    rewrite <- Hres. intros Hempty. rewrite Hempty in Hpath. discriminate Hpath.
  - rewrite build_moves_resolved. unfold resolved_moves.
    induction (OrganizeResult.folders plan) as [| folder rest IH]; [cbn; lia |].
    cbn [flat_map map concat]. rewrite !length_app.
    assert (Hone :
              length
                (flat_map
                   (fun filename =>
                      match resolve scanned filename with
                      | Some source =>
                          [MoveOperation.mk source
                             (FolderSuggestion.folder_path folder) filename]
                      | None => []
                      end) (FolderSuggestion.files folder))
              <= length (FolderSuggestion.files folder)).
    { induction (FolderSuggestion.files folder) as [| x l IHl]; [cbn; lia |].
      cbn [flat_map]. rewrite length_app.
      destruct (resolve scanned x); cbn [length]; lia. }
    lia.
  - rewrite build_moves_resolved. unfold resolved_moves.
    induction (OrganizeResult.folders plan) as [| folder rest IH]; [reflexivity |].
    cbn [flat_map]. rewrite IH, app_nil_r.
    induction (FolderSuggestion.files folder) as [| x l IHl]; [reflexivity |].
    cbn [flat_map]. rewrite IHl. reflexivity.
Qed.

Lemma execute_token_failure_witness :
  let W :=
    Sample.world
      (Sample.with_token (Rejected (Thrown "locked")) Sample.fine) in
  let s := Sample.previewing Sample.clustering in
  organizeStep (final (run W never (handleExecuteOrganize s) 0 s)) = preview /\
  organizeStatus (final (run W never (handleExecuteOrganize s) 0 s))
  = "❌ Ошибка: locked".
Proof.
  destruct (execute_token_failure
              (Sample.world
                 (Sample.with_token (Rejected (Thrown "locked")) Sample.fine))
              (Sample.previewing Sample.clustering) Sample.clustering
              (MoveResult.mk true 3 []) (Thrown "locked") eq_refl eq_refl
              eq_refl eq_refl eq_refl) as [H1 _].
  split; rewrite H1; reflexivity.
Defined.

Lemma execute_nothing_moved_witness :
  let W :=
    Sample.world
      (Sample.with_moving
         (fun _ => Fulfilled (MoveResult.mk false 0 ["denied"])) Sample.fine) in
  let s := Sample.previewing Sample.clustering in
  organizeStep (final (run W never (handleExecuteOrganize s) 0 s)) = done /\
  length (calls (trace (run W never (handleExecuteOrganize s) 0 s))) = 1.
Proof.
  destruct (execute_nothing_moved
              (Sample.world
                 (Sample.with_moving
                    (fun _ => Fulfilled (MoveResult.mk false 0 ["denied"]))
                    Sample.fine))
              (Sample.previewing Sample.clustering) Sample.clustering
              (MoveResult.mk false 0 ["denied"]) eq_refl eq_refl eq_refl
              eq_refl ltac:(cbn; lia)) as [H1 H2].
  split; [rewrite H1; reflexivity | rewrite H2; reflexivity].
Defined.

Lemma rules_errors_are_swallowed_witness :
  let W :=
    Sample.world (Sample.with_rules (Rejected (Thrown "down")) Sample.fine) in
  let s := Sample.finished Sample.clustering in
  final (run W never (handleGenerateRules s) 0 s) = s.
Proof.
  destruct (rules_errors_are_swallowed
              (Sample.world
                 (Sample.with_rules (Rejected (Thrown "down")) Sample.fine))
              (Sample.finished Sample.clustering) Sample.clustering eq_refl I)
    as [H1 _].
  exact H1.
Defined.

Lemma rules_request_without_token_witness :
  let W := Sample.world (Sample.with_token (Fulfilled None) Sample.fine) in
  let s := Sample.finished Sample.clustering in
  calls (trace (run W never (handleGenerateRules s) 0 s))
  = [get_access_token;
     post_generate_rules "Bearer " (rules_request s Sample.clustering)].
Proof.
  destruct (rules_request_without_token
              (Sample.world (Sample.with_token (Fulfilled None) Sample.fine))
              (Sample.finished Sample.clustering) Sample.clustering None
              (Response.mk true 200 (RulesData.mk [Sample.rule_pdf] 1))
              eq_refl eq_refl eq_refl) as [H1 _].
  exact H1.
Defined.

(** ** The rules dialog and the card *)

Lemma toggle_toggle (r : SuggestedRule.t) :
  SuggestedRule.selected r <> None -> toggle (toggle r) = r.
Proof.
  destruct r as [a b c d e f [sel |]]; [| intros H; exfalso; apply H; reflexivity].
  intros _. unfold toggle, is_selected. cbn. rewrite negb_involutive. reflexivity.
Qed.

(** X15. Ticking a rule's checkbox twice restores the cells, as long as every
    rule carries its [selected] flag (as the generated ones do). *)
Theorem toggle_rule_twice (idx : nat) (st : State) :
  Forall (fun r => SuggestedRule.selected r <> None) (suggestedRules st) ->
  toggleRule idx (toggleRule idx st) = st.
Proof.
  intros Hdef. unfold toggleRule.
  destruct st as [? ? ? ? ? ? ? ? ? ? ? rules ?].
  unfold setSuggestedRules; cbn in *. f_equal.
  apply list_eq. intros i. rewrite !list_lookup_imap.
  destruct (rules !! i) as [r |] eqn:Hi; [| reflexivity].
  cbn. destruct (i =? idx)%nat; [| reflexivity].
  f_equal. apply toggle_toggle.
  rewrite List.Forall_forall in Hdef. apply Hdef.
  apply list_elem_of_In. eapply list_elem_of_lookup_2. exact Hi.
Qed.

Lemma imap_toggle (idx : nat) (rules : list SuggestedRule.t)
    (r : SuggestedRule.t) :
  rules !! idx = Some r ->
  imap (fun i x => if (i =? idx)%nat then toggle x else x) rules
  = take idx rules ++ toggle r :: drop (S idx) rules.
Proof.
  intros Hr. rewrite <- insert_take_drop by (eapply lookup_lt_Some; exact Hr).
  apply list_eq. intros i. rewrite list_lookup_imap.
  destruct (Nat.eq_dec i idx) as [-> | Hne].
  - rewrite Hr, list_lookup_insert_eq by (eapply lookup_lt_Some; exact Hr).
    cbn. rewrite Nat.eqb_refl. reflexivity.
  - rewrite list_lookup_insert_ne by congruence.
    destruct (rules !! i); [| reflexivity].
    cbn. replace (i =? idx)%nat with false by (symmetry; apply Nat.eqb_neq; exact Hne).
    reflexivity.
Qed.

Lemma toggle_count (idx : nat) (rules : list SuggestedRule.t)
    (r : SuggestedRule.t) :
  rules !! idx = Some r ->
  length
    (List.filter is_selected
       (imap (fun i x => if (i =? idx)%nat then toggle x else x) rules))
  + (if is_selected r then 1 else 0)
  = length (List.filter is_selected rules)
    + (if is_selected r then 0 else 1).
Proof.
  intros Hr. rewrite (imap_toggle idx _ r Hr).
  rewrite <- (take_drop_middle _ _ _ Hr) at 3.
  rewrite !List.filter_app, !length_app. cbn [List.filter].
  assert (Hs : is_selected (toggle r) = negb (is_selected r)) by reflexivity.
  rewrite Hs. destruct (is_selected r); cbn [negb length]; lia.
Qed.

Lemma toggled_rules (idx : nat) (st : State) :
  suggestedRules (toggleRule idx st)
  = imap (fun i x => if (i =? idx)%nat then toggle x else x)
      (suggestedRules st).
Proof. destruct st; reflexivity. Qed.

(** X16. Ticking the checkbox of a listed rule changes the number of selected
    rules by exactly one, keeps the length of the list and leaves the other
    rules alone. *)
Theorem toggle_rule_count (idx : nat) (st : State) (r : SuggestedRule.t) :
  suggestedRules st !! idx = Some r ->
  length (selectedRules (toggleRule idx st))
  + (if is_selected r then 1 else 0)
  = length (selectedRules st) + (if is_selected r then 0 else 1) /\
  length (suggestedRules (toggleRule idx st)) = length (suggestedRules st) /\
  (forall i,
     i <> idx ->
     suggestedRules (toggleRule idx st) !! i = suggestedRules st !! i).
Proof.
  intros Hr. unfold selectedRules. rewrite toggled_rules.
  split; [apply toggle_count; exact Hr | split].
  - apply length_imap.
  - intros i Hne. rewrite list_lookup_imap.
    destruct (suggestedRules st !! i); [| reflexivity].
    cbn. replace (i =? idx)%nat with false
      by (symmetry; apply Nat.eqb_neq; exact Hne).
    reflexivity.
Qed.

Lemma frame {A B : Type} (proj : State -> B) (g : B -> B) (Q : call -> Prop)
    (W : World) (cancel_at : nat -> bool) (p : proc A) :
  (forall st, proj (resetOrganize st) = g (proj st)) ->
  within (keeps proj) Q p ->
  forall n st,
    proj (final (run W cancel_at p n st))
    = if cancelled (trace (run W cancel_at p n st)) then g (proj st)
      else proj st.
Proof.
  intros Hg Hp.
  assert (Hgg : forall st, g (g (proj st)) = g (proj st)).
  { intros st. rewrite <- !Hg, reset_idempotent. reflexivity. }
  induction Hp as [a | f k Hf Hk IH | c k Hc Hk IH | c k Hc Hk IH | l k Hk IH];
    intros n st; cbn [run].
  - reflexivity.
  - rewrite (IH n (f st)), (Hf st). reflexivity.
  - specialize (IH (W c) (S n) (if cancel_at n then resetOrganize st else st)).
    destruct (run W cancel_at (k (W c)) (S n) _) as [[[a n1] st1] tr1].
    unfold final, trace in *; cbn [fst snd] in *.
    rewrite IH. unfold cancelled.
    destruct (cancel_at n), (existsb is_cancel tr1) eqn:E;
      cbn [app existsb is_cancel orb]; rewrite ?E, ?Hg, ?Hgg; reflexivity.
  - specialize (IH n st).
    destruct (run W cancel_at k n st) as [[[a n1] st1] tr1].
    unfold final, trace in *; cbn [fst snd] in *. exact IH.
  - specialize (IH n st).
    destruct (run W cancel_at k n st) as [[[a n1] st1] tr1].
    unfold final, trace in *; cbn [fst snd] in *. exact IH.
Qed.

Lemma status_write_keeps {B : Type} (proj : State -> B) :
  (forall v st, proj (setOrganizeStatus v st) = proj st) ->
  forall f, status_write f -> keeps proj f.
Proof. intros Hs f [v Hv] st. rewrite Hv. apply Hs. Qed.

Lemma start_failed_keeps {B : Type} (proj : State -> B) (e : js_error) :
  (forall v, keeps proj (setOrganizeStatus v)) ->
  (forall v, keeps proj (setOrganizeStep v)) ->
  within (keeps proj) (fun _ => True) (start_failed e).
Proof. intros Hs Hp. repeat constructor; auto. Qed.

(** Every write of [handleStartOrganize] is one of four setters. *)
Lemma start_within {B : Type} (proj : State -> B) (s : State) :
  (forall v, keeps proj (setOrganizeStatus v)) ->
  (forall v, keeps proj (setOrganizeStep v)) ->
  (forall v, keeps proj (setScannedFiles v)) ->
  (forall v, keeps proj (setOrganizeResult v)) ->
  within (keeps proj) (fun _ => True) (handleStartOrganize s).
Proof.
  intros Hs Hp Hf Hr.
  assert (Hsw : forall A (p : proc A),
             within status_write not_analyze p ->
             within (keeps proj) (fun _ => True) p).
  { intros A p. apply within_weaken; [| trivial].
    apply status_write_keeps. intros v st. apply Hs. }
  unfold handleStartOrganize.
  destruct (negb (truthy (selectedFolder s))); [constructor |].
  constructor; [apply Hp |]. constructor; [apply Hs |].
  constructor; [trivial |]. intros [e | files];
    [apply start_failed_keeps; assumption |].
  unfold after_scan.
  destruct (len files =? 0)%Z; [repeat constructor; auto |].
  destruct (len files >? 5000)%Z; [repeat constructor; auto |].
  constructor; [apply Hf |]. constructor; [apply Hs |].
  constructor; [apply Hp |]. constructor; [trivial |].
  intros [e | t]; [apply start_failed_keeps; assumption |].
  unfold after_token.
  destruct (negb (truthy_opt t)); [repeat constructor; auto |].
  apply within_bind; [apply Hsw, scan_existing_within |]. intros existing.
  apply within_bind; [apply Hsw, extract_content_within |]. intros fs.
  unfold analyze. constructor; [trivial |].
  intros [e | response]; cbn [analyzed];
    [apply start_failed_keeps; assumption |].
  destruct (negb (Response.ok response)).
  - destruct (Response.status response =? 401)%Z;
      apply start_failed_keeps; assumption.
  - repeat constructor; auto.
Qed.

(** Every write of [handleExecuteOrganize] is one of two setters. *)
Lemma execute_within {B : Type} (proj : State -> B) (s : State) :
  (forall v, keeps proj (setOrganizeStatus v)) ->
  (forall v, keeps proj (setOrganizeStep v)) ->
  within (keeps proj) (fun _ => True) (handleExecuteOrganize s).
Proof.
  intros Hs Hp. unfold handleExecuteOrganize.
  destruct (organizeResult s) as [plan |]; [| constructor].
  destruct (negb (truthy (selectedFolder s))); [constructor |].
  constructor; [apply Hp |]. constructor; [apply Hs |].
  constructor; [trivial |].
  intros [e | moved]; [unfold execute_failed; repeat constructor; auto |].
  unfold after_moves.
  destruct (MoveResult.success moved || (MoveResult.moved_count moved >? 0)%Z);
    [| repeat constructor; auto].
  constructor; [trivial |].
  intros [e | t]; [unfold execute_failed; repeat constructor; auto |].
  apply within_bind.
  - eapply within_weaken; [| | apply log_part_within].
    + intros f [].
    + trivial.
  - intros _. repeat constructor; auto.
Qed.

(** Every write of [handleGenerateRules] is one of three setters. *)
Lemma rules_within {B : Type} (proj : State -> B) (s : State) :
  (forall v, keeps proj (setOrganizeStatus v)) ->
  (forall v, keeps proj (setSuggestedRules v)) ->
  (forall v, keeps proj (setShowRulesModal v)) ->
  within (keeps proj) (fun _ => True) (handleGenerateRules s).
Proof.
  intros Hs Hr Hm. unfold handleGenerateRules.
  destruct (organizeResult s) as [plan |]; [| constructor].
  constructor; [trivial |].
  intros [e | t]; [repeat constructor |].
  constructor; [trivial |].
  intros [e | response]; [repeat constructor |].
  cbv zeta.
  destruct (Response.ok response && _); repeat constructor; auto.
Qed.

(** X18. None of the three handlers ever changes an option cell, whatever
    the calls answer and whenever the user cancels. *)
Theorem handlers_keep_options (W : World) (cancel_at : nat -> bool)
    (s : State) :
  options (final (run W cancel_at (handleStartOrganize s) 0 s)) = options s /\
  options (final (run W cancel_at (handleExecuteOrganize s) 0 s)) = options s /\
  options (final (run W cancel_at (handleGenerateRules s) 0 s)) = options s.
Proof.
  assert (Hreset : forall st, options (resetOrganize st) = id (options st))
    by reflexivity.
  split; [| split].
  - rewrite (frame options id (fun _ => True) W cancel_at _ Hreset);
      [destruct (cancelled _); reflexivity |].
    apply start_within; intros v st; reflexivity.
  - rewrite (frame options id (fun _ => True) W cancel_at _ Hreset);
      [destruct (cancelled _); reflexivity |].
    apply execute_within; intros v st; reflexivity.
  - rewrite (frame options id (fun _ => True) W cancel_at _ Hreset);
      [destruct (cancelled _); reflexivity |].
    apply rules_within; intros v st; reflexivity.
Qed.

(** X19. The start and execute handlers never write the card's visibility,
    the folder or the rules dialog, and the rules handler never writes the
    session: these cells change only through a cancellation, which clears
    them. *)
Theorem handlers_keep_their_surroundings (W : World) (cancel_at : nat -> bool)
    (s : State) :
  surroundings (final (run W cancel_at (handleStartOrganize s) 0 s))
  = (if cancelled (trace (run W cancel_at (handleStartOrganize s) 0 s))
     then (false, "", [], false) else surroundings s) /\
  surroundings (final (run W cancel_at (handleExecuteOrganize s) 0 s))
  = (if cancelled (trace (run W cancel_at (handleExecuteOrganize s) 0 s))
     then (false, "", [], false) else surroundings s) /\
  session (final (run W cancel_at (handleGenerateRules s) 0 s))
  = (if cancelled (trace (run W cancel_at (handleGenerateRules s) 0 s))
     then (false, "", idle, [], None) else session s).
Proof.
  split; [| split].
  - apply (frame surroundings (fun _ => (false, "", [], false))
             (fun _ => True) W cancel_at); [reflexivity |].
    apply start_within; intros v st; reflexivity.
  - apply (frame surroundings (fun _ => (false, "", [], false))
             (fun _ => True) W cancel_at); [reflexivity |].
    apply execute_within; intros v st; reflexivity.
  - apply (frame session (fun _ => (false, "", idle, [], None))
             (fun _ => True) W cancel_at); [reflexivity |].
    apply rules_within; intros v st; reflexivity.
Qed.

(** ** The card while a handler is suspended *)

Lemma pending_bind {A B : Type} (W : World) (p : proc A) (f : A -> proc B) :
  forall n st,
    pending W (bind p f) st
    = pending W p st
      ++ pending W (f (value (run W never p n st)))
           (final (run W never p n st)).
Proof.
  induction p as [a | g k IH | c k IH | c k IH | l k IH]; intros n st;
    cbn [bind pending run never].
  - reflexivity.
  - apply IH.
  - specialize (IH (W c) (S n) st).
    destruct (run W never (k (W c)) (S n) st) as [[[a n1] st1] tr1].
    cbn [app]. f_equal. exact IH.
  - specialize (IH n st).
    destruct (run W never k n st) as [[[a n1] st1] tr1]. exact IH.
  - specialize (IH n st).
    destruct (run W never k n st) as [[[a n1] st1] tr1]. exact IH.
Qed.

(** The calls a handler is suspended at are the calls of its run. *)
Lemma pending_calls {A : Type} (W : World) (p : proc A) :
  forall n st,
    map (fun cs => EvCall (fst cs)) (pending W p st)
    = List.filter (fun ev => match ev with EvCall _ => true | _ => false end)
        (trace (run W never p n st)).
Proof.
  induction p as [a | g k IH | c k IH | c k IH | l k IH]; intros n st;
    cbn [pending run never map].
  - reflexivity.
  - apply IH.
  - specialize (IH (W c) (S n) st).
    destruct (run W never (k (W c)) (S n) st) as [[[a n1] st1] tr1].
    unfold trace in *; cbn [snd fst app List.filter] in *. f_equal. exact IH.
  - specialize (IH n st).
    destruct (run W never k n st) as [[[a n1] st1] tr1].
    unfold trace in *; cbn [snd fst List.filter] in *. exact IH.
  - specialize (IH n st).
    destruct (run W never k n st) as [[[a n1] st1] tr1].
    unfold trace in *; cbn [snd fst List.filter] in *. exact IH.
Qed.

Lemma pending_frame {A : Type} (Q : call -> Prop) (W : World) (p : proc A) :
  within status_write Q p ->
  forall st,
    Forall (fun cs => but_status (snd cs) = but_status st) (pending W p st).
Proof.
  intros Hp.
  induction Hp as [a | f k Hf Hk IH | c k Hc Hk IH | c k Hc Hk IH | l k Hk IH];
    intros st; cbn [pending].
  - constructor.
  - destruct Hf as [v Hv].
    eapply List.Forall_impl; [| apply (IH (f st))].
    intros cs Hcs. rewrite Hcs, Hv. reflexivity.
  - constructor; [reflexivity | apply IH].
  - apply IH.
  - apply IH.
Qed.

Lemma rendered_but_status (st : State) (b : button) :
  rendered st b = rendered (but_status st) b.
Proof. reflexivity. Qed.

Lemma busy_hides (st : State) (b : button) :
  organizeStep st = scanning \/ organizeStep st = analyzing
  \/ organizeStep st = executing ->
  rendered st b = false.
Proof.
  intros Hstep. unfold rendered, view.
  destruct (negb (showAutoOrganize st)); [reflexivity |].
  destruct Hstep as [-> | [-> | ->]];
    destruct (organizeResult st), b; reflexivity.
Qed.

Lemma hidden_frame (st : State) (b : button) (l : list (call * State)) :
  rendered st b = false ->
  Forall (fun cs => but_status (snd cs) = but_status st) l ->
  Forall (fun cs => rendered (snd cs) b = false) l.
Proof.
  intros Hst. apply List.Forall_impl. intros cs Hcs.
  rewrite rendered_but_status, Hcs, <- rendered_but_status. exact Hst.
Qed.

Lemma start_pending_hidden (W : World) (s : State) (b : button) :
  Forall (fun cs => rendered (snd cs) b = false)
    (pending W (handleStartOrganize s) s).
Proof.
  unfold handleStartOrganize.
  destruct (negb (truthy (selectedFolder s))); [constructor |].
  cbn [pending]. constructor; [apply busy_hides; left; reflexivity |].
  destruct (W (scan_folder_for_organize (selectedFolder s))) as [e | files];
    [constructor |].
  unfold after_scan.
  destruct (len files =? 0)%Z; [constructor |].
  destruct (len files >? 5000)%Z; [constructor |].
  cbn [pending].
  set (st1 := setOrganizeStep analyzing _).
  assert (H1 : rendered st1 b = false)
    by (apply busy_hides; right; left; reflexivity).
  constructor; [exact H1 |].
  destruct (W get_access_token) as [e | t]; [constructor |].
  unfold after_token.
  destruct (negb (truthy_opt t)); [constructor |].
  rewrite (pending_bind W _ _ 0). apply List.Forall_app. split.
  { apply (hidden_frame st1); [exact H1 |].
    eapply pending_frame. apply scan_existing_within. }
  set (st2 := final (run W never (scan_existing s files) 0 st1)).
  assert (H2 : rendered st2 b = false).
  { rewrite rendered_but_status. unfold st2.
    rewrite (status_frame not_analyze W never _ (scan_existing_within s files)),
      never_cancelled, <- rendered_but_status. exact H1. }
  rewrite (pending_bind W _ _ 0). apply List.Forall_app. split.
  { apply (hidden_frame st2); [exact H2 |].
    eapply pending_frame. apply extract_content_within. }
  unfold analyze. cbn [pending]. constructor.
  + cbn [snd]. rewrite rendered_but_status.
    rewrite (status_frame not_analyze W never _
               (extract_content_within s t files)),
      never_cancelled, <- rendered_but_status. exact H2.
  + destruct (W (post_analyze _ _)) as [e | response]; cbn [analyzed];
      [constructor |].
    destruct (negb (Response.ok response));
      [destruct (Response.status response =? 401)%Z; constructor
      | constructor].
Qed.

Lemma execute_pending_hidden (W : World) (s : State) (b : button) :
  Forall (fun cs => rendered (snd cs) b = false)
    (pending W (handleExecuteOrganize s) s).
Proof.
  unfold handleExecuteOrganize.
  destruct (organizeResult s) as [plan |]; [| constructor].
  destruct (negb (truthy (selectedFolder s))); [constructor |].
  cbn [pending].
  set (st1 := setOrganizeStatus _ _).
  assert (H1 : rendered st1 b = false)
    by (apply busy_hides; right; right; reflexivity).
  constructor; [exact H1 |].
  destruct (W (execute_file_moves _ _ _)) as [e | moved]; [constructor |].
  unfold after_moves.
  destruct (MoveResult.success moved || (MoveResult.moved_count moved >? 0)%Z);
    [| constructor].
  cbn [pending]. constructor; [exact H1 |].
  destruct (W get_access_token) as [e | t]; [constructor |].
  rewrite (pending_bind W _ _ 0). apply List.Forall_app. split; [| constructor].
  apply (hidden_frame st1); [exact H1 |].
  eapply pending_frame.
  eapply within_weaken; [| | apply log_part_within];
    [intros f [] | intros c Hc; exact Hc].
Qed.

(** X20. While the start or the execute handler is suspended at a call, the
    card renders none of the buttons wired to a handler of the workflow
    (and both handlers do suspend once past their guards). *)
Theorem busy_card_offers_no_handler (W : World) (s : State) (b : button) :
  Forall (fun cs => rendered (snd cs) b = false)
    (pending W (handleStartOrganize s) s) /\
  Forall (fun cs => rendered (snd cs) b = false)
    (pending W (handleExecuteOrganize s) s) /\
  (truthy (selectedFolder s) = true ->
   pending W (handleStartOrganize s) s <> []) /\
  (truthy (selectedFolder s) = true -> organizeResult s <> None ->
   pending W (handleExecuteOrganize s) s <> []).
Proof.
  split; [| split; [| split]].
  - apply start_pending_hidden.
  - apply execute_pending_hidden.
  - intros Hfolder. unfold handleStartOrganize. rewrite Hfolder.
    cbn [negb pending]. discriminate.
  - intros Hfolder Hplan. unfold handleExecuteOrganize.
    destruct (organizeResult s) as [plan |]; [| congruence].
    rewrite Hfolder. cbn [negb pending]. discriminate.
Qed.

(** X21. The rules handler writes nothing before its calls settle: while it
    is suspended the cells are those of its render, so the done button of
    the card stays clickable. *)
Theorem rules_request_leaves_card_live (W : World) (s : State) :
  Forall (fun cs => snd cs = s) (pending W (handleGenerateRules s) s) /\
  (organizeResult s <> None ->
   exists st, head (pending W (handleGenerateRules s) s)
              = Some (get_access_token, st)) /\
  (showAutoOrganize s = true -> organizeStep s = done ->
   Forall (fun cs => clickable (snd cs) btn_done = true)
     (pending W (handleGenerateRules s) s)).
Proof.
  assert (Hall : Forall (fun cs => snd cs = s)
                   (pending W (handleGenerateRules s) s)).
  { unfold handleGenerateRules.
    destruct (organizeResult s) as [plan |]; [| constructor].
    cbn [pending]. constructor; [reflexivity |].
    destruct (W get_access_token) as [e | t]; [constructor |].
    cbn [pending]. constructor; [reflexivity |].
    destruct (W (post_generate_rules _ _)) as [e | response]; [constructor |].
    cbv zeta. destruct (Response.ok response && _); constructor. }
  split; [exact Hall | split].
  - intros Hplan. unfold handleGenerateRules.
    destruct (organizeResult s) as [plan |]; [| congruence].
    cbn [pending head]. eexists. reflexivity.
  - intros Hopen Hdone. eapply List.Forall_impl; [| exact Hall].
    intros cs ->. unfold clickable, rendered, view.
    rewrite Hopen, Hdone. reflexivity.
Qed.

(** ** Cancellation, as the card offers it *)





(** The handlers themselves carry no guard against late results: under a
    schedule the card does not offer, a reset while the analysis request is
    pending, the late response would still put the session in the preview
    step.  The property above rests on what the card renders. *)
Lemma reset_during_analysis_is_not_offered :
  offered (Sample.world Sample.fine) (Nat.eqb 3)
    (handleStartOrganize Sample.picked) 0 Sample.picked = false /\
  ~ stale_result_guard (Sample.world Sample.fine) (Nat.eqb 3) Sample.picked.
Proof.
  split; [reflexivity |].
  intros H.
  destruct (H (post_analyze "Bearer tok"
                 (analyze_request Sample.picked (map to_api Sample.files) []))
              eq_refl)
    as (Hstep & _).
  - do 4 right. left. reflexivity.
  - vm_compute in Hstep. discriminate Hstep.
Qed.

(** X22. When the card is reset while the rules handler is suspended, what
    arrives late is still applied to the cleared session: a fulfilled, ok
    answer with at least one rule stores the rules and sets the dialog flag;
    a fulfilled answer that is not ok or has no rule sets the no-pattern
    status line; a rejected token lookup or request writes nothing, and the
    session stays as the reset left it. *)
Theorem late_rules_after_reset (W : World) (cancel_at : nat -> bool)
    (s : State) (plan : OrganizeResult.t) :
  organizeResult s = Some plan ->
  cancelled (trace (run W cancel_at (handleGenerateRules s) 0 s)) = true ->
  final (run W cancel_at (handleGenerateRules s) 0 s)
  = match W get_access_token with
    | Rejected _ => resetOrganize s
    | Fulfilled t =>
        match
          W (post_generate_rules (bearer (or_empty t)) (rules_request s plan))
        with
        | Rejected _ => resetOrganize s
        | Fulfilled response =>
            if Response.ok response
               && (len (RulesData.rules (Response.data response)) >? 0)%Z
            then
              setShowRulesModal true
                (setSuggestedRules
                   (map select (RulesData.rules (Response.data response)))
                   (resetOrganize s))
            else setOrganizeStatus no_pattern_found (resetOrganize s)
        end
    end.
Proof.
  intros Hplan. unfold handleGenerateRules. rewrite Hplan. cbn [run].
  destruct (W get_access_token) as [e | t]; cbn [run].
  - unfold cancelled, trace, final. cbn [fst snd].
    destruct (cancel_at 0); cbn; [reflexivity | discriminate].
  - destruct (W (post_generate_rules _ _)) as [e | response]; cbv zeta.
    + unfold cancelled, trace, final. cbn [run fst snd].
      destruct (cancel_at 0), (cancel_at 1); cbn;
        rewrite ?reset_idempotent; try reflexivity; discriminate.
    + destruct (Response.ok response && _);
        unfold cancelled, trace, final; cbn [run fst snd];
        destruct (cancel_at 0), (cancel_at 1); cbn;
        rewrite ?reset_idempotent; try reflexivity; discriminate.
Qed.

Lemma rules_generated (W : World) (s : State) (plan : OrganizeResult.t)
    (t : option string) (response : Response.t RulesData.t) :
  organizeResult s = Some plan ->
  W get_access_token = Fulfilled t ->
  W (post_generate_rules (bearer (or_empty t)) (rules_request s plan))
  = Fulfilled response ->
  Response.ok response = true ->
  RulesData.rules (Response.data response) <> [] ->
  final (run W never (handleGenerateRules s) 0 s)
  = setShowRulesModal true
      (setSuggestedRules
         (map select (RulesData.rules (Response.data response))) s).
Proof.
  intros Hplan Htok Hresp Hok Hrules.
  unfold handleGenerateRules. rewrite Hplan. cbn [run never].
  rewrite Htok. cbn [run never]. rewrite Hresp, Hok.
  assert (Hlen : (len (RulesData.rules (Response.data response)) >? 0)%Z = true).
  { destruct (RulesData.rules (Response.data response)); [congruence |].
    unfold len. cbn [length]. apply Z.gtb_lt. lia. }
  rewrite Hlen. reflexivity.
Qed.

Lemma selected_all (rules : list SuggestedRule.t) :
  List.filter is_selected (map select rules) = map select rules.
Proof.
  induction rules as [| r rest IH]; [reflexivity |].
  cbn [map List.filter]. replace (is_selected (select r)) with true by reflexivity.
  f_equal. exact IH.
Qed.

(** X17. After a successful generation, saving at once reports all the
    generated rules and closes the dialog; saving after one checkbox was
    ticked reports one rule fewer; closing the dialog keeps the rules. *)
Theorem saved_rules_count (W : World) (s : State) (plan : OrganizeResult.t)
    (t : option string) (response : Response.t RulesData.t) :
  organizeResult s = Some plan ->
  W get_access_token = Fulfilled t ->
  W (post_generate_rules (bearer (or_empty t)) (rules_request s plan))
  = Fulfilled response ->
  Response.ok response = true ->
  RulesData.rules (Response.data response) <> [] ->
  let shown := final (run W never (handleGenerateRules s) 0 s) in
  let n := length (RulesData.rules (Response.data response)) in
  saveRules shown
  = setOrganizeStatus
      ("✅ Готово! Выбрано " +:+ string_of_nat n +:+ " правил")
      (setShowRulesModal false
         (setSuggestedRules
            (map select (RulesData.rules (Response.data response))) s)) /\
  (forall idx,
     idx < n ->
     organizeStatus (saveRules (toggleRule idx shown))
     = "✅ Готово! Выбрано " +:+ string_of_nat (n - 1) +:+ " правил") /\
  closeRules shown
  = setShowRulesModal false
      (setSuggestedRules
         (map select (RulesData.rules (Response.data response))) s).
Proof.
  intros Hplan Htok Hresp Hok Hrules shown n.
  assert (Hshown :
    shown
    = setShowRulesModal true
        (setSuggestedRules
           (map select (RulesData.rules (Response.data response))) s))
    by (apply (rules_generated W s plan t response); assumption).
  assert (Hcount : length (selectedRules shown) = n).
  { rewrite Hshown. unfold selectedRules. cbn [suggestedRules setShowRulesModal
      setSuggestedRules]. rewrite selected_all. apply length_map. }
  split; [| split].
  - unfold saveRules. rewrite Hcount, Hshown. reflexivity.
  - intros idx Hidx.
    assert (Hr : exists r, suggestedRules shown !! idx = Some (select r)).
    { rewrite Hshown. cbn [suggestedRules setShowRulesModal setSuggestedRules].
      rewrite list_lookup_fmap.
      destruct (lookup_lt_is_Some_2 (RulesData.rules (Response.data response))
                  idx Hidx) as [r Hr].
      exists r. rewrite Hr. reflexivity. }
    destruct Hr as [r Hr].
    pose proof (toggle_count idx (suggestedRules shown) (select r) Hr) as Hc.
    rewrite <- toggled_rules in Hc. fold (selectedRules (toggleRule idx shown)) in Hc.
    fold (selectedRules shown) in Hc.
    replace (is_selected (select r)) with true in Hc by reflexivity.
    unfold saveRules.
    replace (length (selectedRules (toggleRule idx shown))) with (n - 1) by lia.
    reflexivity.
  - rewrite Hshown. reflexivity.
Qed.

Lemma toggle_rule_twice_witness :
  let st := setSuggestedRules [select Sample.rule_pdf] initialState in
  toggleRule 0 (toggleRule 0 st) = st.
Proof.
  exact (toggle_rule_twice 0
           (setSuggestedRules [select Sample.rule_pdf] initialState)
           ltac:(repeat constructor; discriminate)).
Defined.

Lemma toggle_rule_count_witness :
  let st := setSuggestedRules [select Sample.rule_pdf] initialState in
  length (selectedRules (toggleRule 0 st)) + 1 = length (selectedRules st) + 0.
Proof.
  destruct (toggle_rule_count 0
              (setSuggestedRules [select Sample.rule_pdf] initialState)
              (select Sample.rule_pdf) eq_refl) as [H _].
  exact H.
Defined.

Lemma saved_rules_count_witness :
  let s := Sample.finished Sample.clustering in
  let shown :=
    final (run (Sample.world Sample.fine) never (handleGenerateRules s) 0 s) in
  organizeStatus (saveRules shown) = "✅ Готово! Выбрано 1 правил" /\
  organizeStatus (saveRules (toggleRule 0 shown))
  = "✅ Готово! Выбрано 0 правил".
Proof.
  pose proof (saved_rules_count (Sample.world Sample.fine)
                (Sample.finished Sample.clustering) Sample.clustering
                (Some "tok")
                (Response.mk true 200 (RulesData.mk [Sample.rule_pdf] 1))
                eq_refl eq_refl eq_refl eq_refl ltac:(discriminate)) as H.
  cbv zeta in H. destruct H as (H1 & H2 & _).
  split; [rewrite H1; reflexivity | rewrite (H2 0 ltac:(cbn; lia)); reflexivity].
Defined.

Lemma late_rules_after_reset_witness :
  let s := Sample.finished Sample.clustering in
  let r :=
    run (Sample.world Sample.fine) (fun n => (n =? 1)%nat)
      (handleGenerateRules s) 0 s in
  showRulesModal (final r) = true /\
  suggestedRules (final r) = [select Sample.rule_pdf] /\
  organizeStep (final r) = idle /\
  showAutoOrganize (final r) = false.
Proof.
  pose proof (late_rules_after_reset (Sample.world Sample.fine)
                (fun n => (n =? 1)%nat) (Sample.finished Sample.clustering)
                Sample.clustering eq_refl eq_refl) as H.
  repeat split; rewrite H; reflexivity.
Defined.

(** ** The shell *)

Lemma shell_run_andThen {A B : Type} (W : Shell.Backend) (p : Shell.flow A)
    (f : A -> Shell.flow B) :
  forall st,
    Shell.perform W (Shell.andThen p f) st
    = match Shell.outcome (Shell.perform W p st) with
      | Fulfilled a =>
          (Shell.outcome (Shell.perform W (f a) (Shell.after (Shell.perform W p st))),
           Shell.after (Shell.perform W (f a) (Shell.after (Shell.perform W p st))),
           Shell.commands (Shell.perform W p st)
           ++ Shell.commands
                (Shell.perform W (f a) (Shell.after (Shell.perform W p st))))
      | Rejected e =>
          (Rejected e, Shell.after (Shell.perform W p st),
           Shell.commands (Shell.perform W p st))
      end.
Proof.
  induction p as [[e | a] | g k IH | c k IH | k IH]; intros st;
    cbn [Shell.andThen Shell.perform].
  - reflexivity.
  - unfold Shell.outcome, Shell.after, Shell.commands. cbn [fst snd app].
    destruct (Shell.perform W (f a) st) as [[r fin] tr]. reflexivity.
  - apply IH.
  - rewrite (IH (W c) st).
    destruct (Shell.perform W (k (W c)) st) as [[[e | a] fin] tr];
      unfold Shell.outcome, Shell.after, Shell.commands; cbn [fst snd];
      reflexivity.
  - apply IH.
Qed.

Lemma loadStatus_run (W : Shell.Backend) (st : Shell.Cells) :
  Shell.perform W Shell.loadStatus st
  = (Fulfilled tt,
     Shell.in_app (Shell.App.setLoading false)
       (match W Shell.get_status with
        | Fulfilled result =>
            Shell.in_app (Shell.App.setStatus (Some result)) st
        | Rejected _ => st
        end),
     [Shell.get_status]).
Proof.
  unfold Shell.loadStatus, Shell.invoke.
  cbn [Shell.andThen Shell.catch Shell.finally Shell.perform].
  destruct (W Shell.get_status) as [e | result];
    cbn [Shell.andThen Shell.catch Shell.finally Shell.perform Shell.ret];
    reflexivity.
Qed.

Lemma handleLogin_run (W : Shell.Backend) (email password : string)
    (st : Shell.Cells) :
  Shell.perform W (Shell.handleLogin email password) st
  = match W (Shell.login email password) with
    | Rejected e => (Rejected e, st, [Shell.login email password])
    | Fulfilled _ =>
        (W Shell.start_watching,
         Shell.in_app (Shell.App.setLoading false)
           (match W Shell.get_status with
            | Fulfilled result =>
                Shell.in_app (Shell.App.setStatus (Some result)) st
            | Rejected _ => st
            end),
         [Shell.login email password; Shell.get_status; Shell.start_watching])
    end.
Proof.
  unfold Shell.handleLogin. rewrite shell_run_andThen.
  unfold Shell.invoke at 1 2 3. cbn [Shell.perform].
  unfold Shell.outcome, Shell.after, Shell.commands. cbn [fst snd].
  destruct (W (Shell.login email password)) as [e | []]; [reflexivity |].
  rewrite shell_run_andThen, loadStatus_run.
  unfold Shell.outcome, Shell.after, Shell.commands. cbn [fst snd].
  unfold Shell.invoke. cbn [Shell.perform fst snd app]. reflexivity.
Qed.

Lemma shell_run_catch {A : Type} (W : Shell.Backend) (p : Shell.flow A)
    (h : js_error -> Shell.flow A) :
  forall st,
    Shell.perform W (Shell.catch p h) st
    = match Shell.outcome (Shell.perform W p st) with
      | Fulfilled a => Shell.perform W p st
      | Rejected e =>
          (Shell.outcome (Shell.perform W (h e) (Shell.after (Shell.perform W p st))),
           Shell.after (Shell.perform W (h e) (Shell.after (Shell.perform W p st))),
           Shell.commands (Shell.perform W p st)
           ++ Shell.commands
                (Shell.perform W (h e) (Shell.after (Shell.perform W p st))))
      end.
Proof.
  induction p as [[e | a] | g k IH | c k IH | k IH]; intros st;
    cbn [Shell.catch Shell.perform].
  - unfold Shell.outcome, Shell.after, Shell.commands. cbn [fst snd app].
    destruct (Shell.perform W (h e) st) as [[r fin] tr]. reflexivity.
  - reflexivity.
  - apply IH.
  - rewrite (IH (W c) st).
    destruct (Shell.perform W (k (W c)) st) as [[[e | a] fin] tr];
      unfold Shell.outcome, Shell.after, Shell.commands; cbn [fst snd];
      reflexivity.
  - apply IH.
Qed.

Lemma shell_run_finally {A : Type} (W : Shell.Backend) (p : Shell.flow A)
    (f : Shell.Cells -> Shell.Cells) :
  forall st,
    Shell.perform W
      (Shell.finally p (Shell.Write f (Shell.ret tt))) st
    = (Shell.outcome (Shell.perform W p st),
       f (Shell.after (Shell.perform W p st)),
       Shell.commands (Shell.perform W p st)).
Proof.
  induction p as [r | g k IH | c k IH | k IH]; intros st;
    cbn [Shell.finally Shell.perform Shell.andThen Shell.ret].
  - reflexivity.
  - apply IH.
  - rewrite (IH (W c) st).
    destruct (Shell.perform W (k (W c)) st) as [[r fin] tr]. reflexivity.
  - apply IH.
Qed.

Lemma in_login_shown (f : Shell.Login.t -> Shell.Login.t) (st : Shell.Cells) :
  Shell.screen_of st = Shell.login_screen ->
  Shell.in_login f st
  = Shell.mkCells (Shell.app st) (f (Shell.login_form st))
      (Shell.settings_tab st).
Proof. intros Hshown. unfold Shell.in_login. rewrite Hshown. reflexivity. Qed.

Lemma in_login_hidden (f : Shell.Login.t -> Shell.Login.t) (st : Shell.Cells) :
  Shell.screen_of st <> Shell.login_screen -> Shell.in_login f st = st.
Proof.
  intros Hhidden. unfold Shell.in_login.
  destruct (Shell.screen_of st); [reflexivity | congruence | reflexivity].
Qed.

(** X23. Submitted from the login screen, the form's handler never rejects
    and issues exactly the commands of the login chain.  When the login
    screen is still shown once the chain has settled, the form ends with its
    busy flag off and with the error line empty after a fulfilled chain, or
    holding the message of the rejection (the default text when what was
    thrown is no [Error]).  When the chain replaced the login screen, [Login]
    is unmounted and nothing is written after the chain. *)
Theorem submit_always_settles (W : Shell.Backend) (s st : Shell.Cells) :
  Shell.screen_of st = Shell.login_screen ->
  let chain :=
    Shell.perform W
      (Shell.handleLogin (Shell.Login.email (Shell.login_form s))
         (Shell.Login.password (Shell.login_form s)))
      (Shell.in_login (Shell.Login.setLoading true)
         (Shell.in_login (Shell.Login.setError "") st)) in
  Shell.outcome (Shell.perform W (Shell.handleSubmit s) st) = Fulfilled tt /\
  Shell.commands (Shell.perform W (Shell.handleSubmit s) st)
  = Shell.commands chain /\
  Shell.app (Shell.after (Shell.perform W (Shell.handleSubmit s) st))
  = Shell.app (Shell.after chain) /\
  (Shell.screen_of (Shell.after chain) = Shell.login_screen ->
   Shell.login_form (Shell.after (Shell.perform W (Shell.handleSubmit s) st))
   = Shell.Login.setLoading false
       (Shell.Login.setError
          (match Shell.outcome chain with
           | Fulfilled _ => ""
           | Rejected err => Shell.login_error err
           end)
          (Shell.login_form st))) /\
  (Shell.screen_of (Shell.after chain) <> Shell.login_screen ->
   Shell.after (Shell.perform W (Shell.handleSubmit s) st) = Shell.after chain).
Proof.
  intros Hshown chain. unfold Shell.handleSubmit. cbn [Shell.perform].
  rewrite shell_run_finally, shell_run_catch. fold chain.
  assert (Hstart :
    Shell.in_login (Shell.Login.setLoading true)
      (Shell.in_login (Shell.Login.setError "") st)
    = Shell.mkCells (Shell.app st)
        (Shell.Login.setLoading true
           (Shell.Login.setError "" (Shell.login_form st)))
        (Shell.settings_tab st)).
  { rewrite (in_login_shown _ st Hshown).
    rewrite in_login_shown by exact Hshown. reflexivity. }
  assert (Hform : Shell.login_form (Shell.after chain)
                  = Shell.Login.setLoading true
                      (Shell.Login.setError "" (Shell.login_form st))).
  { unfold chain. rewrite handleLogin_run, Hstart.
    destruct (W (Shell.login _ _)) as [e | []]; [reflexivity |].
    destruct (W Shell.get_status); reflexivity. }
  set (fin := Shell.after chain) in *.
  set (cmds := Shell.commands chain) in *.
  destruct (Shell.outcome chain) as [err | []] eqn:Hout.
  - change (Shell.perform W
              (Shell.Write
                 (Shell.in_login (Shell.Login.setError (Shell.login_error err)))
                 (Shell.ret tt)) fin)
      with (Fulfilled tt : result unit,
            Shell.in_login (Shell.Login.setError (Shell.login_error err)) fin,
            @nil Shell.cmd).
    unfold Shell.outcome, Shell.after, Shell.commands. cbn [fst snd].
    rewrite app_nil_r.
    split; [reflexivity | split; [reflexivity |]].
    destruct (Shell.screen_of fin) eqn:Hscreen.
    + assert (Hhid : forall f, Shell.in_login f fin = fin)
        by (intros f; apply in_login_hidden; rewrite Hscreen; discriminate).
      rewrite !Hhid.
      split; [reflexivity |]. split; [discriminate | reflexivity].
    + rewrite (in_login_shown _ fin) by exact Hscreen.
      rewrite in_login_shown by exact Hscreen.
      cbn [Shell.app Shell.login_form]. rewrite Hform.
      split; [reflexivity |]. split; [reflexivity | congruence].
    + assert (Hhid : forall f, Shell.in_login f fin = fin)
        by (intros f; apply in_login_hidden; rewrite Hscreen; discriminate).
      rewrite !Hhid.
      split; [reflexivity |]. split; [discriminate | reflexivity].
  - fold fin. fold cmds. rewrite Hout.
    split; [reflexivity | split; [reflexivity |]].
    destruct (Shell.screen_of fin) eqn:Hscreen.
    + assert (Hhid : forall f, Shell.in_login f fin = fin)
        by (intros f; apply in_login_hidden; rewrite Hscreen; discriminate).
      rewrite !Hhid.
      split; [reflexivity |]. split; [discriminate | reflexivity].
    + rewrite in_login_shown by exact Hscreen.
      cbn [Shell.app Shell.login_form]. rewrite Hform.
      split; [reflexivity |]. split; [reflexivity | congruence].
    + assert (Hhid : forall f, Shell.in_login f fin = fin)
        by (intros f; apply in_login_hidden; rewrite Hscreen; discriminate).
      rewrite !Hhid.
      split; [reflexivity |]. split; [discriminate | reflexivity].
Qed.

(** X25. A rejected [login] ends the chain at once, with no reload and no
    watcher; once [login] went through, the status is reloaded and watching
    is started whatever the reload gave, and the start of the watcher alone
    decides how the chain settles. *)
Theorem login_chain (W : Shell.Backend) (email password : string)
    (st : Shell.Cells) :
  (forall e,
     W (Shell.login email password) = Rejected e ->
     Shell.perform W (Shell.handleLogin email password) st
     = (Rejected e, st, [Shell.login email password])) /\
  (W (Shell.login email password) = Fulfilled tt ->
   Shell.commands (Shell.perform W (Shell.handleLogin email password) st)
   = [Shell.login email password; Shell.get_status; Shell.start_watching] /\
   Shell.outcome (Shell.perform W (Shell.handleLogin email password) st)
   = W Shell.start_watching /\
   Shell.App.loading
     (Shell.app
        (Shell.after (Shell.perform W (Shell.handleLogin email password) st)))
   = false /\
   Shell.App.status
     (Shell.app
        (Shell.after (Shell.perform W (Shell.handleLogin email password) st)))
   = match W Shell.get_status with
     | Fulfilled result => Some result
     | Rejected _ => Shell.App.status (Shell.app st)
     end /\
   Shell.login_form
     (Shell.after (Shell.perform W (Shell.handleLogin email password) st))
   = Shell.login_form st).
Proof.
  split.
  - intros e Hlogin. rewrite handleLogin_run, Hlogin. reflexivity.
  - intros Hlogin. rewrite handleLogin_run, Hlogin.
    destruct (W Shell.get_status); cbn; repeat split.
Qed.

(** X24. The two loaders never reject and always clear their loading flag,
    so the spinner goes away; the status or the configuration is replaced
    when the backend answered and kept otherwise, and nothing else changes. *)
Theorem loaders_never_reject (W : Shell.Backend) (st : Shell.Cells) :
  (Shell.outcome (Shell.perform W Shell.loadStatus st) = Fulfilled tt /\
   Shell.commands (Shell.perform W Shell.loadStatus st) = [Shell.get_status] /\
   Shell.after (Shell.perform W Shell.loadStatus st)
   = Shell.in_app
       (fun a =>
          Shell.App.mk
            (match W Shell.get_status with
             | Fulfilled result => Some result
             | Rejected _ => Shell.App.status a
             end)
            (Shell.App.activeTab a) false)
       st /\
   Shell.screen_of (Shell.after (Shell.perform W Shell.loadStatus st))
   <> Shell.spinner) /\
  (Shell.outcome (Shell.perform W Shell.loadConfig st) = Fulfilled tt /\
   Shell.commands (Shell.perform W Shell.loadConfig st) = [Shell.get_config] /\
   Shell.after (Shell.perform W Shell.loadConfig st)
   = Shell.in_settings
       (fun c =>
          Shell.Settings.mk
            (match W Shell.get_config with
             | Fulfilled result => Some result
             | Rejected _ => Shell.Settings.config c
             end)
            false (Shell.Settings.saving c))
       st).
Proof.
  split.
  - rewrite loadStatus_run.
    destruct (W Shell.get_status) as [e | result]; repeat split;
      unfold Shell.screen_of; cbn;
      match goal with
      | |- context [negb ?b] => destruct b
      end; discriminate.
  - unfold Shell.loadConfig, Shell.invoke.
    cbn [Shell.andThen Shell.catch Shell.finally Shell.perform].
    destruct (W Shell.get_config) as [e | result];
      cbn [Shell.andThen Shell.catch Shell.finally Shell.perform Shell.ret];
      repeat split.
Qed.

(** X26. The chains of [App] stop at the first command that is rejected:
    the session is not closed when the watcher could not be stopped, the
    status is reloaded only after what precedes went through, and the
    browser is opened only with the address the backend returned. *)
Theorem chains_stop_at_rejection (W : Shell.Backend) (st : Shell.Cells) :
  Shell.perform W Shell.handleLogout st
  = match W Shell.stop_watching, W Shell.logout with
    | Rejected e, _ => (Rejected e, st, [Shell.stop_watching])
    | Fulfilled _, Rejected e =>
        (Rejected e, st, [Shell.stop_watching; Shell.logout])
    | Fulfilled _, Fulfilled _ =>
        (Fulfilled tt,
         Shell.after (Shell.perform W Shell.loadStatus st),
         [Shell.stop_watching; Shell.logout; Shell.get_status])
    end /\
  Shell.perform W Shell.handleTogglePause st
  = match W Shell.toggle_pause with
    | Rejected e => (Rejected e, st, [Shell.toggle_pause])
    | Fulfilled _ =>
        (Fulfilled tt,
         Shell.after (Shell.perform W Shell.loadStatus st),
         [Shell.toggle_pause; Shell.get_status])
    end /\
  Shell.perform W Shell.handleOpenDashboard st
  = match W Shell.open_dashboard with
    | Rejected e => (Rejected e, st, [Shell.open_dashboard])
    | Fulfilled url =>
        (W (Shell.shell_open url), st,
         [Shell.open_dashboard; Shell.shell_open url])
    end.
Proof.
  split; [| split].
  - unfold Shell.handleLogout, Shell.invoke.
    cbn [Shell.andThen Shell.perform].
    destruct (W Shell.stop_watching) as [e | []];
      cbn [Shell.andThen Shell.perform]; [reflexivity |].
    destruct (W Shell.logout) as [e | []];
      cbn [Shell.andThen Shell.perform]; [reflexivity |].
    rewrite loadStatus_run. reflexivity.
  - unfold Shell.handleTogglePause, Shell.invoke.
    cbn [Shell.andThen Shell.perform].
    destruct (W Shell.toggle_pause) as [e | []];
      cbn [Shell.andThen Shell.perform]; [reflexivity |].
    rewrite loadStatus_run. reflexivity.
  - unfold Shell.handleOpenDashboard, Shell.invoke.
    cbn [Shell.andThen Shell.perform].
    destruct (W Shell.open_dashboard) as [e | url];
      cbn [Shell.andThen Shell.perform]; reflexivity.
Qed.

Lemma saveConfig_run (W : Shell.Backend) (newConfig : Shell.Config.t)
    (st : Shell.Cells) :
  Shell.perform W (Shell.saveConfig newConfig) st
  = match W (Shell.save_config newConfig) with
    | Rejected _ =>
        (Fulfilled tt,
         Shell.in_settings (Shell.Settings.setSaving false)
           (Shell.in_settings (Shell.Settings.setSaving true) st),
         [Shell.save_config newConfig])
    | Fulfilled _ =>
        (Fulfilled tt,
         Shell.in_settings (Shell.Settings.setSaving false)
           (Shell.after
              (Shell.perform W Shell.loadStatus
                 (Shell.in_settings
                    (Shell.Settings.setConfig (Some newConfig))
                    (Shell.in_settings (Shell.Settings.setSaving true) st)))),
         [Shell.save_config newConfig; Shell.get_status])
    end.
Proof.
  unfold Shell.saveConfig. cbn [Shell.perform].
  rewrite shell_run_finally, shell_run_catch.
  unfold Shell.invoke. cbn [Shell.andThen Shell.perform].
  destruct (W (Shell.save_config newConfig)) as [e | []];
    cbn [Shell.andThen Shell.perform].
  - reflexivity.
  - rewrite !loadStatus_run. reflexivity.
Qed.

(** X27. Saving the configuration never rejects and always clears the busy
    flag; the configuration shown changes, and the status is reloaded, only
    when the backend accepted the new one. *)
Theorem save_config_outcome (W : Shell.Backend) (newConfig : Shell.Config.t)
    (st : Shell.Cells) :
  Shell.outcome (Shell.perform W (Shell.saveConfig newConfig) st) = Fulfilled tt /\
  Shell.Settings.saving
    (Shell.settings_tab
       (Shell.after (Shell.perform W (Shell.saveConfig newConfig) st)))
  = false /\
  match W (Shell.save_config newConfig) with
  | Fulfilled _ =>
      Shell.Settings.config
        (Shell.settings_tab
           (Shell.after (Shell.perform W (Shell.saveConfig newConfig) st)))
      = Some newConfig /\
      Shell.commands (Shell.perform W (Shell.saveConfig newConfig) st)
      = [Shell.save_config newConfig; Shell.get_status]
  | Rejected _ =>
      Shell.Settings.config
        (Shell.settings_tab
           (Shell.after (Shell.perform W (Shell.saveConfig newConfig) st)))
      = Shell.Settings.config (Shell.settings_tab st) /\
      Shell.app (Shell.after (Shell.perform W (Shell.saveConfig newConfig) st))
      = Shell.app st /\
      Shell.commands (Shell.perform W (Shell.saveConfig newConfig) st)
      = [Shell.save_config newConfig]
  end.
Proof.
  rewrite saveConfig_run.
  destruct (W (Shell.save_config newConfig)) as [e | []].
  - repeat split.
  - rewrite loadStatus_run. destruct (W Shell.get_status); repeat split.
Qed.

Lemma with_same_folders (config : Shell.Config.t) :
  Shell.Config.with_watched_folders (Shell.Config.watched_folders config) config
  = config.
Proof. destruct config; reflexivity. Qed.

Lemma without_fresh (folder : string) (folders : list string) :
  ~ List.In folder folders ->
  Shell.without folder (folders ++ [folder]) = folders.
Proof.
  intros Hfresh. unfold Shell.without. rewrite List.filter_app. cbn.
  rewrite String.eqb_refl. cbn. rewrite app_nil_r.
  induction folders as [| f rest IH]; [reflexivity |].
  cbn. destruct (String.eqb_spec f folder) as [-> | Hne].
  - exfalso. apply Hfresh. left. reflexivity.
  - cbn. f_equal. apply IH. intros Hin. apply Hfresh. right. exact Hin.
Qed.

Lemma without_app (folder : string) (folders : list string) :
  Shell.without folder (folders ++ [folder]) = Shell.without folder folders.
Proof.
  unfold Shell.without. rewrite List.filter_app. cbn.
  rewrite String.eqb_refl. cbn. apply app_nil_r.
Qed.

(** X28. Adding a folder appends it; removing it afterwards removes every
    entry equal to it, also one that was there before; for a folder that was
    not watched the configuration is back to what it was. *)
Theorem add_then_remove_folder (W1 W2 : Shell.Backend) (st : Shell.Cells)
    (config : Shell.Config.t) (folder : string) :
  Shell.Settings.config (Shell.settings_tab st) = Some config ->
  W1 Shell.dialog_open = Fulfilled (Some folder) ->
  truthy folder = true ->
  (forall c, W1 (Shell.save_config c) = Fulfilled tt) ->
  (forall c, W2 (Shell.save_config c) = Fulfilled tt) ->
  let added := Shell.after (Shell.perform W1 (Shell.handleAddFolder st) st) in
  let removed :=
    Shell.after (Shell.perform W2 (Shell.handleRemoveFolder added folder) added) in
  Shell.Settings.config (Shell.settings_tab added)
  = Some (Shell.Config.with_watched_folders
            (Shell.Config.watched_folders config ++ [folder]) config) /\
  Shell.Settings.config (Shell.settings_tab removed)
  = Some (Shell.Config.with_watched_folders
            (Shell.without folder (Shell.Config.watched_folders config))
            config) /\
  (~ List.In folder (Shell.Config.watched_folders config) ->
   Shell.Settings.config (Shell.settings_tab removed) = Some config).
Proof.
  intros Hconfig Hdialog Hfolder Hsave1 Hsave2 added removed.
  assert (Hadded :
    Shell.Settings.config (Shell.settings_tab added)
    = Some (Shell.Config.with_watched_folders
              (Shell.Config.watched_folders config ++ [folder]) config)).
  { unfold added, Shell.handleAddFolder. rewrite shell_run_catch.
    unfold Shell.invoke. cbn [Shell.andThen Shell.perform].
    rewrite Hdialog. cbn [Shell.andThen truthy_opt or_empty].
    rewrite Hfolder, Hconfig, saveConfig_run, Hsave1, loadStatus_run.
    destruct (W1 Shell.get_status); reflexivity. }
  assert (Hremoved :
    Shell.Settings.config (Shell.settings_tab removed)
    = Some (Shell.Config.with_watched_folders
              (Shell.without folder (Shell.Config.watched_folders config))
              config)).
  { unfold removed, Shell.handleRemoveFolder. rewrite Hadded.
    rewrite saveConfig_run, Hsave2, loadStatus_run.
    cbn [Shell.Config.watched_folders Shell.Config.with_watched_folders].
    rewrite without_app.
    destruct (W2 Shell.get_status); reflexivity. }
  split; [exact Hadded | split; [exact Hremoved |]].
  intros Hfresh. rewrite Hremoved. f_equal.
  replace (Shell.without folder (Shell.Config.watched_folders config))
    with (Shell.Config.watched_folders config).
  - apply with_same_folders.
  - rewrite <- without_app. symmetry. apply without_fresh. exact Hfresh.
Qed.

Lemma toggle_run (W : Shell.Backend) (st : Shell.Cells)
    (newConfig : Shell.Config.t) :
  W (Shell.save_config newConfig) = Fulfilled tt ->
  Shell.settings_tab (Shell.after (Shell.perform W (Shell.saveConfig newConfig) st))
  = Shell.Settings.setSaving false
      (Shell.Settings.setConfig (Some newConfig)
         (Shell.Settings.setSaving true (Shell.settings_tab st))).
Proof.
  intros Hsave. rewrite saveConfig_run, Hsave, loadStatus_run.
  destruct (W Shell.get_status); reflexivity.
Qed.

(** X29. Each of the two switches is undone by a second click, provided both
    saves go through. *)
Theorem switches_toggle_back (W1 W2 : Shell.Backend) (st : Shell.Cells)
    (config : Shell.Config.t) :
  Shell.Settings.config (Shell.settings_tab st) = Some config ->
  (forall c, W1 (Shell.save_config c) = Fulfilled tt) ->
  (forall c, W2 (Shell.save_config c) = Fulfilled tt) ->
  (let once :=
     Shell.after (Shell.perform W1 (Shell.handleToggleNotifications st) st) in
   Shell.Settings.config (Shell.settings_tab once)
   = Some (Shell.Config.with_show_notifications
             (negb (Shell.Config.show_notifications config)) config) /\
   Shell.Settings.config
     (Shell.settings_tab
        (Shell.after
           (Shell.perform W2 (Shell.handleToggleNotifications once) once)))
   = Some config) /\
  (let once :=
     Shell.after (Shell.perform W1 (Shell.handleToggleStartOnBoot st) st) in
   Shell.Settings.config (Shell.settings_tab once)
   = Some (Shell.Config.with_start_on_boot
             (negb (Shell.Config.start_on_boot config)) config) /\
   Shell.Settings.config
     (Shell.settings_tab
        (Shell.after
           (Shell.perform W2 (Shell.handleToggleStartOnBoot once) once)))
   = Some config).
Proof.
  intros Hconfig Hsave1 Hsave2. split; intros once.
  - assert (Honce :
      Shell.Settings.config (Shell.settings_tab once)
      = Some (Shell.Config.with_show_notifications
                (negb (Shell.Config.show_notifications config)) config)).
    { unfold once, Shell.handleToggleNotifications. rewrite Hconfig.
      rewrite toggle_run by apply Hsave1. reflexivity. }
    split; [exact Honce |].
    unfold Shell.handleToggleNotifications. rewrite Honce.
    rewrite toggle_run by apply Hsave2.
    destruct config as [a d f n b p]. cbn. rewrite negb_involutive.
    reflexivity.
  - assert (Honce :
      Shell.Settings.config (Shell.settings_tab once)
      = Some (Shell.Config.with_start_on_boot
                (negb (Shell.Config.start_on_boot config)) config)).
    { unfold once, Shell.handleToggleStartOnBoot. rewrite Hconfig.
      rewrite toggle_run by apply Hsave1. reflexivity. }
    split; [exact Honce |].
    unfold Shell.handleToggleStartOnBoot. rewrite Honce.
    rewrite toggle_run by apply Hsave2.
    destruct config as [a d f n b p]. cbn. rewrite negb_involutive.
    reflexivity.
Qed.

(** X30. Without a loaded configuration the settings handlers save nothing
    and issue no command; the folder dialog that is dismissed, fails or
    finds no configuration saves nothing either. *)
Theorem settings_need_config (W : Shell.Backend) (st : Shell.Cells)
    (folder : string) :
  (Shell.Settings.config (Shell.settings_tab st) = None ->
   Shell.perform W (Shell.handleRemoveFolder st folder) st = (Fulfilled tt, st, [])
   /\ Shell.perform W (Shell.handleToggleNotifications st) st
      = (Fulfilled tt, st, [])
   /\ Shell.perform W (Shell.handleToggleStartOnBoot st) st
      = (Fulfilled tt, st, [])) /\
  (Shell.Settings.config (Shell.settings_tab st) = None
   \/ match W Shell.dialog_open with
      | Fulfilled selected => truthy_opt selected = false
      | Rejected _ => True
      end ->
   Shell.perform W (Shell.handleAddFolder st) st
   = (Fulfilled tt, st, [Shell.dialog_open])).
Proof.
  split.
  - intros Hnone.
    unfold Shell.handleRemoveFolder, Shell.handleToggleNotifications,
      Shell.handleToggleStartOnBoot.
    rewrite Hnone. repeat split.
  - intros Hskip. unfold Shell.handleAddFolder, Shell.invoke.
    cbn [Shell.andThen Shell.catch Shell.perform].
    destruct (W Shell.dialog_open) as [e | selected];
      cbn [Shell.andThen Shell.catch Shell.perform]; [reflexivity |].
    destruct (truthy_opt selected) eqn:Hsel; [| reflexivity].
    destruct Hskip as [Hnone | Hfalse]; [| discriminate].
    rewrite Hnone. reflexivity.
Qed.

Lemma submit_always_settles_witness :
  let r :=
    Shell.perform Shell.Example.refusing
      (Shell.handleSubmit Shell.Example.logged_out) Shell.Example.logged_out in
  let r' :=
    Shell.perform Shell.Example.friendly
      (Shell.handleSubmit Shell.Example.logged_out) Shell.Example.logged_out in
  Shell.commands r = [Shell.login "user@example.org" "secret"] /\
  Shell.Login.error (Shell.login_form (Shell.after r)) = "Ошибка входа" /\
  Shell.Login.loading (Shell.login_form (Shell.after r)) = false /\
  Shell.screen_of (Shell.after r') = Shell.main_screen Shell.dashboard /\
  Shell.Login.loading (Shell.login_form (Shell.after r')) = true.
Proof.
  pose proof (submit_always_settles Shell.Example.refusing
                Shell.Example.logged_out Shell.Example.logged_out eq_refl)
    as H.
  pose proof (submit_always_settles Shell.Example.friendly
                Shell.Example.logged_out Shell.Example.logged_out eq_refl)
    as H'.
  cbv zeta in H, H'.
  destruct H as (_ & H2 & _ & H4 & _). destruct H' as (_ & _ & _ & _ & H5).
  split; [rewrite H2; reflexivity |].
  split; [rewrite (H4 eq_refl); reflexivity |].
  split; [rewrite (H4 eq_refl); reflexivity |].
  split; rewrite (H5 ltac:(discriminate)); reflexivity.
Defined.

Lemma add_then_remove_folder_witness :
  let added :=
    Shell.after
      (Shell.perform Shell.Example.friendly
         (Shell.handleAddFolder Shell.Example.configured)
         Shell.Example.configured) in
  let removed :=
    Shell.after
      (Shell.perform Shell.Example.friendly
         (Shell.handleRemoveFolder added "C:\new") added) in
  Shell.Settings.config (Shell.settings_tab added)
  = Some
      (Shell.Config.with_watched_folders ["C:\watch"; "C:\new"]
         Shell.Example.config) /\
  Shell.Settings.config (Shell.settings_tab removed)
  = Some Shell.Example.config.
Proof.
  pose proof (add_then_remove_folder Shell.Example.friendly
                Shell.Example.friendly Shell.Example.configured
                Shell.Example.config "C:\new" eq_refl eq_refl eq_refl
                (fun _ => eq_refl) (fun _ => eq_refl)) as H.
  cbv zeta in H. destruct H as (H1 & _ & H3).
  split; [exact H1 |].
  apply H3. intros [H | []]. discriminate H.
Defined.

Lemma switches_toggle_back_witness :
  let once :=
    Shell.after
      (Shell.perform Shell.Example.friendly
         (Shell.handleToggleNotifications Shell.Example.configured)
         Shell.Example.configured) in
  Shell.Settings.config (Shell.settings_tab once)
  = Some (Shell.Config.with_show_notifications false Shell.Example.config) /\
  Shell.Settings.config
    (Shell.settings_tab
       (Shell.after
          (Shell.perform Shell.Example.friendly
             (Shell.handleToggleNotifications once) once)))
  = Some Shell.Example.config.
Proof.
  destruct (switches_toggle_back Shell.Example.friendly
              Shell.Example.friendly Shell.Example.configured
              Shell.Example.config eq_refl (fun _ => eq_refl)
              (fun _ => eq_refl)) as [H _].
  cbv zeta in H. destruct H as [H1 H2].
  split; [exact H1 | exact H2].
Defined.
